(** * msgforwarder: the message-routing engine

    A shallow embedding of [msgforwarder/forwarder.py] and of the transports
    under [msgforwarder/transports/], with the properties of the routing
    engine proved about it.

    Python dictionaries are finite maps ([gmap] with string keys), Python
    exceptions and side effects (log records, printed lines, scheduled
    tasks, signals) are threaded through a small trace-and-exception monad,
    and the libraries the code calls ([re], [jsonschema], the network
    sessions) appear as far as the code's own behaviour depends on them. *)

From Stdlib Require Import Ascii String.
From stdpp Require Import gmap strings list fin_maps.

#[local] Set Warnings "-register-all,-clear-no-such-hyp".
#[local] Open Scope string_scope.
#[local] Open Scope list_scope.

(** ** Python values *)

(** The three transport classes of [msgforwarder/transports/]. *)
Inductive transport_class : Type :=
| IRCClient
| GitterClient
| TelegramClient.

(** What [yaml.safe_load] hands to the program, plus the transport
    instances that [Forwarder.__init__] stores next to the configuration.
    A transport instance keeps its [_client_id] and its [_msg_template]. *)
Inductive pyval : Type :=
| PNone
| PBool (b : bool)
| PInt (z : Z)
| PStr (s : string)
| PList (l : list pyval)
| PDict (d : gmap string pyval)
| PClient (cls : transport_class) (client_id : string) (msg_template : pyval).

Abbreviation dict := (gmap string pyval).

(** Lists and dictionaries are the unhashable values: using one as a
    dictionary key, or testing it with [in] against a dictionary, raises
    [TypeError]. *)
Definition hashable (v : pyval) : bool :=
  match v with
  | PList _ | PDict _ => false
  | _ => true
  end.

(** ** Exceptions, effects and the monad of the embedding *)

(** The exceptions the code can end in. [OutsideModel] is not one of
    Python's: it marks a use of the [%] operator that is not followed here
    (see [fmt_run]), and no statement below concludes it. *)
Inductive exn : Type :=
| KeyError (key : pyval)
| ValueError (msg : string)
| TypeError (msg : string)
| AttributeError (msg : string)
| ValidationError (instance : pyval)
| re_error
| SystemExit (status : Z)
| OutsideModel (what : string).

Inductive level : Type := DEBUG | INFO | WARNING | ERROR.

(** The log records of the program, kept structured: each constructor is one
    format string of the source together with its arguments. *)
Inductive log_msg : Type :=
| Received (client target user text : string)
| TransportMissed (client_id : string)
| TransportUnknown (transport : pyval)
| InvalidCredentials (client_id : string)
| UserNotInitialized (missed_user : string)
| Forwarding (msg target client_id : string)
| Connecting (client_id : string)
| NewChannelDetected (channel_id : Z) (channel_name : string).

(** The effects of the program: a log record, a line printed, the task
    [self._say(channel, msg)] of a transport put on the event loop, a
    transport told to connect, a receiver subscribed to a signal, a signal
    sent with its sender and keyword arguments, the event loop started. *)
Inductive event : Type :=
| Log (lvl : level) (msg : log_msg)
| Stdout (line : string)
| CreateTaskSay (client_id channel msg : string)
| Connect (cls : transport_class) (client_id : string)
| SignalConnect (signal : string)
| SignalSend (signal sender user target : string) (text : option string)
| RunForever.

Inductive result (A : Type) : Type :=
| Return (a : A)
| Raise (e : exn).
Arguments Return {A} a.
Arguments Raise {A} e.

(** A computation is the trace of effects it performed and how it ended.
    Effects performed before an exception stay in the trace. *)
Definition M (A : Type) : Type := (list event * result A)%type.

Definition ret {A} (a : A) : M A := ([], Return a).

Definition bind {A B} (m : M A) (f : A -> M B) : M B :=
  match m with
  | (t, Return a) => let '(t', r) := f a in (t ++ t', r)
  | (t, Raise e) => (t, Raise e)
  end.

Definition emit (e : event) : M unit := ([e], Return tt).

Definition raise {A} (e : exn) : M A := ([], Raise e).

(** [try: m except <handles>: h] *)
Definition try_except {A} (m : M A) (handles : exn -> bool) (h : exn -> M A) : M A :=
  match m with
  | (t, Raise e) => if handles e then let '(t', r) := h e in (t ++ t', r) else (t, Raise e)
  | returned => returned
  end.

Declare Scope py_scope.
Delimit Scope py_scope with py.
Notation "x <- m ;; k" := (bind m (fun x => k))
  (at level 100, m at next level, k at level 200, right associativity) : py_scope.
Notation "m ;; k" := (bind m (fun _ => k))
  (at level 100, k at level 200, right associativity) : py_scope.
#[local] Open Scope py_scope.

(** [for x in l: body x] *)
Fixpoint for_each {A} (l : list A) (body : A -> M unit) : M unit :=
  match l with
  | [] => ret tt
  | x :: l' => body x ;; for_each l' body
  end.

Definition logger_info (m : log_msg) : M unit := emit (Log INFO m).
Definition logger_warning (m : log_msg) : M unit := emit (Log WARNING m).
Definition logger_debug (m : log_msg) : M unit := emit (Log DEBUG m).
Definition logger_error (m : log_msg) : M unit := emit (Log ERROR m).

(** [d[k]] on a dictionary. *)
Definition getitem (d : dict) (k : string) : M pyval :=
  match d !! k with
  | Some v => ret v
  | None => raise (KeyError (PStr k))
  end.

(** ** Strings *)

(** [s.split(sep, 1)]: at most one split, at the first occurrence of the
    separator, from the left. *)
Fixpoint str_split1 (sep : ascii) (s : string) : list string :=
  match s with
  | EmptyString => [EmptyString]
  | String c rest =>
      if Ascii.eqb c sep then [EmptyString; rest]
      else match str_split1 sep rest with
           | [] => [String c EmptyString]
           | part :: parts => String c part :: parts
           end
  end.

(** [a, b = parts] *)
Definition unpack2 (parts : list string) : M (string * string) :=
  match parts with
  | [a; b] => ret (a, b)
  | _ :: _ :: _ :: _ => raise (ValueError "too many values to unpack (expected 2)")
  | _ => raise (ValueError "not enough values to unpack (expected 2)")
  end.

(** [channel, client_id = s.split("@", 1)], the one way in which both
    [Forwarder.validate] and [Forwarder.on_message] read a rule's [from]
    and [send_to]. *)
Definition split_endpoint (s : string) : M (string * string) :=
  unpack2 (str_split1 "@"%char s).

(** ** Outbound templates: [template % mapping] *)

Inductive fmt_state : Type :=
| FText
| FPercent
| FKey (depth : nat) (key : string)
| FConv (value : string).

(** The part of the [%] operator the templates use: literal text, [%%] and
    [%(key)s] with string values. The key is looked up as soon as its
    closing parenthesis is read (so a missing key is a [KeyError] whatever
    follows), parentheses inside a key nest, and a template that ends inside
    a specifier is a [ValueError]. Flags, widths, precisions and the other
    conversion types are outside the embedding. *)
Fixpoint fmt_run (args : gmap string string) (st : fmt_state) (out : string)
    (template : string) : M string :=
  match template with
  | EmptyString =>
      match st with
      | FText => ret out
      | FKey _ _ => raise (ValueError "incomplete format key")
      | _ => raise (ValueError "incomplete format")
      end
  | String c rest =>
      match st with
      | FText =>
          if Ascii.eqb c "%"%char then fmt_run args FPercent out rest
          else fmt_run args FText (out +:+ String c EmptyString) rest
      | FPercent =>
          if Ascii.eqb c "%"%char then fmt_run args FText (out +:+ "%") rest
          else if Ascii.eqb c "("%char then fmt_run args (FKey 0 EmptyString) out rest
          else raise (OutsideModel "format specifier without a mapping key")
      | FKey depth key =>
          if Ascii.eqb c ")"%char then
            match depth with
            | O => match args !! key with
                   | Some v => fmt_run args (FConv v) out rest
                   | None => raise (KeyError (PStr key))
                   end
            | S depth' => fmt_run args (FKey depth' (key +:+ ")")) out rest
            end
          else if Ascii.eqb c "("%char then fmt_run args (FKey (S depth) (key +:+ "(")) out rest
          else fmt_run args (FKey depth (key +:+ String c EmptyString)) out rest
      | FConv v =>
          if Ascii.eqb c "s"%char then fmt_run args FText (out +:+ v) rest
          else raise (OutsideModel "conversion other than a plain s")
      end
  end.

Definition py_format (template : pyval) (args : gmap string string) : M string :=
  match template with
  | PStr t => fmt_run args FText EmptyString t
  | _ => raise (TypeError "unsupported operand type(s) for %")
  end.

(** ** transports/transport.py: [BaseTransport] *)

Definition NAME (cls : transport_class) : string :=
  match cls with
  | IRCClient => "irc"
  | GitterClient => "Gitter"
  | TelegramClient => "telegram"
  end.

(** [IRCClient] inherits the template of [BaseTransport]; the other two
    classes define their own. *)
Definition MSG_TEMPLATE (cls : transport_class) : string :=
  match cls with
  | IRCClient => "[From %(from_client)s] %(author)s : %(msg)s"
  | GitterClient => "*[From %(from_client)s]* **%(author)s** : %(msg)s"
  | TelegramClient => "_[From %(from_client)s]_ *%(author)s* : %(msg)s"
  end.

(** The mapping [BaseTransport.say] formats its template with. *)
Definition say_args (author from_client from_target target msg : string)
    : gmap string string :=
  <["author" := author]> (<["from_client" := from_client]>
  (<["from_target" := from_target]> (<["target" := target]>
  (<["msg" := msg]> ∅)))).

(** [BaseTransport.__init__]: the template is the client's [msg_template]
    when its configuration has one, the class default otherwise. *)
Definition BaseTransport_init (cls : transport_class) (client_id : string)
    (client_cfg : dict) : pyval :=
  PClient cls client_id (default (PStr (MSG_TEMPLATE cls)) (client_cfg !! "msg_template")).

(** [BaseTransport.say]: render, log, and schedule [self._say(target, msg)]
    on the event loop without waiting for it. *)
Definition say (self : pyval) (author from_client from_target target msg : string)
    : M unit :=
  match self with
  | PClient cls client_id msg_template =>
      rendered <- py_format msg_template
                    (say_args author from_client from_target target msg) ;;
      logger_debug (Forwarding rendered target client_id) ;;
      emit (CreateTaskSay client_id target rendered)
  | _ => raise (AttributeError "say")
  end.

(** [BaseTransport._forward_message]: publish on the [messages] signal. *)
Definition _forward_message (client_id user target : string) (text : option string)
    : M unit :=
  emit (SignalSend "messages" client_id user target text).

(** [BaseTransport.validate]: [jsonschema.validate(cfg, cls.CONFIG_SCHEMA)].
    No transport class overrides [CONFIG_SCHEMA = {}] (the subclasses define
    [CLIENT_SCHEMA], which nothing reads), and the empty schema accepts
    every instance. *)
Definition transport_validate (cls : transport_class) (cfg : dict) : M unit :=
  ret tt.

(** [connect]: the log line, then the session is opened ([IRCClient]) or
    its opening is scheduled (the other two). What the session does on the
    network, and what it reads from the configuration to get there, is not
    followed further. *)
Definition connect (self : pyval) : M unit :=
  match self with
  | PClient cls client_id _ =>
      logger_info (Connecting client_id) ;;
      emit (Connect cls client_id)
  | _ => raise (AttributeError "connect")
  end.

(** ** forwarder.py: rules and their schema *)

(** A rule that passes [RULE_SCHEMA]: [from] and [send_to] are required
    strings, [nicknames] and [ignore_nicknames] optional arrays of strings,
    [regexp] an optional string, and there is no other key. *)
Record rule : Type := {
  rule_from : string;
  rule_send_to : string;
  rule_nicknames : option (list string);
  rule_ignore_nicknames : option (list string);
  rule_regexp : option string
}.

Definition as_str (v : pyval) : option string :=
  match v with
  | PStr s => Some s
  | _ => None
  end.

Definition as_str_list (v : pyval) : option (list string) :=
  match v with
  | PList l => mapM as_str l
  | _ => None
  end.

(** A property that may be absent, and must have the given type when
    present. *)
Definition optional_property {A} (ty : pyval -> option A) (o : option pyval)
    : option (option A) :=
  match o with
  | None => Some None
  | Some v => Some <$> ty v
  end.

Definition RULE_PROPERTIES : gset string :=
  {[ "from"; "send_to"; "nicknames"; "ignore_nicknames"; "regexp" ]}.

(** [jsonschema.validate(instance, RULE_SCHEMA)]: [None] stands for the
    [ValidationError], [Some r] for an accepted instance, read as a rule. *)
Definition validate_RULE_SCHEMA (instance : pyval) : option rule :=
  match instance with
  | PDict d =>
      if bool_decide (dom d ⊆ RULE_PROPERTIES) then
        match d !! "from" ≫= as_str, d !! "send_to" ≫= as_str,
              optional_property as_str_list (d !! "nicknames"),
              optional_property as_str_list (d !! "ignore_nicknames"),
              optional_property as_str (d !! "regexp") with
        | Some f, Some t, Some n, Some i, Some r =>
            Some {| rule_from := f; rule_send_to := t; rule_nicknames := n;
                    rule_ignore_nicknames := i; rule_regexp := r |}
        | _, _, _, _, _ => None
        end
      else None
  | _ => None
  end.

Definition set_optional (k : string) (o : option pyval) (d : dict) : dict :=
  match o with
  | Some v => <[k := v]> d
  | None => d
  end.

(** The dictionary a rule is in the configuration document. *)
Definition py_of_rule (r : rule) : pyval :=
  PDict (set_optional "regexp" (PStr <$> rule_regexp r)
        (set_optional "ignore_nicknames"
           ((fun l => PList (PStr <$> l)) <$> rule_ignore_nicknames r)
        (set_optional "nicknames"
           ((fun l => PList (PStr <$> l)) <$> rule_nicknames r)
        (<["send_to" := PStr (rule_send_to r)]>
        (<["from" := PStr (rule_from r)]> ∅))))).

(** ** forwarder.py: the transport registry *)

(** [_transports], as [load_plugins] fills it: every subclass of
    [BaseTransport] under its [NAME]. *)
Definition _transports : gmap string transport_class :=
  list_to_map [(NAME IRCClient, IRCClient); (NAME GitterClient, GitterClient);
               (NAME TelegramClient, TelegramClient)].

(** [v in _transports] *)
Definition in_transports (v : pyval) : M bool :=
  match v with
  | PStr k => ret (bool_decide (is_Some (_transports !! k)))
  | PList _ | PDict _ => raise (TypeError "unhashable type")
  | _ => ret false
  end.

(** [_transports[v]] *)
Definition transports_getitem (v : pyval) : M transport_class :=
  match v with
  | PStr k => match _transports !! k with
              | Some t => ret t
              | None => raise (KeyError v)
              end
  | PList _ | PDict _ => raise (TypeError "unhashable type")
  | _ => raise (KeyError v)
  end.

(** [k in d] for a dictionary and a string key. *)
Definition contains {A} (d : gmap string A) (k : string) : bool :=
  match d !! k with
  | Some _ => true
  | None => false
  end.

(** ** forwarder.py: [Forwarder.validate] *)

Definition is_ValidationError (e : exn) : bool :=
  match e with
  | ValidationError _ => true
  | _ => false
  end.

(** The first loop of [validate], over [clients.items()]; [false] is its
    bare [return]. *)
Fixpoint validate_clients (items : list (string * dict)) : M bool :=
  match items with
  | [] => ret true
  | (client_id, cfg) :: items' =>
      match cfg !! "transport" with
      | None => logger_error (TransportMissed client_id) ;; ret false
      | Some tr =>
          known <- in_transports tr ;;
          if negb known then logger_error (TransportUnknown tr) ;; ret false
          else
            t <- transports_getitem tr ;;
            ok <- try_except (transport_validate t cfg ;; ret true)
                    is_ValidationError
                    (fun _ => logger_error (InvalidCredentials client_id) ;; ret false) ;;
            if ok : bool then validate_clients items' else ret false
      end
  end.

(** [from_client_id if from_client_id not in clients else
     (to_client_id if to_client_id not in clients else None)] *)
Definition missed_user (clients : gmap string dict) (from_client_id to_client_id : string)
    : option string :=
  if negb (contains clients from_client_id) then Some from_client_id
  else if negb (contains clients to_client_id) then Some to_client_id
  else None.

(** [if missed_user:] tests truthiness: [None] and the empty string are
    both false. *)
Definition truthy (o : option string) : bool :=
  match o with
  | Some s => negb (bool_decide (s = ""))
  | None => false
  end.

(** The second loop of [validate], with [validated_rules] as accumulator.
    An instance that passes the schema is kept as the rule it is read as;
    [py_of_rule] gives the dictionary back. *)
Fixpoint validate_rules (clients : gmap string dict) (rules : list pyval)
    (validated_rules : list rule) : M (list rule) :=
  match rules with
  | [] => ret validated_rules
  | instance :: rules' =>
      match validate_RULE_SCHEMA instance with
      | None =>
          emit (Stdout "The following rule is invalid.") ;;
          raise (ValidationError instance)
      | Some r =>
          f <- split_endpoint (rule_from r) ;;
          t <- split_endpoint (rule_send_to r) ;;
          let mu := missed_user clients f.2 t.2 in
          if truthy mu then
            logger_warning (UserNotInitialized (default "" mu)) ;;
            validate_rules clients rules' validated_rules
          else validate_rules clients rules' (validated_rules ++ [r])
      end
  end.

(** [Forwarder.validate(clients, rules)]: [None] on a client that fails,
    [(clients, validated_rules)] otherwise. The loop over [clients.items()]
    runs over [map_to_list clients]: some fixed order of the mapping, as
    the iteration order of a dictionary is. *)
Definition validate (clients : gmap string dict) (rules : list pyval)
    : M (option (gmap string dict * list rule)) :=
  ok <- validate_clients (map_to_list clients) ;;
  if ok : bool then
    validated_rules <- validate_rules clients rules [] ;;
    ret (Some (clients, validated_rules))
  else ret None.

(** ** forwarder.py: [Forwarder.__init__] and [Forwarder.start] *)

Record Forwarder : Type := {
  _rules : list rule;
  _clients : gmap string dict
}.

(** [t(client_id, client_cfg)]: the constructors. [GitterClient.__init__]
    reads [client_cfg["token"]] for its headers. *)
Definition construct (t : transport_class) (client_id : string) (client_cfg : dict)
    : M pyval :=
  match t with
  | GitterClient =>
      getitem client_cfg "token" ;;
      ret (BaseTransport_init t client_id client_cfg)
  | _ => ret (BaseTransport_init t client_id client_cfg)
  end.

(** [clients[client]] *)
Definition clients_getitem (clients : gmap string dict) (client : string) : M dict :=
  match clients !! client with
  | Some cfg => ret cfg
  | None => raise (KeyError (PStr client))
  end.

(** The loop of [__init__]: it writes into the very dictionaries of the
    mapping it was given, so the mapping is threaded through. *)
Fixpoint init_clients (keys : list string) (clients : gmap string dict)
    : M (gmap string dict) :=
  match keys with
  | [] => ret clients
  | client :: keys' =>
      cfg <- clients_getitem clients client ;;
      tr <- getitem cfg "transport" ;;
      t <- transports_getitem tr ;;
      instance <- construct t client cfg ;;
      init_clients keys' (<[client := <["client" := instance]> cfg]> clients)
  end.

Definition Forwarder_init (clients : gmap string dict) (rules : list rule)
    : M Forwarder :=
  clients' <- init_clients (map_to_list clients).*1 clients ;;
  emit (SignalConnect "messages") ;;
  ret {| _rules := rules; _clients := clients' |}.

Definition start (self : Forwarder) : M unit :=
  for_each (map_to_list (_clients self)).*2
    (fun client => c <- getitem client "client" ;; connect c) ;;
  emit RunForever.

(** ** forwarder.py: [Forwarder.on_message] *)

(** What a call of [re.match] can do: return a match object, return [None],
    or raise [re.error] because its first argument does not compile. *)
Inductive re_result : Type :=
| Matches
| NoMatch
| BadPattern.

Section Router.

(** [re.match], of the standard library: first argument the pattern,
    second argument the string matched against it. *)
Variable re_match : string -> string -> re_result.

(** [not re.match(pattern, subject)] *)
Definition not_re_match (pattern subject : string) : M bool :=
  match re_match pattern subject with
  | Matches => ret false
  | NoMatch => ret true
  | BadPattern => raise re_error
  end.

(** The body of the loop of [on_message], for one rule; every [continue]
    is a [ret tt]. *)
Definition on_message_rule (self : Forwarder) (sender user target text : string)
    (r : rule) : M unit :=
  f <- split_endpoint (rule_from r) ;;
  let from_channel := f.1 in
  let from_client_id := f.2 in
  if negb (bool_decide (from_client_id = sender))
     || negb (bool_decide (from_channel = target)) then ret tt
  else if match rule_nicknames r with
          | Some nicknames => negb (bool_decide (user ∈ nicknames))
          | None => false
          end then ret tt
  else if bool_decide (user ∈ default [] (rule_ignore_nicknames r)) then ret tt
  else
    filtered <- match rule_regexp r with
                | Some regexp => not_re_match text regexp
                | None => ret false
                end ;;
    if filtered : bool then ret tt
    else
      t <- split_endpoint (rule_send_to r) ;;
      let to_channel := t.1 in
      let to_client_id := t.2 in
      cfg <- clients_getitem (_clients self) to_client_id ;;
      client <- getitem cfg "client" ;;
      say client user from_client_id target to_channel text.

Definition on_message (self : Forwarder) (sender user target text : string) : M unit :=
  logger_info (Received sender target user text) ;;
  for_each (_rules self) (on_message_rule self sender user target text).

End Router.

(** ** forwarder.py: [run], from the validation of the loaded configuration on *)

(** [run] once the configuration file is read: [clients] and [rules] are
    [config["clients"]] and [config["rules"]]. An exception that leaves
    [run] ends the process (with a traceback and exit status 1, like
    [SystemExit 1]). *)
Definition run (clients : gmap string dict) (rules : list pyval) : M unit :=
  resp <- validate clients rules ;;
  match resp with
  | None => raise (SystemExit 1)
  | Some (clients, rules) =>
      forwarder <- Forwarder_init clients rules ;;
      start forwarder
  end.

(** ** transports/irc.py: [IRCClient.on_message] *)

(** What the IRC library hands over: [user.nick], [message.client.nick]
    (the nick the transport is connected under), the target and the text. *)
Record irc_message : Type := {
  irc_user_nick : string;
  irc_client_nick : string;
  irc_target : string;
  irc_text : string
}.

Definition IRCClient_on_message (client_id : string) (m : irc_message) : M unit :=
  if bool_decide (irc_user_nick m = irc_client_nick m) then ret tt
  else _forward_message client_id (irc_user_nick m) (irc_target m) (Some (irc_text m)).

(** ** transports/gitter.py: the loop body of [GitterClient._listen_messages] *)

Record gitter_user : Type := { gitter_username : option string }.

Record gitter_message : Type := {
  gitter_fromUser : option gitter_user;
  gitter_text : option string
}.

(** One chunk of the room's stream: empty, not JSON, or a decoded message. *)
Inductive gitter_chunk : Type :=
| EmptyChunk
| NotJSON
| Decoded (message : gitter_message).

(** [self_username] is [self._user["username"]], the account the transport
    is connected as. *)
Definition GitterClient_listen_step (client_id self_username room_name : string)
    (raw_data : gitter_chunk) : M unit :=
  match raw_data with
  | EmptyChunk => ret tt
  | NotJSON => ret tt
  | Decoded message =>
      let author := default {| gitter_username := None |} (gitter_fromUser message) in
      let author := default "" (gitter_username author) in
      if bool_decide (author = self_username) then ret tt
      else _forward_message client_id author room_name (gitter_text message)
  end.

(** ** transports/telegram.py: the loop body of [TelegramClient._listen_for_update] *)

Record telegram_user : Type := {
  telegram_username : option string;
  telegram_first_name : option string
}.

Record telegram_chat : Type := {
  chat_title : option string;
  chat_id : Z
}.

Record telegram_message : Type := {
  message_text : option string;
  message_chat : telegram_chat;
  message_from : option telegram_user
}.

Record telegram_update : Type := {
  update_id : Z;
  update_message : option telegram_message;
  update_channel_post : option telegram_message;
  update_edited_message : option telegram_message;
  update_edited_channel_post : option telegram_message
}.

(** The state the loop keeps: [self._channels] and [offset]. *)
Record telegram_state : Type := {
  _channels : gmap string Z;
  offset : option Z
}.

(** [update[key.pop()]] for [key] the message kinds present in the update.
    The Bot API puts at most one of them in an update; were there several,
    [pop] would take any, and the embedding takes the first in the order
    the source lists them. *)
Definition update_payload (update : telegram_update) : option telegram_message :=
  match update_message update, update_channel_post update,
        update_edited_message update, update_edited_channel_post update with
  | Some m, _, _, _ => Some m
  | None, Some m, _, _ => Some m
  | None, None, Some m, _ => Some m
  | None, None, None, o => o
  end.

(** The body of [for update in updates]. There is no comparison of the
    author with [self._user] anywhere in it. *)
Definition TelegramClient_update_step (client_id : string) (self_user : telegram_user)
    (st : telegram_state) (update : telegram_update) : M telegram_state :=
  match update_payload update with
  | None => ret st
  | Some message =>
      match message_text message with
      | None => ret st
      | Some text =>
          match chat_title (message_chat message) with
          | None => raise (KeyError (PStr "title"))
          | Some channel_name =>
              let channel_id := chat_id (message_chat message) in
              let channels :=
                if contains (_channels st) channel_name then _channels st
                else <[channel_name := channel_id]> (_channels st) in
              let st := {| _channels := channels; offset := offset st |} in
              logger_info (NewChannelDetected channel_id channel_name) ;;
              let author :=
                default {| telegram_username := None; telegram_first_name := None |}
                        (message_from message) in
              match telegram_username author, telegram_first_name author with
              | Some author, _ | None, Some author =>
                  let st := {| _channels := channels;
                               offset := Some (update_id update + 1)%Z |} in
                  bind (_forward_message client_id author channel_name (Some text))
                       (fun _ => ret st)
              | None, None => ret st
              end
          end
      end
  end.

(** The effects that matter to the claims, read off a trace. *)
Definition is_publish (e : event) : bool :=
  match e with
  | SignalSend _ _ _ _ _ => true
  | _ => false
  end.

Definition is_connect (e : event) : bool :=
  match e with
  | Connect _ _ => true
  | _ => false
  end.

(** The sends a trace issued: destination client, channel, rendered text. *)
Definition sends (t : list event) : list (string * string * string) :=
  omap (fun e => match e with
                 | CreateTaskSay client_id channel msg => Some (client_id, channel, msg)
                 | _ => None
                 end) t.

(** ** Definitions the statements use *)

(** [c in s] for a character and a string. *)
Fixpoint has_char (c : ascii) (s : string) : bool :=
  match s with
  | EmptyString => false
  | String c' rest => Ascii.eqb c' c || has_char c rest
  end.

(** The spec's reading of an endpoint: [s.rsplit(sep, 1)], one split at the
    LAST occurrence of the separator. The code does not use it; it is here
    to be compared with [str_split1]. *)
Fixpoint spec_str_rsplit1 (sep : ascii) (s : string) : list string :=
  match s with
  | EmptyString => [EmptyString]
  | String c rest =>
      match spec_str_rsplit1 sep rest with
      | [a; b] => [String c a; b]
      | _ => if Ascii.eqb c sep then [EmptyString; rest] else [String c rest]
      end
  end.

Definition spec_split_endpoint (s : string) : M (string * string) :=
  unpack2 (spec_str_rsplit1 "@"%char s).

(** A template cut into literal text and [%(key)s] placeholders, and the
    string it is written as. *)
Inductive segment : Type :=
| Lit (text : string)
| Field (key : string).

Definition segment_source (seg : segment) : string :=
  match seg with
  | Lit text => text
  | Field key => "%(" +:+ key +:+ ")s"
  end.

Definition template_of (segs : list segment) : string :=
  foldr (fun seg acc => segment_source seg +:+ acc) "" segs.

(** Literal text has no [%]; a key has no parenthesis. *)
Definition segment_ok (seg : segment) : bool :=
  match seg with
  | Lit text => negb (has_char "%" text)
  | Field key => negb (has_char "(" key) && negb (has_char ")" key)
  end.

(** The names [BaseTransport.say] offers to a template. *)
Definition placeholders : list string :=
  ["author"; "from_client"; "from_target"; "target"; "msg"].

(** Substitution as the spec words it: each placeholder stands for one
    field of the forwarded message, literal text stands for itself. *)
Definition substitute (author from_client from_target target msg : string)
    (seg : segment) : string :=
  match seg with
  | Lit text => text
  | Field key =>
      if bool_decide (key = "author") then author
      else if bool_decide (key = "from_client") then from_client
      else if bool_decide (key = "from_target") then from_target
      else if bool_decide (key = "target") then target
      else if bool_decide (key = "msg") then msg
      else ""
  end.

Definition rendering (author from_client from_target target msg : string)
    (segs : list segment) : string :=
  foldr (fun seg acc => substitute author from_client from_target target msg seg +:+ acc)
        "" segs.

(** The channel and the client id [split_endpoint] reads in a rule string. *)
Definition channel_of (s : string) : string :=
  match str_split1 "@" s with
  | [a; _] => a
  | _ => s
  end.

Definition client_id_of (s : string) : string :=
  match str_split1 "@" s with
  | [_; b] => b
  | _ => ""
  end.

(** Both rule strings contain an [@]. *)
Definition has_endpoints (r : rule) : bool :=
  has_char "@" (rule_from r) && has_char "@" (rule_send_to r).

(** Both client ids of the rule are keys of the clients mapping. *)
Definition resolved (clients : gmap string dict) (r : rule) : bool :=
  contains clients (client_id_of (rule_from r))
  && contains clients (client_id_of (rule_send_to r)).

Definition rule_missed_user (clients : gmap string dict) (r : rule) : option string :=
  missed_user clients (client_id_of (rule_from r)) (client_id_of (rule_send_to r)).

(** What [validate] does with a rule: it drops it when [missed_user] is
    truthy, with this warning. *)
Definition dropped (clients : gmap string dict) (r : rule) : bool :=
  truthy (rule_missed_user clients r).

Definition drop_warning (clients : gmap string dict) (r : rule) : event :=
  Log WARNING (UserNotInitialized (default "" (rule_missed_user clients r))).

(** The transport class a client configuration names, if it names one of
    the registry. *)
Definition transport_class_of (cfg : dict) : option transport_class :=
  match cfg !! "transport" with
  | Some (PStr k) => _transports !! k
  | _ => None
  end.

Definition transport_hashable (cfg : dict) : bool :=
  match cfg !! "transport" with
  | Some v => hashable v
  | None => true
  end.

(** The [transport] key is omitted, or its value is not a key of the
    registry. *)
Definition unknown_transport (cfg : dict) : bool :=
  match transport_class_of cfg with
  | Some _ => false
  | None => true
  end.

Definition transport_diagnostic (client_id : string) (cfg : dict) : log_msg :=
  match cfg !! "transport" with
  | None => TransportMissed client_id
  | Some v => TransportUnknown v
  end.

(** A structurally malformed rule: it fails the schema, or one of its two
    strings has no [@]. *)
Definition malformed (instance : pyval) : bool :=
  match validate_RULE_SCHEMA instance with
  | None => true
  | Some r => negb (has_endpoints r)
  end.

(** The diagnostic of a run names a rule when the run ends in the
    [ValidationError] raised for that rule. *)
Definition diagnoses_rule (instance : pyval) (outcome : M unit) : Prop :=
  outcome.2 = Raise (ValidationError instance).

Definition no_connect (t : list event) : Prop :=
  Forall (fun e => is_connect e = false) t.

(** ** Configurations used as examples *)

Definition example_irc_cfg : dict :=
  <["transport" := PStr "irc"]> (<["server" := PStr "chat.freenode.net"]>
  (<["port" := PInt 6667]> (<["nickname" := PStr "relay"]> ∅))).

Definition example_gitter_cfg : dict :=
  <["transport" := PStr "Gitter"]> (<["token" := PStr "secret"]> ∅).

Definition example_telegram_cfg : dict :=
  <["transport" := PStr "telegram"]> (<["token" := PStr "secret"]> ∅).

Definition example_clients : gmap string dict :=
  <["IRC" := example_irc_cfg]> (<["Gitter" := example_gitter_cfg]>
  (<["Telegram" := example_telegram_cfg]> ∅)).

(** A rule with no filter. *)
Definition plain_rule (from send_to : string) : rule :=
  {| rule_from := from; rule_send_to := send_to; rule_nicknames := None;
     rule_ignore_nicknames := None; rule_regexp := None |}.

(** A client configuration from which [Forwarder.__init__] can build the
    transport: it names a registered transport, and has a [token] when
    that transport is Gitter. *)
Definition constructible (cfg : dict) : bool :=
  match transport_class_of cfg with
  | Some GitterClient => contains cfg "token"
  | Some _ => true
  | None => false
  end.

(** The transport instance built for a client. *)
Definition instance_for (client_id : string) (cfg : dict) : pyval :=
  match transport_class_of cfg with
  | Some t => BaseTransport_init t client_id cfg
  | None => PNone
  end.

(** A client's configuration once its transport is stored in it. *)
Definition with_client (client_id : string) (cfg : dict) : dict :=
  <["client" := instance_for client_id cfg]> cfg.

(** ** Matching, as the statements speak of it *)

(** The first three checks of [on_message]: endpoint equality, the allow
    list, the deny list. *)
Definition endpoint_and_nick_checks (r : rule) (sender user target : string) : bool :=
  bool_decide (client_id_of (rule_from r) = sender)
  && bool_decide (channel_of (rule_from r) = target)
  && match rule_nicknames r with
     | Some nicknames => bool_decide (user ∈ nicknames)
     | None => true
     end
  && match rule_ignore_nicknames r with
     | Some ignored => negb (bool_decide (user ∈ ignored))
     | None => true
     end.

(** The fourth check, with the arguments in the order the code gives them
    to [re.match]: the message text first, the rule's [regexp] second. *)
Definition pattern_check (re_match : string -> string -> re_result)
    (r : rule) (text : string) : bool :=
  match rule_regexp r with
  | Some regexp => match re_match text regexp with
                   | Matches => true
                   | _ => false
                   end
  | None => true
  end.

Definition forwards (re_match : string -> string -> re_result)
    (r : rule) (sender user target text : string) : bool :=
  endpoint_and_nick_checks r sender user target && pattern_check re_match r text.

(** Where a rule sends: client id and channel of its [send_to]. *)
Definition destination (r : rule) : string * string :=
  (client_id_of (rule_send_to r), channel_of (rule_send_to r)).

(** A template that renders whatever [say] is called with. *)
Definition template_renders (template : pyval) : Prop :=
  forall author from_client from_target target msg,
    exists rendered,
      py_format template (say_args author from_client from_target target msg)
      = ret rendered.

(** The destination of the rule is a configured client whose transport has
    been constructed, under the client id of the rule. *)
Definition destination_ready (self : Forwarder) (r : rule) : Prop :=
  exists cfg cls template,
    _clients self !! client_id_of (rule_send_to r) = Some cfg /\
    cfg !! "client" = Some (PClient cls (client_id_of (rule_send_to r)) template) /\
    template_renders template.

(** The message text never makes the pattern check of the rule raise. *)
Definition pattern_compiles (re_match : string -> string -> re_result)
    (text : string) (r : rule) : Prop :=
  forall regexp, rule_regexp r = Some regexp -> re_match text regexp <> BadPattern.

(** The registry [Forwarder.__init__] leaves for the example clients. *)
Definition example_registry : gmap string dict :=
  map_imap (fun cid cfg => Some (with_client cid cfg)) example_clients.

(** The characters with a meaning of their own in a pattern. *)
Definition metacharacters : list ascii :=
  ["."; "^"; "$"; "*"; "+"; "?"; "{"; "}"; "["; "]"; "\"; "|"; "("; ")"]%char.

Definition plain_pattern (pattern : string) : bool :=
  forallb (fun c => negb (bool_decide (c ∈ metacharacters))) (list_ascii_of_string pattern).

(** A stand-in for [re.match], only to show that what the theorems assume
    about it can hold: it agrees with [re.match] on patterns without
    metacharacters (such a pattern matches when it is a prefix of the
    subject) and on the pattern "(", which does not compile. *)
Definition stand_in_re_match (pattern subject : string) : re_result :=
  if plain_pattern pattern then
    if String.prefix pattern subject then Matches else NoMatch
  else if bool_decide (pattern = "(") then BadPattern
  else NoMatch.

(** The scenario of the spec: IRC [#a] is forwarded to Gitter [#b] unless
    the author is [bot2], and to Telegram [#c]; Gitter [#b] is forwarded
    back for one author only. *)
Definition example_rules : list rule :=
  [ {| rule_from := "#a@IRC"; rule_send_to := "#b@Gitter"; rule_nicknames := None;
       rule_ignore_nicknames := Some ["bot2"]; rule_regexp := None |};
    plain_rule "#a@IRC" "#c@Telegram";
    {| rule_from := "#b@Gitter"; rule_send_to := "#a@IRC";
       rule_nicknames := Some ["alice"]; rule_ignore_nicknames := None;
       rule_regexp := None |} ].

Definition example_forwarder : Forwarder :=
  {| _rules := example_rules; _clients := example_registry |}.

(** A rule with a pattern: forward what starts with "ab". *)
Definition regexp_rule : rule :=
  {| rule_from := "#a@IRC"; rule_send_to := "#b@Gitter"; rule_nicknames := None;
     rule_ignore_nicknames := None; rule_regexp := Some "ab" |}.

Definition regexp_forwarder : Forwarder :=
  {| _rules := [regexp_rule]; _clients := example_registry |}.

(** The pattern check as the spec words it: the rule's [regexp] is the
    pattern, the message text is the subject. *)
Definition spec_pattern_check (re_match : string -> string -> re_result)
    (r : rule) (text : string) : bool :=
  match rule_regexp r with
  | Some regexp => match re_match regexp text with
                   | Matches => true
                   | _ => false
                   end
  | None => true
  end.

(** The author the Gitter loop compares with its own user name. *)
Definition gitter_author (message : gitter_message) : string :=
  default "" (gitter_username (default {| gitter_username := None |} (gitter_fromUser message))).

(** A Telegram update carrying a text message. *)
Definition text_update (id : Z) (title : string) (chat : Z) (from : telegram_user)
    (text : string) : telegram_update :=
  {| update_id := id;
     update_message :=
       Some {| message_text := Some text;
               message_chat := {| chat_title := Some title; chat_id := chat |};
               message_from := Some from |};
     update_channel_post := None;
     update_edited_message := None;
     update_edited_channel_post := None |}.

(** ** transports/gitter.py: the [async for] of [GitterClient._listen_messages] *)


(** ** transports/telegram.py: the [for update in updates] of [_listen_for_update] *)

(** One batch of [getUpdates]; [self._channels] and [offset] go from one
    update to the next, and an exception leaves the loop. *)
Fixpoint TelegramClient_updates (client_id : string) (self_user : telegram_user)
    (st : telegram_state) (updates : list telegram_update) : M telegram_state :=
  match updates with
  | [] => ret st
  | update :: updates' =>
      st' <- TelegramClient_update_step client_id self_user st update ;;
      TelegramClient_updates client_id self_user st' updates'
  end.

(** ** What the transports' loops are compared with *)



(** The message of an update and its text, when it has both. *)
Definition text_message (update : telegram_update) : option (telegram_message * string) :=
  match update_payload update with
  | Some message =>
      match message_text message with
      | Some text => Some (message, text)
      | None => None
      end
  | None => None
  end.

(** The chat an update with text shows: title and id. *)
Definition sighting (update : telegram_update) : option (string * Z) :=
  match text_message update with
  | Some (message, _) =>
      match chat_title (message_chat message) with
      | Some title => Some (title, chat_id (message_chat message))
      | None => None
      end
  | None => None
  end.

(** The name an update's author goes by: [username], else [first_name]. *)
Definition telegram_author (message : telegram_message) : option string :=
  match message_from message with
  | Some author =>
      match telegram_username author with
      | Some username => Some username
      | None => telegram_first_name author
      end
  | None => None
  end.

(** An update that is to be forwarded: its id, and the author, chat title
    and text it is forwarded with. *)
Definition forwarded (update : telegram_update) : option (Z * (string * string * string)) :=
  match text_message update with
  | Some (message, text) =>
      match chat_title (message_chat message), telegram_author message with
      | Some title, Some author => Some (update_id update, (author, title, text))
      | _, _ => None
      end
  | None => None
  end.

Definition telegram_publication (client_id : string) (p : Z * (string * string * string))
    : event :=
  SignalSend "messages" client_id p.2.1.1 p.2.1.2 (Some p.2.2).

(** ** The transports' sessions *)

(** The log records of the transports, structured like [log_msg]. *)
Inductive session_log : Type :=
| JoiningChannels (client_id channels : string)
| ConnectedAs (client_id username : string)
| ConnectedRooms (client_id rooms : string)
| UnknownChannel (client_id channel msg : string)
| FailedToSend (client_id description : string).

(** What a transport does when it connects and when it sends: an effect of
    the routing engine ([core]), a log record of its own, a call into the
    IRC library, a receiver subscribed to a [blinker] signal, an HTTP
    request with its form data, a coroutine put on the event loop. What the
    libraries then do on the network is not followed, nor a failure of
    theirs. *)
Inductive session_event : Type :=
| core (e : event)
| SessionLog (lvl : level) (msg : session_log)
| irc_connect (server port use_ssl : pyval)
| irc_register (nickname user realname password : pyval)
| irc_join (channels : pyval)
| blinker_connect (signal : string)
| http_request (method url : string) (data : dict)
| create_task_connect (cls : transport_class) (client_id : string)
| create_task_listen_messages (room_name : string).

(** The monad of the sessions: [M] with the effects of the transports. *)
Definition Session (A : Type) : Type := (list session_event * result A)%type.

Definition sret {A} (a : A) : Session A := ([], Return a).

Definition sbind {A B} (m : Session A) (f : A -> Session B) : Session B :=
  match m with
  | (t, Return a) => let '(t', r) := f a in (t ++ t', r)
  | (t, Raise e) => (t, Raise e)
  end.

Definition semit (e : session_event) : Session unit := ([e], Return tt).

Definition sraise {A} (e : exn) : Session A := ([], Raise e).

(** A computation of the routing engine, run inside a session. *)
Definition lift {A} (m : M A) : Session A := (core <$> m.1, m.2).

Declare Scope session_scope.
Delimit Scope session_scope with session.
Notation "x <- m ;; k" := (sbind m (fun x => k))
  (at level 100, m at next level, k at level 200, right associativity) : session_scope.
Notation "m ;; k" := (sbind m (fun _ => k))
  (at level 100, k at level 200, right associativity) : session_scope.

Fixpoint sfor_each {A} (l : list A) (body : A -> Session unit) : Session unit :=
  match l with
  | [] => sret tt
  | x :: l' => (body x ;; sfor_each l' body)%session
  end.

(** [str(v)], for the values the sessions put into a URL. *)
Definition py_str (v : pyval) : Session string :=
  match v with
  | PStr s => sret s
  | _ => sraise (OutsideModel "str() of a value that is not a string")
  end.

(** [sep.join(v)]: a list of strings is joined, a string is joined
    character by character, a list with another item and a value that is
    not iterable are a [TypeError]. Joining the keys of a dictionary is
    not followed. *)
Definition py_join (sep : string) (v : pyval) : Session string :=
  match v with
  | PList l =>
      match mapM as_str l with
      | Some items => sret (String.concat sep items)
      | None => sraise (TypeError "sequence item: expected str instance")
      end
  | PStr s =>
      sret (String.concat sep ((fun c => String c EmptyString) <$> list_ascii_of_string s))
  | PDict _ => sraise (OutsideModel "join over the keys of a dictionary")
  | _ => sraise (TypeError "can only join an iterable")
  end.

(** ** transports/irc.py: [IRCClient._connect] *)

Definition IRCClient__connect (client_id : string) (client_cfg : dict) : Session unit :=
  (server <- lift (getitem client_cfg "server") ;;
   port <- lift (getitem client_cfg "port") ;;
   semit (irc_connect server port (default (PBool false) (client_cfg !! "use_ssl"))) ;;
   nickname <- lift (getitem client_cfg "nickname") ;;
   semit (irc_register nickname
            (default (PStr "") (client_cfg !! "ident"))
            (default (PStr "") (client_cfg !! "realname"))
            (default PNone (client_cfg !! "password"))) ;;
   channels <- lift (getitem client_cfg "channels") ;;
   joined <- py_join ", " channels ;;
   semit (SessionLog INFO (JoiningChannels client_id joined)) ;;
   channels <- lift (getitem client_cfg "channels") ;;
   semit (irc_join channels) ;;
   semit (blinker_connect "message"))%session.

(** ** [connect], with what each transport does in it *)

(** [BaseTransport.connect], which [IRCClient] inherits, logs and calls
    [_connect] on the spot; [GitterClient.connect] and
    [TelegramClient.connect] log and put [_connect] on the event loop.
    [client_cfg] is the transport's [_client_cfg]. *)
Definition transport_connect (self : pyval) (client_cfg : dict) : Session unit :=
  match self with
  | PClient cls client_id _ =>
      (lift (logger_info (Connecting client_id)) ;;
       match cls with
       | IRCClient => IRCClient__connect client_id client_cfg
       | _ => semit (create_task_connect cls client_id)
       end)%session
  | _ => sraise (AttributeError "connect")
  end.

(** [Forwarder.start], with the sessions. The dictionary a client is in
    [self._clients] is the very dictionary its transport was constructed
    with, so it is the transport's [_client_cfg]. *)
Definition Forwarder_start (self : Forwarder) : Session unit :=
  (sfor_each (map_to_list (_clients self)).*2
     (fun client => c <- lift (getitem client "client") ;; transport_connect c client) ;;
   semit (core RunForever))%session.

(** ** transports/telegram.py: [_make_url] and [_say] *)

(** [params] holds the items of the mapping, values already formatted;
    [None] and the empty mapping are both false for [if params:]. *)
Definition TelegramClient__make_url (client_cfg : dict) (action : string)
    (params : option (list (string * string))) : Session string :=
  (token <- lift (getitem client_cfg "token") ;;
   token <- py_str token ;;
   let url := "https://api.telegram.org/bot" +:+ token in
   let url := url +:+ "/" +:+ action in
   match params with
   | Some (item :: items) =>
       sret (url +:+ "?" +:+
             String.concat "&" ((fun kv => kv.1 +:+ "=" +:+ kv.2) <$> item :: items))
   | _ => sret url
   end)%session.

(** The decoded answer of the Bot API. *)
Record telegram_result : Type := {
  result_ok : bool;
  result_description : option string
}.

(** [response] is what the API answers to the request, if one is made. *)
Definition TelegramClient__say (client_id : string) (client_cfg : dict)
    (st : telegram_state) (response : telegram_result) (channel msg : string)
    : Session unit :=
  ((if negb (contains (_channels st) channel)
    then semit (SessionLog ERROR (UnknownChannel client_id channel msg))
    else sret tt) ;;
   url <- TelegramClient__make_url client_cfg "sendMessage" None ;;
   chat <- match _channels st !! channel with
           | Some id => sret id
           | None => sraise (KeyError (PStr channel))
           end ;;
   semit (http_request "GET" url
            (<["parse_mode" := PStr "Markdown"]> (<["text" := PStr msg]>
             (<["chat_id" := PInt chat]> ∅)))) ;;
   if result_ok response then sret tt
   else match result_description response with
        | Some description =>
            semit (SessionLog ERROR (FailedToSend client_id description))
        | None => sraise (KeyError (PStr "description"))
        end)%session.

(** ** transports/gitter.py: [_connect], [_join_room], [_listen_messages], [_say] *)

Record gitter_account : Type := {
  account_id : string;
  account_username : string
}.

Record gitter_room : Type := {
  room_name : string;
  room_id : pyval;
  room_oneToOne : bool
}.

(** [self._user] and [self._rooms]. *)
Record gitter_session : Type := {
  _user : option gitter_account;
  _rooms : dict
}.

(** [self._make_request(url, session, method, data)], as far as the
    transport is concerned: the request goes out. *)
Definition GitterClient__make_request (url method : string) (data : dict) : Session unit :=
  semit (http_request method ("https://api.gitter.im/v1" +:+ "/" +:+ url) data).

(** [dict(pairs)]: a later pair replaces an earlier one with the same key. *)
Definition py_dict (pairs : list (string * pyval)) : dict :=
  foldl (fun d kv => <[kv.1 := kv.2]> d) ∅ pairs.

(** [_join_room]; [found] is what the API answers to the first request,
    and is stored as the room's id. *)
Definition GitterClient__join_room (user : gitter_account) (found : string -> pyval)
    (rooms : dict) (room_name : string) : Session dict :=
  (let rooms_url := "user/" +:+ account_id user +:+ "/rooms" in
   GitterClient__make_request "rooms" "POST" {["uri" := PStr room_name]} ;;
   let room_id := found room_name in
   GitterClient__make_request rooms_url "POST" {["id" := room_id]} ;;
   sret (<[room_name := room_id]> rooms))%session.

Fixpoint GitterClient__join_rooms (user : gitter_account) (found : string -> pyval)
    (rooms : dict) (rooms_to_join : list string) : Session dict :=
  match rooms_to_join with
  | [] => sret rooms
  | room :: rooms_to_join' =>
      (rooms' <- GitterClient__join_room user found rooms room ;;
       GitterClient__join_rooms user found rooms' rooms_to_join')%session
  end.

(** [_connect]. [user] is [user[0]] of the answer to the first request,
    [rooms] the answer to the second. The joins, which the source gives to
    [asyncio.wait] together, are taken one after the other, in the order
    in which the set of room names is enumerated. *)
Definition GitterClient__connect (client_id : string) (client_cfg : dict)
    (user : gitter_account) (rooms : list gitter_room) (found : string -> pyval)
    : Session gitter_session :=
  (GitterClient__make_request "user" "GET" ∅ ;;
   semit (SessionLog DEBUG (ConnectedAs client_id (account_username user))) ;;
   GitterClient__make_request "rooms" "GET" ∅ ;;
   let _rooms := py_dict ((fun room => (room_name room, room_id room))
                            <$> filter (fun room => room_oneToOne room = false) rooms) in
   (if bool_decide (_rooms = ∅) then sret tt
    else semit (SessionLog DEBUG
                  (ConnectedRooms client_id
                     (String.concat ", " (map_to_list _rooms).*1)))) ;;
   requested_rooms <- match client_cfg !! "channels" with
                      | None => sret []
                      | Some (PList l) =>
                          match mapM as_str l with
                          | Some names => sret names
                          | None => sraise (OutsideModel "a channel that is not a string")
                          end
                      | Some _ => sraise (OutsideModel "channels that are not a list")
                      end ;;
   let rooms_to_join : gset string := dom _rooms ∖ list_to_set requested_rooms in
   _rooms <- GitterClient__join_rooms user found _rooms (elements rooms_to_join) ;;
   sfor_each requested_rooms (fun room => semit (create_task_listen_messages room)) ;;
   sret {| _user := Some user; _rooms := _rooms |})%session.

(** [_listen_messages], up to the request for the room's stream. *)
Definition GitterClient__listen_messages (self : gitter_session) (room_name : string)
    : Session unit :=
  (room_id <- lift (getitem (_rooms self) room_name) ;;
   room_id <- py_str room_id ;;
   semit (http_request "GET"
            ("https://stream.gitter.im/v1/rooms/" +:+ room_id +:+ "/chatMessages") ∅))%session.

Definition GitterClient__say (self : gitter_session) (channel msg : string) : Session unit :=
  (room_id <- lift (getitem (_rooms self) channel) ;;
   room_id <- py_str room_id ;;
   GitterClient__make_request ("rooms/" +:+ room_id +:+ "/chatMessages") "POST"
     {["text" := PStr msg]})%session.

(** ** What the sessions are compared with *)

(** The keys [IRCClient._connect] subscripts, in the order in which it
    reads them. *)
Definition irc_required : list string := ["server"; "port"; "nickname"; "channels"].

(** The first of them a configuration does not have. *)
Definition first_missing (client_cfg : dict) : option string :=
  head (filter (fun key => client_cfg !! key = None) irc_required).

(** The session is on the network, and may take messages in. *)
Definition is_irc_join (e : session_event) : bool :=
  match e with
  | irc_join _ => true
  | _ => false
  end.

Definition is_subscription (e : session_event) : bool :=
  match e with
  | blinker_connect _ => true
  | _ => false
  end.

Definition is_run_forever (e : session_event) : bool :=
  match e with
  | core RunForever => true
  | _ => false
  end.

(** The transports a trace started to connect, by client id. *)
Definition connecting (t : list session_event) : list string :=
  omap (fun e => match e with
                 | core (Log INFO (Connecting client_id)) => Some client_id
                 | _ => None
                 end) t.

(** The rooms of the account that are not one-to-one conversations. *)
Definition member_rooms (rooms : list gitter_room) : gset string :=
  list_to_set (room_name <$> filter (fun room => room_oneToOne room = false) rooms).

(** The rooms a trace looked up by [uri], which is how [_join_room]
    starts. *)
Definition joined (t : list session_event) : list string :=
  omap (fun e => match e with
                 | http_request _ _ data => data !! "uri" ≫= as_str
                 | _ => None
                 end) t.

(** The rooms a trace scheduled a listener for. *)
Definition listening (t : list session_event) : list string :=
  omap (fun e => match e with
                 | create_task_listen_messages room => Some room
                 | _ => None
                 end) t.

(** The two requests of one [_join_room]. *)
Definition join_requests (user : gitter_account) (found : string -> pyval)
    (room : string) : list session_event :=
  [http_request "POST" "https://api.gitter.im/v1/rooms" {["uri" := PStr room]};
   http_request "POST" ("https://api.gitter.im/v1/user/" +:+ account_id user +:+ "/rooms")
     {["id" := found room]}].

(** ** forwarder.py: [run], up to the path of the configuration file *)

(** The line feed of the two headings that end in one. *)
Definition LF : string := String (ascii_of_nat 10) EmptyString.

Section CommandLine.

(** The module's docstring and path, the dump of [RULE_SCHEMA] that
    [json.dumps] gives, and [os.path.expanduser] and [os.path.isfile]. *)
Variables (__doc__ __file__ RULE_SCHEMA_dump : string).
Variable expanduser : string -> string.
Variable isfile : string -> bool.

Definition help_asked (args : list string) : bool :=
  bool_decide ("--help" ∈ args) || bool_decide ("-h" ∈ args) || bool_decide ("help" ∈ args).

(** [run] from [args = sys.argv[1:]] to [filename]. In the loop of the
    first branch [t] is a key of [_transports], a string, so reading
    [t.CLIENT_SCHEMA] for the second [print] raises. *)
Definition run_arguments (args : list string) : M string :=
  if help_asked args then
    (if bool_decide ("clients" ∈ args) || bool_decide ("client" ∈ args) then
       emit (Stdout "There are several available transports.") ;;
       for_each (map_to_list _transports).*1
         (fun t =>
            emit (Stdout ("The jsonschema for values of clients section: " +:+ LF)) ;;
            raise (AttributeError "'str' object has no attribute 'CLIENT_SCHEMA'"))
     else if bool_decide ("rules" ∈ args) || bool_decide ("rule" ∈ args) then
       emit (Stdout ("The jsonschema for items of rules section: " +:+ LF)) ;;
       emit (Stdout RULE_SCHEMA_dump)
     else emit (Stdout __doc__)) ;;
    raise (SystemExit 0)
  else if bool_decide (1 < length args) then
    emit (Stdout ("ERROR: there are too many provided arguments. Call `" +:+ __file__
                  +:+ " --help` to print help message.")) ;;
    raise (SystemExit 1)
  else
    match args with
    | [] =>
        emit (Stdout ("ERROR: You should provide a path to config. Call `" +:+ __file__
                      +:+ " --help` to print help message.")) ;;
        raise (SystemExit 1)
    | arg :: _ =>
        if negb (isfile (expanduser arg)) then
          emit (Stdout ("IOError: Failed to open configuration file at " +:+ arg +:+ ".")) ;;
          raise (SystemExit 1)
        else ret (expanduser arg)
    end.

End CommandLine.

(** An IRC configuration [_connect] gets through: it has the four keys,
    and its [channels] are a list of strings. *)
Definition irc_ready (client_cfg : dict) : Prop :=
  first_missing client_cfg = None /\
  exists channels, client_cfg !! "channels" = Some (PList (PStr <$> channels)).

(** A client as [Forwarder.__init__] leaves it, ready to connect: its
    dictionary holds the transport, and an IRC one is ready. *)
Definition connectable (client_cfg : dict) : Prop :=
  exists cls client_id template,
    client_cfg !! "client" = Some (PClient cls client_id template) /\
    (cls = IRCClient -> irc_ready client_cfg).

(** The client id of the transport a client's dictionary holds. *)
Definition configured_client_id (client_cfg : dict) : option string :=
  match client_cfg !! "client" with
  | Some (PClient _ client_id _) => Some client_id
  | _ => None
  end.

(** The ids of a batch ascend strictly, as those [getUpdates] returns do. *)
Fixpoint ascending (ids : list Z) : Prop :=
  match ids with
  | [] => True
  | id :: ids' => Forall (Z.lt id) ids' /\ ascending ids'
  end.

(** * Properties *)

(** ** The monad *)

Lemma bind_ret {A B} (a : A) (f : A -> M B) : bind (ret a) f = f a.
Proof. unfold bind, ret. by destruct (f a). Qed.

Lemma bind_raise {A B} (e : exn) (f : A -> M B) : bind (raise e) f = raise e.
Proof. done. Qed.

Lemma bind_emit {B} (ev : event) (f : unit -> M B) :
  bind (emit ev) f = (ev :: (f tt).1, (f tt).2).
Proof. unfold bind, emit. by destruct (f tt). Qed.

Lemma bind_run {A B} (t : list event) (a : A) (f : A -> M B) :
  bind (t, Return a) f = (t ++ (f a).1, (f a).2).
Proof. unfold bind. by destruct (f a). Qed.

Lemma bind_run_raise {A B} (t : list event) (e : exn) (f : A -> M B) :
  bind (t, Raise e) f = (t, Raise e).
Proof. done. Qed.

Lemma M_eta {A} (m : M A) : m = (m.1, m.2).
Proof. by destruct m. Qed.

(** ** Endpoints: where a rule string is split *)

Lemma str_split1_first sep (a b : string) :
  has_char sep a = false ->
  str_split1 sep (a +:+ String sep b) = [a; b].
Proof.
  induction a as [|c a IH]; simpl.
  - by rewrite Ascii.eqb_refl.
  - intros [Hc Ha]%orb_false_elim. rewrite Hc, IH by done. done.
Qed.

Lemma str_split1_absent sep (s : string) :
  has_char sep s = false -> str_split1 sep s = [s].
Proof.
  induction s as [|c s IH]; simpl; [done|].
  intros [Hc Hs]%orb_false_elim. by rewrite Hc, IH.
Qed.

Lemma str_split1_present sep (s : string) :
  has_char sep s = true ->
  exists a b, str_split1 sep s = [a; b] /\ has_char sep a = false /\ s = a +:+ String sep b.
Proof.
  induction s as [|c s IH]; simpl; [done|].
  destruct (Ascii.eqb c sep) eqn:Hc; simpl.
  - intros _. apply Ascii.eqb_eq in Hc as ->. by exists EmptyString, s.
  - intros (a & b & -> & Ha & ->)%IH. exists (String c a), b. simpl. by rewrite Hc, Ha.
Qed.

(** A string without [@] cannot be unpacked into the two components. *)
Lemma split_endpoint_absent (s : string) :
  has_char "@" s = false ->
  split_endpoint s = raise (ValueError "not enough values to unpack (expected 2)").
Proof. intros H. unfold split_endpoint. by rewrite str_split1_absent. Qed.

Lemma split_endpoint_present (s : string) :
  has_char "@" s = true -> exists a b, split_endpoint s = ret (a, b) /\ str_split1 "@" s = [a; b].
Proof.
  intros (a & b & H & _)%str_split1_present. exists a, b. unfold split_endpoint. by rewrite H.
Qed.

(** C3 (amended): a rule string is split at its FIRST [@]. The channel is
    what stands before the first [@], the client id everything after it,
    further [@] included. [Forwarder.validate] and [Forwarder.on_message]
    both read [from] and [send_to] through [split_endpoint]. *)
Theorem split_endpoint_first_at (channel client_id : string) :
  has_char "@" channel = false ->
  split_endpoint (channel +:+ String "@" client_id) = ret (channel, client_id).
Proof.
  intros H. unfold split_endpoint. by rewrite str_split1_first.
Qed.

Lemma split_endpoint_first_at_witness :
  has_char "@" "#room" = false /\
  split_endpoint ("#room" +:+ String "@" "bridge@IRC") = ret ("#room", "bridge@IRC").
Proof.
  split; [reflexivity | apply (split_endpoint_first_at "#room" "bridge@IRC"); reflexivity].
Defined.

(** C3 as the spec states it fails: with an [@] inside the channel name the
    code cuts at the first [@], not at the last. *)
Lemma split_endpoint_not_last_at :
  split_endpoint "a@b@IRC" = ret ("a", "b@IRC") /\
  spec_split_endpoint "a@b@IRC" = ret ("a@b", "IRC") /\
  split_endpoint "a@b@IRC" <> spec_split_endpoint "a@b@IRC".
Proof. split; [reflexivity | split; [reflexivity | discriminate]]. Qed.

(** ** Templates *)

Lemma append_cons (c : ascii) (a b : string) : String c a +:+ b = String c (a +:+ b).
Proof. reflexivity. Qed.

Lemma append_nil_r (s : string) : s +:+ "" = s.
Proof. induction s as [|c s IH]; [done | by rewrite append_cons, IH]. Qed.

Lemma append_assoc (a b c : string) : (a +:+ b) +:+ c = a +:+ (b +:+ c).
Proof. induction a as [|x a IH]; [done | by rewrite !append_cons, IH]. Qed.

Lemma fmt_run_literal args (text out rest : string) :
  has_char "%" text = false ->
  fmt_run args FText out (text +:+ rest) = fmt_run args FText (out +:+ text) rest.
Proof.
  revert out. induction text as [|c text IH]; intros out; simpl.
  - by rewrite append_nil_r.
  - intros [Hc Ht]%orb_false_elim. rewrite Hc, IH by done.
    by rewrite append_assoc.
Qed.

Lemma fmt_run_key args (key acc out rest : string) :
  has_char "(" key = false -> has_char ")" key = false ->
  fmt_run args (FKey 0 acc) out (key +:+ String ")" rest) =
    match args !! (acc +:+ key) with
    | Some v => fmt_run args (FConv v) out rest
    | None => raise (KeyError (PStr (acc +:+ key)))
    end.
Proof.
  revert acc. induction key as [|c key IH]; intros acc; simpl.
  - by rewrite append_nil_r.
  - intros [Ho Hk]%orb_false_elim [Hc Hk']%orb_false_elim.
    rewrite Hc, Ho, IH by done. by rewrite append_assoc.
Qed.

Lemma segment_source_field (key rest : string) :
  segment_source (Field key) +:+ rest
  = String "%" (String "(" (key +:+ String ")" (String "s" rest))).
Proof. unfold segment_source. by rewrite !append_assoc. Qed.

Lemma fmt_run_field args (key v out rest : string) :
  has_char "(" key = false -> has_char ")" key = false ->
  args !! key = Some v ->
  fmt_run args FText out (segment_source (Field key) +:+ rest) =
    fmt_run args FText (out +:+ v) rest.
Proof.
  intros Ho Hc Hv. rewrite segment_source_field. simpl.
  rewrite fmt_run_key by done.
  change ("" +:+ key) with key. by rewrite Hv.
Qed.

Lemma say_args_placeholder author from_client from_target target msg key :
  key ∈ placeholders ->
  say_args author from_client from_target target msg !! key =
    Some (substitute author from_client from_target target msg (Field key)).
Proof.
  unfold placeholders. rewrite !elem_of_cons, elem_of_nil.
  intros [->|[->|[->|[->|[->|[]]]]]]; reflexivity.
Qed.

Lemma fmt_run_template author from_client from_target target msg segs out :
  Forall (fun seg => segment_ok seg = true) segs ->
  (forall key, Field key ∈ segs -> key ∈ placeholders) ->
  fmt_run (say_args author from_client from_target target msg) FText out (template_of segs)
  = ret (out +:+ rendering author from_client from_target target msg segs).
Proof.
  intros Hok. revert out. induction Hok as [|seg segs Hseg _ IH]; intros out Hkeys; simpl.
  - by rewrite append_nil_r.
  - assert (Hrest : forall key, Field key ∈ segs -> key ∈ placeholders).
    { intros key ?. apply Hkeys. by right. }
    destruct seg as [text|key].
    + simpl in Hseg. apply negb_true_iff in Hseg.
      change (segment_source (Lit text)) with text.
      rewrite fmt_run_literal, IH by done. by rewrite append_assoc.
    + simpl in Hseg. apply andb_true_iff in Hseg as [Ho Hc].
      apply negb_true_iff in Ho, Hc.
      erewrite fmt_run_field; [|done|done|].
      2:{ apply say_args_placeholder, Hkeys. by left. }
      rewrite IH by done. by rewrite append_assoc.
Qed.

(** C7 (amended): rendering depends on the template and on the five fields
    [say] is called with, and on nothing else of the transport: every
    placeholder among [author], [from_client], [from_target], [target],
    [msg] is replaced by its field ([from_client] is the origin client id),
    literal text is kept, and the rendered text is what is logged and
    scheduled for sending. The default template with origin "X", author
    "alice" and text "hi" gives exactly "[From X] alice : hi". *)
Theorem say_substitutes_placeholders cls client_id segs
    author from_client from_target target msg :
  Forall (fun seg => segment_ok seg = true) segs ->
  (forall key, Field key ∈ segs -> key ∈ placeholders) ->
  let rendered := rendering author from_client from_target target msg segs in
  say (PClient cls client_id (PStr (template_of segs)))
      author from_client from_target target msg
  = ([Log DEBUG (Forwarding rendered target client_id);
      CreateTaskSay client_id target rendered], Return tt)
  /\ say (BaseTransport_init IRCClient client_id ∅) "alice" "X" from_target target "hi"
     = ([Log DEBUG (Forwarding "[From X] alice : hi" target client_id);
         CreateTaskSay client_id target "[From X] alice : hi"], Return tt).
Proof.
  intros Hok Hkeys rendered. split; [|reflexivity].
  unfold say, py_format. rewrite fmt_run_template by done. reflexivity.
Qed.

Lemma say_substitutes_placeholders_witness :
  let segs := [Lit "<"; Field "from_target"; Lit "> "; Field "author"; Lit ": "; Field "msg"] in
  Forall (fun seg => segment_ok seg = true) segs /\
  (forall key, Field key ∈ segs -> key ∈ placeholders) /\
  say (PClient GitterClient "Gitter" (PStr "<%(from_target)s> %(author)s: %(msg)s"))
      "alice" "IRC" "#a" "#b" "hi"
  = ([Log DEBUG (Forwarding "<#a> alice: hi" "#b" "Gitter");
      CreateTaskSay "Gitter" "#b" "<#a> alice: hi"], Return tt).
Proof.
  intros segs.
  assert (Hok : Forall (fun seg => segment_ok seg = true) segs)
    by (repeat constructor).
  assert (Hkeys : forall key, Field key ∈ segs -> key ∈ placeholders).
  { intros key. unfold segs, placeholders. rewrite !elem_of_cons, !elem_of_nil.
    intros [?|[[= ->]|[?|[[= ->]|[?|[[= ->]|[]]]]]]]; try discriminate; auto 10. }
  split; [exact Hok | split; [exact Hkeys |]].
  exact (proj1 (say_substitutes_placeholders GitterClient "Gitter" segs
                  "alice" "IRC" "#a" "#b" "hi" Hok Hkeys)).
Defined.

(** C7 as the spec states it fails twice over: the rendered text is not
    determined by origin client id, author, text and template (here it
    changes with the origin channel), and a template that names the origin
    client id [client_id] is not rendered at all. *)
Lemma say_template_counterexample :
  py_format (PStr "%(from_target)s: %(msg)s") (say_args "alice" "X" "#a" "#z" "hi") = ret "#a: hi" /\
  py_format (PStr "%(from_target)s: %(msg)s") (say_args "alice" "X" "#b" "#z" "hi") = ret "#b: hi" /\
  py_format (PStr "[From %(client_id)s] %(author)s : %(msg)s") (say_args "alice" "X" "#a" "#z" "hi")
    = raise (KeyError (PStr "client_id")).
Proof. repeat split; reflexivity. Qed.

(** ** The rule schema *)

Lemma as_str_list_strings (l : list string) :
  as_str_list (PList (PStr <$> l)) = Some l.
Proof. simpl. by apply mapM_fmap_Some. Qed.

(** A rule written as a dictionary passes the schema and is read back. *)
Lemma validate_RULE_SCHEMA_py_of_rule (r : rule) :
  validate_RULE_SCHEMA (py_of_rule r) = Some r.
Proof.
  destruct r as [f t n i re]. unfold validate_RULE_SCHEMA, py_of_rule.
  rewrite bool_decide_eq_true_2.
  2:{ destruct n, i, re; simpl; rewrite ?dom_insert_L, dom_empty_L;
      apply (bool_decide_unpack _); by vm_compute. }
  destruct n as [n|], i as [i|], re as [re|]; simpl;
    repeat (rewrite lookup_insert_eq || rewrite lookup_insert_ne by done
            || rewrite lookup_empty);
    simpl; rewrite ?(mapM_fmap_Some as_str PStr) by done; reflexivity.
Qed.

Lemma set_optional_lookup (k k' : string) (o : option pyval) (d : dict) :
  set_optional k o d !! k' =
    if decide (k = k') then match o with Some v => Some v | None => d !! k' end
    else d !! k'.
Proof.
  destruct o as [v|]; simpl.
  - destruct (decide (k = k')) as [->|]; [by rewrite lookup_insert_eq | by rewrite lookup_insert_ne].
  - by destruct (decide (k = k')).
Qed.

Lemma as_str_inv v s : as_str v = Some s -> v = PStr s.
Proof. destruct v; simpl; congruence. Qed.

Lemma as_str_list_inv v l : as_str_list v = Some l -> v = PList (PStr <$> l).
Proof.
  destruct v as [| | | |vs| |]; simpl; try done. intros H. f_equal.
  symmetry. eapply mapM_fmap_Some_inv; [exact H|]. intros x y Hxy. symmetry. by apply as_str_inv.
Qed.

Lemma optional_property_inv {A} (ty : pyval -> option A) (back : A -> pyval) o r :
  (forall v a, ty v = Some a -> v = back a) ->
  optional_property ty o = Some r -> o = back <$> r.
Proof.
  intros Hinv. destruct o as [v|]; simpl.
  - destruct (ty v) as [a|] eqn:Ha; simpl; [|done]. intros [= <-]. simpl. f_equal. by apply Hinv.
  - by intros [= <-].
Qed.

(** Conversely an instance the schema accepts is the dictionary of the
    rule it is read as: the record loses nothing of an accepted rule. *)
Lemma validate_RULE_SCHEMA_inv (instance : pyval) (r : rule) :
  validate_RULE_SCHEMA instance = Some r -> instance = py_of_rule r.
Proof.
  destruct instance as [| | | | |d|]; try done. unfold validate_RULE_SCHEMA.
  case_bool_decide as Hdom; [|done].
  destruct (d !! "from" ≫= as_str) as [f|] eqn:Hf; [|done].
  destruct (d !! "send_to" ≫= as_str) as [t|] eqn:Ht; [|done].
  destruct (optional_property as_str_list (d !! "nicknames")) as [n|] eqn:Hn; [|done].
  destruct (optional_property as_str_list (d !! "ignore_nicknames")) as [i|] eqn:Hi; [|done].
  destruct (optional_property as_str (d !! "regexp")) as [re|] eqn:Hre; [|done].
  intros [= <-]. unfold py_of_rule. cbn [rule_from rule_send_to rule_nicknames
    rule_ignore_nicknames rule_regexp]. f_equal. apply map_eq. intros k.
  apply bind_Some in Hf as (vf & Hf & ->%as_str_inv).
  apply bind_Some in Ht as (vt & Ht & ->%as_str_inv).
  apply (optional_property_inv _ (fun l => PList (PStr <$> l))) in Hn, Hi;
    [|apply as_str_list_inv..].
  apply (optional_property_inv _ PStr) in Hre; [|apply as_str_inv].
  rewrite !set_optional_lookup.
  destruct (decide ("regexp" = k)) as [<-|]; [by rewrite Hre; destruct re|].
  destruct (decide ("ignore_nicknames" = k)) as [<-|]; [by rewrite Hi; destruct i|].
  destruct (decide ("nicknames" = k)) as [<-|]; [by rewrite Hn; destruct n|].
  destruct (decide ("send_to" = k)) as [<-|]; [by rewrite lookup_insert_eq|].
  rewrite lookup_insert_ne by done.
  destruct (decide ("from" = k)) as [<-|]; [by rewrite lookup_insert_eq|].
  rewrite lookup_insert_ne, lookup_empty by done.
  apply not_elem_of_dom. intros Hk. apply Hdom in Hk.
  unfold RULE_PROPERTIES in Hk. set_solver.
Qed.

(** ** [Forwarder.validate] *)

Lemma split_endpoint_channel_client (s : string) :
  has_char "@" s = true -> split_endpoint s = ret (channel_of s, client_id_of s).
Proof.
  intros (a & b & H & _)%str_split1_present.
  unfold split_endpoint, channel_of, client_id_of. by rewrite H.
Qed.

Lemma validate_clients_registered (items : list (string * dict)) :
  Forall (fun item => is_Some (transport_class_of item.2)) items ->
  validate_clients items = ret true.
Proof.
  induction 1 as [|[cid cfg] items [t Ht] _ IH]; [done|].
  simpl in *. unfold transport_class_of in Ht.
  destruct (cfg !! "transport") as [[| | |k| | |]|]; try done.
  simpl. rewrite Ht. simpl. by rewrite IH.
Qed.

Lemma validate_clients_unknown (items : list (string * dict)) :
  Forall (fun item => transport_hashable item.2 = true) items ->
  Exists (fun item => unknown_transport item.2 = true) items ->
  exists cid cfg, (cid, cfg) ∈ items /\ unknown_transport cfg = true /\
    validate_clients items = ([Log ERROR (transport_diagnostic cid cfg)], Return false).
Proof.
  induction 1 as [|[cid cfg] items Hh _ IH]; intros Hex; [by apply Exists_nil in Hex|].
  destruct (unknown_transport cfg) eqn:Hu.
  - exists cid, cfg. split; [by left|]. split; [done|].
    simpl in *. unfold unknown_transport, transport_class_of in Hu.
    unfold transport_hashable in Hh. unfold transport_diagnostic.
    destruct (cfg !! "transport") as [[| | |k| | |]|]; try done.
    simpl. destruct (_transports !! k) eqn:Hk; [done|].
    rewrite bool_decide_eq_false_2; [done|]. by intros [? ?].
  - apply Exists_cons in Hex as [Hex|Hex]; [simpl in Hex; congruence|].
    destruct (IH Hex) as (cid' & cfg' & Hin & Hu' & Hv).
    exists cid', cfg'. split; [by right|]. split; [done|].
    simpl. unfold unknown_transport, transport_class_of in Hu.
    destruct (cfg !! "transport") as [[| | |k| | |]|]; try done.
    simpl. destruct (_transports !! k) eqn:Hk; [|done].
    rewrite bool_decide_eq_true_2 by eauto. simpl. by rewrite Hv.
Qed.

Lemma bind_fst {A B} (m : M A) (f : A -> M B) :
  (bind m f).1 = m.1 ++ match m.2 with Return a => (f a).1 | Raise _ => [] end.
Proof.
  destruct m as [t [a|e]]; simpl; [by destruct (f a) | by rewrite app_nil_r].
Qed.

Lemma bind_snd {A B} (m : M A) (f : A -> M B) :
  (bind m f).2 = match m.2 with Return a => (f a).2 | Raise e => Raise e end.
Proof. destruct m as [t [a|e]]; simpl; [by destruct (f a) | done]. Qed.

(** One turn of the rules loop, on a rule that passes the schema and whose
    two strings contain [@]. *)
Lemma validate_rules_cons clients (r : rule) rest acc :
  has_endpoints r = true ->
  validate_rules clients (py_of_rule r :: rest) acc =
    if dropped clients r
    then (drop_warning clients r :: (validate_rules clients rest acc).1,
          (validate_rules clients rest acc).2)
    else validate_rules clients rest (acc ++ [r]).
Proof.
  intros [Hf Ht]%andb_true_iff. cbn [validate_rules].
  rewrite validate_RULE_SCHEMA_py_of_rule.
  rewrite !split_endpoint_channel_client, !bind_ret by done. simpl.
  fold (rule_missed_user clients r). fold (dropped clients r).
  destruct (dropped clients r); [|done].
  by destruct (validate_rules clients rest acc).
Qed.

Lemma validate_rules_app clients (rs : list rule) rest acc :
  Forall (fun r => has_endpoints r = true) rs ->
  validate_rules clients ((py_of_rule <$> rs) ++ rest) acc =
    let k := validate_rules clients rest
               (acc ++ filter (fun r => dropped clients r = false) rs) in
    ((drop_warning clients <$> filter (fun r => dropped clients r = true) rs) ++ k.1, k.2).
Proof.
  intros Hrs. revert acc. induction Hrs as [|r rs Hr _ IH]; intros acc.
  - simpl. rewrite app_nil_r. apply M_eta.
  - rewrite fmap_cons, <- app_comm_cons.
    rewrite validate_rules_cons by done. destruct (dropped clients r) eqn:Hd.
    + rewrite (filter_cons_True (fun r => dropped clients r = true)) by done.
      rewrite (filter_cons_False (fun r => dropped clients r = false)) by congruence.
      rewrite IH. simpl. done.
    + rewrite (filter_cons_False (fun r => dropped clients r = true)) by congruence.
      rewrite (filter_cons_True (fun r => dropped clients r = false)) by done.
      rewrite IH. simpl. by rewrite <- app_assoc.
Qed.

Lemma filter_Forall_iff {A} (P Q : A -> Prop)
    `{!forall x, Decision (P x)} `{!forall x, Decision (Q x)} (l : list A) :
  Forall (fun x => P x <-> Q x) l -> filter P l = filter Q l.
Proof.
  induction 1 as [|x l Hx _ IH]; [done|]. rewrite !filter_cons.
  destruct (decide (P x)), (decide (Q x)); try tauto; by rewrite IH.
Qed.

Lemma dropped_iff_unresolved clients (r : rule) :
  rule_missed_user clients r <> Some "" ->
  dropped clients r = negb (resolved clients r).
Proof.
  unfold dropped, rule_missed_user, missed_user, resolved, truthy.
  destruct (contains clients (client_id_of (rule_from r))); simpl;
    [destruct (contains clients (client_id_of (rule_send_to r))); simpl|];
    try done; intros H; rewrite bool_decide_eq_false_2; try done; congruence.
Qed.

(** The rules loop on rules that have their endpoints and no empty absent
    client id: the resolved rules are kept in order, each other rule costs
    one warning. *)
Lemma validate_rules_resolved (clients : gmap string dict) (rs : list rule) :
  Forall (fun r => has_endpoints r = true) rs ->
  Forall (fun r => rule_missed_user clients r <> Some "") rs ->
  validate_rules clients (py_of_rule <$> rs) [] =
    (drop_warning clients <$> filter (fun r => resolved clients r = false) rs,
     Return (filter (fun r => resolved clients r = true) rs)).
Proof.
  intros Hrs Hmu.
  rewrite <- (app_nil_r (py_of_rule <$> rs)), validate_rules_app by done.
  simpl. rewrite app_nil_r.
  rewrite (filter_Forall_iff (fun r => dropped clients r = true)
                             (fun r => resolved clients r = false)).
  2:{ eapply Forall_impl; [exact Hmu|]. intros r Hr. simpl.
      rewrite dropped_iff_unresolved by done. by destruct (resolved clients r). }
  rewrite (filter_Forall_iff (fun r => dropped clients r = false)
                             (fun r => resolved clients r = true)).
  2:{ eapply Forall_impl; [exact Hmu|]. intros r Hr. simpl.
      rewrite dropped_iff_unresolved by done. by destruct (resolved clients r). }
  done.
Qed.

Lemma validate_clients_map_registered (clients : gmap string dict) :
  map_Forall (fun _ cfg => is_Some (transport_class_of cfg)) clients ->
  validate_clients (map_to_list clients) = ret true.
Proof.
  intros Hc. apply validate_clients_registered.
  apply map_Forall_to_list in Hc. eapply Forall_impl; [exact Hc|]. by intros [??].
Qed.

(** C4 (amended): when every client names a registered transport, every
    rule string contains an [@], and no rule has the empty string as an
    absent client id, [validate] returns the clients and exactly the rules
    whose two client ids are both keys of the clients mapping, in their
    original order; every other rule is dropped with one warning, and
    validation still succeeds. *)
Theorem validate_keeps_resolved_rules (clients : gmap string dict) (rs : list rule) :
  map_Forall (fun _ cfg => is_Some (transport_class_of cfg)) clients ->
  Forall (fun r => has_endpoints r = true) rs ->
  Forall (fun r => rule_missed_user clients r <> Some "") rs ->
  validate clients (py_of_rule <$> rs) =
    (drop_warning clients <$> filter (fun r => resolved clients r = false) rs,
     Return (Some (clients, filter (fun r => resolved clients r = true) rs))).
Proof.
  intros Hc Hrs Hmu. unfold validate.
  rewrite validate_clients_map_registered, bind_ret by done.
  rewrite validate_rules_resolved by done.
  rewrite bind_run. simpl. by rewrite app_nil_r.
Qed.

Lemma validate_keeps_resolved_rules_witness :
  let rs := [plain_rule "#a@IRC" "#b@Gitter"; plain_rule "#a@IRC" "#c@Slack"] in
  map_Forall (fun _ cfg => is_Some (transport_class_of cfg)) example_clients /\
  Forall (fun r => has_endpoints r = true) rs /\
  Forall (fun r => rule_missed_user example_clients r <> Some "") rs /\
  validate example_clients (py_of_rule <$> rs) =
    ([Log WARNING (UserNotInitialized "Slack")],
     Return (Some (example_clients, [plain_rule "#a@IRC" "#b@Gitter"]))).
Proof.
  intros rs.
  assert (H1 : map_Forall (fun _ cfg => is_Some (transport_class_of cfg)) example_clients).
  { apply (bool_decide_unpack _). by vm_compute. }
  assert (H2 : Forall (fun r => has_endpoints r = true) rs) by (repeat constructor).
  assert (H3 : Forall (fun r => rule_missed_user example_clients r <> Some "") rs).
  { repeat constructor; vm_compute; discriminate. }
  split; [exact H1 | split; [exact H2 | split; [exact H3 |]]].
  exact (validate_keeps_resolved_rules example_clients rs H1 H2 H3).
Defined.

(** C4 as the spec states it fails: [validate] does not return a list of
    rules for every clients mapping and every list of rules that pass the
    schema. A client without a registered transport makes it return
    [None], and a rule string without [@] makes it raise. *)
Lemma validate_not_always_a_subsequence :
  validate {["X" := ∅]} [py_of_rule (plain_rule "#a@X" "#b@X")]
    = ([Log ERROR (TransportMissed "X")], Return None) /\
  validate_RULE_SCHEMA (py_of_rule (plain_rule "#a" "#b@IRC")) = Some (plain_rule "#a" "#b@IRC") /\
  validate example_clients [py_of_rule (plain_rule "#a" "#b@IRC")]
    = ([], Raise (ValueError "not enough values to unpack (expected 2)")).
Proof. repeat split; reflexivity. Qed.

(** The truthiness test on [missed_user]: a rule whose absent client id is
    the empty string is kept, not dropped. *)
Lemma validate_keeps_empty_client_id :
  resolved example_clients (plain_rule "#a@IRC" "#b@") = false /\
  validate example_clients [py_of_rule (plain_rule "#a@IRC" "#b@")]
    = ([], Return (Some (example_clients, [plain_rule "#a@IRC" "#b@"]))).
Proof. split; reflexivity. Qed.

(** ** Malformed rules *)

Lemma no_connect_bind {A B} (m : M A) (f : A -> M B) :
  no_connect m.1 -> (forall a, no_connect (f a).1) -> no_connect (bind m f).1.
Proof.
  intros Hm Hf. rewrite bind_fst. apply Forall_app. split; [done|].
  destruct (m.2); [apply Hf | constructor].
Qed.

Lemma no_connect_emit (e : event) : is_connect e = false -> no_connect (emit e).1.
Proof. intros H. by repeat constructor. Qed.

Lemma no_connect_nil {A} (r : result A) : no_connect (([], r) : M A).1.
Proof. constructor. Qed.

Lemma validate_clients_no_connect (items : list (string * dict)) :
  no_connect (validate_clients items).1.
Proof.
  induction items as [|[cid cfg] items IH]; [constructor|].
  cbn [validate_clients]. destruct (cfg !! "transport") as [tr|].
  2:{ apply no_connect_bind; [by apply no_connect_emit|]. intros _. constructor. }
  apply no_connect_bind; [destruct tr; constructor|]. intros known.
  destruct known; cbn [negb].
  2:{ repeat constructor. }
  apply no_connect_bind; [destruct tr; try constructor; simpl;
                          destruct (_transports !! s); constructor|].
  intros t. apply no_connect_bind; [constructor|]. intros [|]; [done | constructor].
Qed.

Lemma validate_rules_no_connect clients (rules : list pyval) acc :
  no_connect (validate_rules clients rules acc).1.
Proof.
  revert acc. induction rules as [|instance rules IH]; intros acc; [constructor|].
  cbn [validate_rules]. destruct (validate_RULE_SCHEMA instance) as [r|].
  2:{ repeat constructor. }
  assert (Hsplit : forall s, no_connect (split_endpoint s).1).
  { intros s. unfold split_endpoint, unpack2.
    destruct (str_split1 "@" s) as [|? [|? [|? ?]]]; constructor. }
  apply no_connect_bind; [apply Hsplit|]. intros f.
  apply no_connect_bind; [apply Hsplit|]. intros t. cbv zeta.
  destruct (truthy _); [|apply IH].
  apply no_connect_bind; [by apply no_connect_emit | intros _; apply IH].
Qed.

Lemma validate_no_connect clients (rules : list pyval) :
  no_connect (validate clients rules).1.
Proof.
  unfold validate. apply no_connect_bind; [apply validate_clients_no_connect|].
  intros [|]; [|constructor].
  apply no_connect_bind; [apply validate_rules_no_connect|]. intros ?. constructor.
Qed.

(** The rules loop cannot get past a malformed rule. *)
Lemma validate_rules_malformed clients (rules : list pyval) acc :
  Exists (fun instance => malformed instance = true) rules ->
  exists e, (validate_rules clients rules acc).2 = Raise e.
Proof.
  revert acc. induction rules as [|instance rules IH]; intros acc Hex;
    [by apply Exists_nil in Hex|].
  cbn [validate_rules]. unfold malformed in Hex at 1.
  apply Exists_cons in Hex.
  destruct (validate_RULE_SCHEMA instance) as [r|]; [|by eexists].
  unfold has_endpoints in Hex.
  destruct (has_char "@" (rule_from r)) eqn:Hf.
  2:{ rewrite split_endpoint_absent by done. by eexists. }
  rewrite split_endpoint_channel_client, bind_ret by done.
  destruct (has_char "@" (rule_send_to r)) eqn:Ht.
  2:{ rewrite split_endpoint_absent by done. by eexists. }
  rewrite split_endpoint_channel_client, bind_ret by done.
  destruct Hex as [Hex|Hex]; [done|]. cbv zeta.
  destruct (truthy _); [|by apply IH].
  rewrite bind_snd. simpl. by apply IH.
Qed.

Lemma validate_malformed clients (rules : list pyval) :
  Exists (fun instance => malformed instance = true) rules ->
  (exists e, (validate clients rules).2 = Raise e)
  \/ (validate clients rules).2 = Return None.
Proof.
  intros Hex. unfold validate. rewrite bind_snd.
  destruct (validate_clients (map_to_list clients)).2 as [[|]|e];
    [|by right | by left; eexists].
  left. rewrite bind_snd.
  destruct (validate_rules_malformed clients rules [] Hex) as [e ->]. by eexists.
Qed.

(** With a client that omits [transport] or names an unregistered one,
    the clients loop never lets [validate] go on to the rules. *)
Lemma validate_clients_unknown_stops (items : list (string * dict)) :
  Exists (fun item => unknown_transport item.2 = true) items ->
  (validate_clients items).2 <> Return true.
Proof.
  induction items as [|[cid cfg] items IH]; intros Hex; [by apply Exists_nil in Hex|].
  apply Exists_cons in Hex. cbn [validate_clients].
  unfold unknown_transport, transport_class_of in Hex. simpl in Hex.
  destruct (cfg !! "transport") as [tr|]; [|done].
  destruct tr as [| | |k| | |]; try done. simpl.
  destruct (_transports !! k) as [t|] eqn:Hk.
  - rewrite bool_decide_eq_true_2 by eauto. simpl.
    destruct Hex as [Hex|Hex]; [done|]. specialize (IH Hex).
    by destruct (validate_clients items) as [? [[|]|?]].
  - rewrite bool_decide_eq_false_2; [done|]. by intros [? ?].
Qed.

(** C6: when some client omits [transport] or names a transport that is
    not in the registry, startup aborts: [run] ends in an exception and no
    transport is connected. When moreover every [transport] value is
    hashable, as the strings of a configuration document are (an
    unhashable one makes the registry lookup itself raise), [validate]
    logs the error for such a client and returns [None], and [run] exits
    with status 1. *)
Theorem unknown_transport_aborts (clients : gmap string dict) (rules : list pyval) :
  (exists cid cfg, clients !! cid = Some cfg /\ unknown_transport cfg = true) ->
  (exists e, (run clients rules).2 = Raise e) /\
  no_connect (run clients rules).1 /\
  (map_Forall (fun _ cfg => transport_hashable cfg = true) clients ->
   exists cid cfg, clients !! cid = Some cfg /\ unknown_transport cfg = true /\
     validate clients rules = ([Log ERROR (transport_diagnostic cid cfg)], Return None) /\
     run clients rules = ([Log ERROR (transport_diagnostic cid cfg)], Raise (SystemExit 1))).
Proof.
  intros (cid0 & cfg0 & Hin0 & Hu0).
  assert (Hex : Exists (fun item => unknown_transport item.2 = true) (map_to_list clients)).
  { apply Exists_exists. exists (cid0, cfg0). split; [|done]. by apply elem_of_map_to_list. }
  pose proof (validate_clients_unknown_stops _ Hex) as Hstop.
  pose proof (validate_no_connect clients rules) as Hnc.
  assert (Hval : (exists e, (validate clients rules).2 = Raise e)
                 \/ (validate clients rules).2 = Return None).
  { unfold validate. rewrite bind_snd.
    destruct (validate_clients (map_to_list clients)).2 as [[|]|e];
      [done | by right | by left; eexists]. }
  split; [|split].
  - unfold run. rewrite bind_snd. destruct Hval as [[e ->]| ->]; by eexists.
  - unfold run. rewrite bind_fst. apply Forall_app. split; [done|].
    destruct Hval as [[e ->]| ->]; constructor.
  - intros Hh.
    destruct (validate_clients_unknown (map_to_list clients)) as (cid & cfg & Hin & Hu & Hv);
      [|done|].
    { apply map_Forall_to_list in Hh. eapply Forall_impl; [exact Hh|]. by intros [??]. }
    exists cid, cfg. apply elem_of_map_to_list in Hin.
    assert (Hvalidate : validate clients rules
                        = ([Log ERROR (transport_diagnostic cid cfg)], Return None)).
    { unfold validate. by rewrite Hv. }
    repeat split; try done. unfold run. by rewrite Hvalidate.
Qed.

Lemma unknown_transport_aborts_witness :
  let clients : gmap string dict :=
    <["Chat" := <["transport" := PStr "gitter"]> ∅]> example_clients in
  (exists cid cfg, clients !! cid = Some cfg /\ unknown_transport cfg = true) /\
  (exists e, (run clients []).2 = Raise e) /\
  no_connect (run clients []).1 /\
  exists cid cfg, clients !! cid = Some cfg /\ unknown_transport cfg = true /\
    validate clients [] = ([Log ERROR (transport_diagnostic cid cfg)], Return None) /\
    run clients [] = ([Log ERROR (transport_diagnostic cid cfg)], Raise (SystemExit 1)).
Proof.
  intros clients.
  assert (H1 : exists cid cfg, clients !! cid = Some cfg /\ unknown_transport cfg = true).
  { exists "Chat", (<["transport" := PStr "gitter"]> ∅). split; reflexivity. }
  destruct (unknown_transport_aborts clients [] H1) as (Ha & Hb & Hc).
  split; [exact H1 | split; [exact Ha | split; [exact Hb |]]].
  apply Hc. apply (bool_decide_unpack _). by vm_compute.
Defined.

(** C9 (amended): whenever the rules contain a structurally malformed rule
    (one that fails the schema, or one whose [from] or [send_to] has no
    [@]), [run] ends in an exception and no transport is connected. When
    the clients pass validation and the first malformed rule is one that
    fails the schema, the line "The following rule is invalid." is printed
    and the exception is the [ValidationError] for that very rule. *)
Theorem malformed_rule_aborts (clients : gmap string dict) (rules : list pyval) :
  Exists (fun instance => malformed instance = true) rules ->
  (exists e, (run clients rules).2 = Raise e) /\
  no_connect (run clients rules).1 /\
  forall good bad rest,
    rules = (py_of_rule <$> good) ++ bad :: rest ->
    map_Forall (fun _ cfg => is_Some (transport_class_of cfg)) clients ->
    Forall (fun r => has_endpoints r = true) good ->
    validate_RULE_SCHEMA bad = None ->
    run clients rules =
      ((drop_warning clients <$> filter (fun r => dropped clients r = true) good)
         ++ [Stdout "The following rule is invalid."],
       Raise (ValidationError bad)).
Proof.
  intros Hex. pose proof (validate_malformed clients rules Hex) as Hval.
  pose proof (validate_no_connect clients rules) as Hnc.
  split; [|split].
  - unfold run. rewrite bind_snd. destruct Hval as [[e ->]| ->]; by eexists.
  - unfold run. rewrite bind_fst. apply Forall_app. split; [done|].
    destruct Hval as [[e ->]| ->]; constructor.
  - intros good bad rest -> Hc Hgood Hbad. unfold run, validate.
    rewrite validate_clients_registered.
    2:{ apply map_Forall_to_list in Hc. eapply Forall_impl; [exact Hc|]. by intros [??]. }
    rewrite bind_ret, validate_rules_app by done.
    cbn [validate_rules]. rewrite Hbad. reflexivity.
Qed.

Lemma malformed_rule_aborts_witness :
  let rules := [py_of_rule (plain_rule "#a@IRC" "#c@Slack"); PStr "#a@IRC -> #b@Gitter"] in
  Exists (fun instance => malformed instance = true) rules /\
  (exists e, (run example_clients rules).2 = Raise e) /\
  no_connect (run example_clients rules).1 /\
  run example_clients rules =
    ([Log WARNING (UserNotInitialized "Slack"); Stdout "The following rule is invalid."],
     Raise (ValidationError (PStr "#a@IRC -> #b@Gitter"))).
Proof.
  intros rules.
  assert (Hex : Exists (fun instance => malformed instance = true) rules).
  { right. left. reflexivity. }
  destruct (malformed_rule_aborts example_clients rules Hex) as (Ha & Hb & Hc).
  split; [exact Hex | split; [exact Ha | split; [exact Hb |]]].
  apply (Hc [plain_rule "#a@IRC" "#c@Slack"] (PStr "#a@IRC -> #b@Gitter") []).
  - reflexivity.
  - apply (bool_decide_unpack _). by vm_compute.
  - repeat constructor.
  - reflexivity.
Defined.

(** C9 as the spec states it fails: the abort does not always come with a
    diagnostic that names the offending rule. With a client that has no
    transport the only output names the client, and for a rule string
    without [@] the exception is a [ValueError] that names nothing. *)
Lemma malformed_rule_not_always_named :
  malformed (PStr "junk") = true /\
  run {["X" := ∅]} [PStr "junk"]
    = ([Log ERROR (TransportMissed "X")], Raise (SystemExit 1)) /\
  ~ diagnoses_rule (PStr "junk") (run {["X" := ∅]} [PStr "junk"]) /\
  malformed (py_of_rule (plain_rule "#a" "#b@IRC")) = true /\
  run example_clients [py_of_rule (plain_rule "#a" "#b@IRC")]
    = ([], Raise (ValueError "not enough values to unpack (expected 2)")) /\
  ~ diagnoses_rule (py_of_rule (plain_rule "#a" "#b@IRC"))
      (run example_clients [py_of_rule (plain_rule "#a" "#b@IRC")]).
Proof. repeat split; try reflexivity; unfold diagnoses_rule; by vm_compute. Qed.

(** ** [Forwarder.__init__] *)

Lemma init_clients_step (client : string) (keys : list string)
    (clients : gmap string dict) (cfg : dict) :
  clients !! client = Some cfg -> constructible cfg = true ->
  init_clients (client :: keys) clients
  = init_clients keys (<[client := with_client client cfg]> clients).
Proof.
  intros Hcfg Hc. cbn [init_clients]. unfold clients_getitem. rewrite Hcfg, bind_ret.
  unfold with_client, instance_for. unfold constructible in Hc.
  unfold transport_class_of in *. unfold getitem at 1.
  destruct (cfg !! "transport") as [[| | |k| | |]|]; try done.
  rewrite bind_ret. simpl. destruct (_transports !! k) as [t|]; [|done].
  rewrite bind_ret. destruct t; cbn [construct]; rewrite ?bind_ret; try done.
  unfold getitem, contains in *. destruct (cfg !! "token"); [|done].
  by rewrite !bind_ret.
Qed.

Lemma init_clients_spec (keys : list string) (clients : gmap string dict) :
  NoDup keys ->
  (forall cid, cid ∈ keys ->
     exists cfg, clients !! cid = Some cfg /\ constructible cfg = true) ->
  exists clients', init_clients keys clients = ret clients' /\
    forall cid, clients' !! cid =
      if decide (cid ∈ keys) then with_client cid <$> clients !! cid
      else clients !! cid.
Proof.
  intros Hnd. revert clients.
  induction Hnd as [|k keys Hk Hnd IH]; intros clients Hkeys.
  - exists clients. split; [done|]. intros cid. by rewrite decide_False by apply not_elem_of_nil.
  - destruct (Hkeys k) as (cfg & Hcfg & Hc); [by left|].
    rewrite (init_clients_step k keys clients cfg) by done.
    destruct (IH (<[k := with_client k cfg]> clients)) as (clients' & Hrun & Hlook).
    { intros cid Hin. destruct (Hkeys cid) as (cfg' & Hcfg' & Hc'); [by right|].
      exists cfg'. split; [|done]. rewrite lookup_insert_ne; [done|].
      intros ->. contradiction. }
    exists clients'. split; [done|]. intros cid. rewrite Hlook.
    destruct (decide (cid = k)) as [->|Hne].
    + rewrite decide_False by done. rewrite decide_True by (by left).
      by rewrite lookup_insert_eq, Hcfg.
    + rewrite lookup_insert_ne by done.
      destruct (decide (cid ∈ keys)) as [Hin|Hnin].
      * by rewrite decide_True by (by right).
      * rewrite decide_False; [done|]. intros [?|?]%elem_of_cons; contradiction.
Qed.

(** The loop of [__init__] over all the keys of the mapping. *)
Lemma init_clients_all (clients : gmap string dict) :
  map_Forall (fun _ cfg => constructible cfg = true) clients ->
  exists clients',
    init_clients (map_to_list clients).*1 clients = ret clients' /\
    forall cid, clients' !! cid = with_client cid <$> clients !! cid.
Proof.
  intros Hc.
  destruct (init_clients_spec (map_to_list clients).*1 clients) as (clients' & Hrun & Hlook).
  { apply NoDup_fst_map_to_list. }
  { intros cid [[cid' cfg] [-> Hin]]%list_elem_of_fmap. simpl.
    apply elem_of_map_to_list in Hin. exists cfg. split; [done|].
    by apply (Hc cid' cfg). }
  exists clients'. split; [done|].
  intros cid. rewrite Hlook. destruct (decide _) as [|Hnin]; [done|].
  destruct (clients !! cid) as [cfg|] eqn:Hcfg; [|done].
  exfalso. apply Hnin. apply list_elem_of_fmap. exists (cid, cfg).
  split; [done|]. by apply elem_of_map_to_list.
Qed.

(** C10: constructing a [Forwarder] writes into the clients mapping it was
    given. For every configured client id the new mapping holds the same
    configuration with the key [client] set to the transport instance just
    built for that client; every other key of every configuration is
    unchanged, no client is added or removed, and the only other effect is
    the subscription to the [messages] signal. *)
Theorem Forwarder_init_stores_clients (clients : gmap string dict) (rules : list rule) :
  map_Forall (fun _ cfg => constructible cfg = true) clients ->
  exists self,
    Forwarder_init clients rules = ([SignalConnect "messages"], Return self) /\
    _rules self = rules /\
    (forall cid, _clients self !! cid = with_client cid <$> clients !! cid) /\
    forall cid cfg, clients !! cid = Some cfg ->
      exists cfg', _clients self !! cid = Some cfg' /\
        cfg' !! "client" = Some (instance_for cid cfg) /\
        forall key, key <> "client" -> cfg' !! key = cfg !! key.
Proof.
  intros Hc. destruct (init_clients_all clients Hc) as (clients' & Hrun & Hall).
  exists {| _rules := rules; _clients := clients' |}.
  split; [|split; [done|split; [exact Hall|]]].
  - unfold Forwarder_init. by rewrite Hrun.
  - intros cid cfg Hcfg. exists (with_client cid cfg). simpl. rewrite Hall, Hcfg.
    split; [done|]. unfold with_client. split; [by rewrite lookup_insert_eq|].
    intros key Hkey. by rewrite lookup_insert_ne.
Qed.

Lemma Forwarder_init_stores_clients_witness :
  map_Forall (fun _ cfg => constructible cfg = true) example_clients /\
  exists self,
    Forwarder_init example_clients [] = ([SignalConnect "messages"], Return self) /\
    _rules self = [] /\
    (forall cid, _clients self !! cid = with_client cid <$> example_clients !! cid) /\
    forall cid cfg, example_clients !! cid = Some cfg ->
      exists cfg', _clients self !! cid = Some cfg' /\
        cfg' !! "client" = Some (instance_for cid cfg) /\
        forall key, key <> "client" -> cfg' !! key = cfg !! key.
Proof.
  assert (H : map_Forall (fun _ cfg => constructible cfg = true) example_clients).
  { apply (bool_decide_unpack _). by vm_compute. }
  split; [exact H | exact (Forwarder_init_stores_clients example_clients [] H)].
Defined.

(** ** [Forwarder.on_message] *)

Lemma sends_app (t1 t2 : list event) : sends (t1 ++ t2) = sends t1 ++ sends t2.
Proof. apply omap_app. Qed.

Lemma MSG_TEMPLATE_renders (cls : transport_class) :
  template_renders (PStr (MSG_TEMPLATE cls)).
Proof.
  intros author from_client from_target target msg.
  destruct cls; eexists; unfold py_format.
  - apply (fmt_run_template _ _ _ _ _
             [Lit "[From "; Field "from_client"; Lit "] "; Field "author";
              Lit " : "; Field "msg"]); [by repeat constructor|].
    intros key. unfold placeholders. rewrite !elem_of_cons, !elem_of_nil.
    intros [?|[[= ->]|[?|[[= ->]|[?|[[= ->]|[]]]]]]]; try discriminate; auto 10.
  - apply (fmt_run_template _ _ _ _ _
             [Lit "*[From "; Field "from_client"; Lit "]* **"; Field "author";
              Lit "** : "; Field "msg"]); [by repeat constructor|].
    intros key. unfold placeholders. rewrite !elem_of_cons, !elem_of_nil.
    intros [?|[[= ->]|[?|[[= ->]|[?|[[= ->]|[]]]]]]]; try discriminate; auto 10.
  - apply (fmt_run_template _ _ _ _ _
             [Lit "_[From "; Field "from_client"; Lit "]_ *"; Field "author";
              Lit "* : "; Field "msg"]); [by repeat constructor|].
    intros key. unfold placeholders. rewrite !elem_of_cons, !elem_of_nil.
    intros [?|[[= ->]|[?|[[= ->]|[?|[[= ->]|[]]]]]]]; try discriminate; auto 10.
Qed.

Section RouterProperties.

Variable re_match : string -> string -> re_result.

(** One rule against one message: the turn of the loop ends normally,
    and it issues one send, to the rule's destination, exactly when the
    four checks pass. *)
Lemma on_message_rule_run (self : Forwarder) (sender user target text : string)
    (r : rule) :
  has_endpoints r = true ->
  destination_ready self r ->
  pattern_compiles re_match text r ->
  exists t,
    on_message_rule re_match self sender user target text r = (t, Return tt) /\
    (sends t).*1 =
      if forwards re_match r sender user target text then [destination r] else [].
Proof.
  intros [Hf Ht]%andb_true_iff (cfg & cls & template & Hcfg & Hclient & Hrenders) Hre.
  unfold on_message_rule.
  rewrite split_endpoint_channel_client, bind_ret by done. cbv zeta. cbn [fst snd].
  unfold forwards, endpoint_and_nick_checks, pattern_check.
  destruct (bool_decide (client_id_of (rule_from r) = sender)); cbn [negb orb andb];
    [|by exists []].
  destruct (bool_decide (channel_of (rule_from r) = target)); cbn [negb orb andb];
    [|by exists []].
  assert (Hgo :
    exists t,
      (if bool_decide (user ∈ default [] (rule_ignore_nicknames r)) then ret tt
       else
         filtered <- match rule_regexp r with
                     | Some regexp => not_re_match re_match text regexp
                     | None => ret false
                     end ;;
         if filtered : bool then ret tt
         else
           t <- split_endpoint (rule_send_to r) ;;
           cfg <- clients_getitem (_clients self) t.2 ;;
           client <- getitem cfg "client" ;;
           say client user (client_id_of (rule_from r)) target t.1 text)
      = (t, Return tt) /\
      (sends t).*1 =
        if match rule_ignore_nicknames r with
           | Some ignored => negb (bool_decide (user ∈ ignored))
           | None => true
           end
           && match rule_regexp r with
              | Some regexp => match re_match text regexp with
                               | Matches => true
                               | _ => false
                               end
              | None => true
              end
        then [destination r] else []).
  { assert (Hsend :
      exists t,
        (t <- split_endpoint (rule_send_to r) ;;
         cfg <- clients_getitem (_clients self) t.2 ;;
         client <- getitem cfg "client" ;;
         say client user (client_id_of (rule_from r)) target t.1 text)
        = (t, Return tt) /\ (sends t).*1 = [destination r]).
    { rewrite split_endpoint_channel_client, bind_ret by done. cbn [fst snd].
      unfold clients_getitem. rewrite Hcfg, bind_ret.
      unfold getitem. rewrite Hclient, bind_ret. unfold say.
      destruct (Hrenders user (client_id_of (rule_from r)) target
                  (channel_of (rule_send_to r)) text) as [rendered ->].
      rewrite bind_ret. eexists. split; reflexivity. }
    assert (Hpattern :
      exists t,
        (filtered <- match rule_regexp r with
                     | Some regexp => not_re_match re_match text regexp
                     | None => ret false
                     end ;;
         if filtered : bool then ret tt
         else
           t <- split_endpoint (rule_send_to r) ;;
           cfg <- clients_getitem (_clients self) t.2 ;;
           client <- getitem cfg "client" ;;
           say client user (client_id_of (rule_from r)) target t.1 text)
        = (t, Return tt) /\
        (sends t).*1 =
          if match rule_regexp r with
             | Some regexp => match re_match text regexp with
                              | Matches => true
                              | _ => false
                              end
             | None => true
             end
          then [destination r] else []).
    { unfold pattern_compiles in Hre.
      destruct (rule_regexp r) as [regexp|]; [|by rewrite bind_ret].
      unfold not_re_match. specialize (Hre regexp eq_refl).
      destruct (re_match text regexp); [by rewrite bind_ret | by exists [] | done]. }
    destruct (rule_ignore_nicknames r) as [ignored|].
    - change (default [] (Some ignored)) with ignored.
      destruct (bool_decide (user ∈ ignored)); cbn [negb andb]; [by exists [] | done].
    - change (default [] (@None (list string))) with (@nil string).
      rewrite bool_decide_eq_false_2 by apply not_elem_of_nil. done. }
  destruct (rule_nicknames r) as [nicknames|]; [|exact Hgo].
  destruct (bool_decide (user ∈ nicknames)); cbn [negb orb andb]; [exact Hgo | by exists []].
Qed.

Lemma for_each_rule_run (self : Forwarder) (sender user target text : string)
    (rules : list rule) :
  Forall (fun r => has_endpoints r = true) rules ->
  Forall (destination_ready self) rules ->
  Forall (pattern_compiles re_match text) rules ->
  exists t,
    for_each rules (on_message_rule re_match self sender user target text)
    = (t, Return tt) /\
    (sends t).*1 =
      destination <$>
        filter (fun r => forwards re_match r sender user target text = true) rules.
Proof.
  induction rules as [|r rules IH]; intros H1 H2 H3; [by exists []|].
  apply Forall_cons in H1 as [Hr1 H1], H2 as [Hr2 H2], H3 as [Hr3 H3].
  destruct (on_message_rule_run self sender user target text r Hr1 Hr2 Hr3)
    as (t1 & Hrun1 & Hsends1).
  destruct (IH H1 H2 H3) as (t2 & Hrun2 & Hsends2).
  exists (t1 ++ t2). cbn [for_each]. rewrite Hrun1, bind_run, Hrun2.
  split; [done|]. rewrite sends_app, fmap_app, Hsends1, Hsends2.
  destruct (forwards re_match r sender user target text) eqn:Hfw.
  - by rewrite filter_cons_True by done.
  - by rewrite filter_cons_False by congruence.
Qed.

(** C1: when every rule of the rule set is compiled (both its strings
    contain [@] and its destination is a constructed client whose
    template renders) and no pattern check raises, [on_message] ends
    normally and issues exactly one send per rule that passes the
    checks, to that rule's [send_to], in rule order, each rule decided on
    its own. For a rule without [regexp] the checks pass if and only if
    the rule's client id equals the sender, its channel equals the
    target, the author is in the allow list when there is one, and is not
    in the deny list when there is one. *)
Theorem on_message_forwards_matching_rules (self : Forwarder)
    (sender user target text : string) :
  Forall (fun r => has_endpoints r = true) (_rules self) ->
  Forall (destination_ready self) (_rules self) ->
  Forall (pattern_compiles re_match text) (_rules self) ->
  exists t,
    on_message re_match self sender user target text = (t, Return tt) /\
    (sends t).*1 =
      destination <$>
        filter (fun r => forwards re_match r sender user target text = true)
               (_rules self) /\
    forall r, rule_regexp r = None ->
      (forwards re_match r sender user target text = true <->
         client_id_of (rule_from r) = sender /\
         channel_of (rule_from r) = target /\
         (forall nicknames, rule_nicknames r = Some nicknames -> user ∈ nicknames) /\
         (forall ignored, rule_ignore_nicknames r = Some ignored -> user ∉ ignored)).
Proof.
  intros H1 H2 H3.
  destruct (for_each_rule_run self sender user target text (_rules self) H1 H2 H3)
    as (t & Hrun & Hsends).
  exists (Log INFO (Received sender target user text) :: t).
  split; [|split].
  - unfold on_message, logger_info. by rewrite bind_emit, Hrun.
  - exact Hsends.
  - intros r Hnone. unfold forwards, endpoint_and_nick_checks, pattern_check.
    rewrite Hnone, andb_true_r, !andb_true_iff, !bool_decide_eq_true.
    destruct (rule_nicknames r) as [nicknames|],
             (rule_ignore_nicknames r) as [ignored|];
      rewrite ?negb_true_iff, ?bool_decide_eq_true, ?bool_decide_eq_false;
      naive_solver.
Qed.

End RouterProperties.

Lemma example_registry_ready (cid : string) (cfg : dict) (cls : transport_class) :
  example_clients !! cid = Some cfg ->
  instance_for cid cfg = PClient cls cid (PStr (MSG_TEMPLATE cls)) ->
  exists cfg' cls' template,
    example_registry !! cid = Some cfg' /\
    cfg' !! "client" = Some (PClient cls' cid template) /\
    template_renders template.
Proof.
  intros Hcfg Hinst. exists (with_client cid cfg), cls, (PStr (MSG_TEMPLATE cls)).
  split; [|split; [|apply MSG_TEMPLATE_renders]].
  - unfold example_registry. by rewrite map_lookup_imap, Hcfg.
  - unfold with_client. by rewrite lookup_insert_eq, Hinst.
Qed.

Lemma example_forwarder_ready (self : Forwarder) :
  _clients self = example_registry ->
  Forall (fun r => client_id_of (rule_send_to r) ∈ ["IRC"; "Gitter"; "Telegram"]) (_rules self) ->
  Forall (destination_ready self) (_rules self).
Proof.
  intros Hreg Hall. eapply Forall_impl; [exact Hall|]. intros r. simpl.
  unfold destination_ready. rewrite Hreg, !elem_of_cons, elem_of_nil.
  intros [->|[->|[->|[]]]].
  - by apply (example_registry_ready "IRC" example_irc_cfg IRCClient).
  - by apply (example_registry_ready "Gitter" example_gitter_cfg GitterClient).
  - by apply (example_registry_ready "Telegram" example_telegram_cfg TelegramClient).
Qed.

(** The example forwarders are what startup builds from their rules. *)
Lemma example_forwarders_compiled :
  (resp <- validate example_clients (py_of_rule <$> example_rules) ;;
   match resp with
   | Some (clients, rules) => Forwarder_init clients rules
   | None => raise (SystemExit 1)
   end) = ([SignalConnect "messages"], Return example_forwarder) /\
  (resp <- validate example_clients [py_of_rule regexp_rule] ;;
   match resp with
   | Some (clients, rules) => Forwarder_init clients rules
   | None => raise (SystemExit 1)
   end) = ([SignalConnect "messages"], Return regexp_forwarder).
Proof. split; by vm_compute. Qed.

Lemma on_message_forwards_matching_rules_witness :
  Forall (fun r => has_endpoints r = true) (_rules example_forwarder) /\
  Forall (destination_ready example_forwarder) (_rules example_forwarder) /\
  Forall (pattern_compiles stand_in_re_match "hi") (_rules example_forwarder) /\
  exists t,
    on_message stand_in_re_match example_forwarder "IRC" "alice" "#a" "hi" = (t, Return tt) /\
    (sends t).*1 = [("Gitter", "#b"); ("Telegram", "#c")].
Proof.
  assert (H1 : Forall (fun r => has_endpoints r = true) (_rules example_forwarder))
    by (repeat constructor).
  assert (H2 : Forall (destination_ready example_forwarder) (_rules example_forwarder)).
  { apply example_forwarder_ready; [reflexivity|].
    repeat constructor; apply (bool_decide_unpack _); by vm_compute. }
  assert (H3 : Forall (pattern_compiles stand_in_re_match "hi") (_rules example_forwarder)).
  { repeat constructor; intros regexp; discriminate. }
  split; [exact H1 | split; [exact H2 | split; [exact H3 |]]].
  destruct (on_message_forwards_matching_rules stand_in_re_match example_forwarder
              "IRC" "alice" "#a" "hi" H1 H2 H3) as (t & Hrun & Hsends & _).
  exists t. split; [exact Hrun | exact Hsends].
Defined.

(** The pattern check is [re.match(text, regexp)]: what decides is whether
    the message text, read as a pattern, matches the rule's [regexp]. *)
Lemma pattern_check_text_is_pattern re_match (r : rule) (regexp text : string) :
  rule_regexp r = Some regexp ->
  (pattern_check re_match r text = true <-> re_match text regexp = Matches).
Proof.
  intros H. unfold pattern_check. rewrite H.
  destruct (re_match text regexp); naive_solver.
Qed.

(** C2, at the failing input: the rule's pattern "ab" matches the text
    "abc" and every other check passes, yet nothing is sent, because the
    code asks whether the text "abc", as a pattern, matches the string
    "ab". *)
Theorem regexp_rule_not_matched_as_pattern re_match :
  re_match "ab" "abc" = Matches ->
  re_match "abc" "ab" = NoMatch ->
  endpoint_and_nick_checks regexp_rule "IRC" "alice" "#a" = true /\
  spec_pattern_check re_match regexp_rule "abc" = true /\
  on_message re_match regexp_forwarder "IRC" "alice" "#a" "abc"
    = ([Log INFO (Received "IRC" "#a" "alice" "abc")], Return tt).
Proof.
  intros Hspec Hcode. split; [reflexivity|]. split.
  - unfold spec_pattern_check. simpl. by rewrite Hspec.
  - unfold on_message, logger_info. rewrite bind_emit.
    cbn [for_each _rules regexp_forwarder]. unfold on_message_rule.
    rewrite split_endpoint_channel_client, bind_ret by reflexivity.
    cbv zeta. cbn [fst snd rule_from rule_nicknames rule_ignore_nicknames rule_regexp
                   regexp_rule].
    change (client_id_of "#a@IRC") with "IRC". change (channel_of "#a@IRC") with "#a".
    rewrite !bool_decide_eq_true_2 by done. cbn [negb orb default].
    rewrite bool_decide_eq_false_2 by apply not_elem_of_nil.
    unfold not_re_match. rewrite Hcode. reflexivity.
Qed.

Lemma regexp_rule_not_matched_as_pattern_witness :
  stand_in_re_match "ab" "abc" = Matches /\
  stand_in_re_match "abc" "ab" = NoMatch /\
  endpoint_and_nick_checks regexp_rule "IRC" "alice" "#a" = true /\
  spec_pattern_check stand_in_re_match regexp_rule "abc" = true /\
  on_message stand_in_re_match regexp_forwarder "IRC" "alice" "#a" "abc"
    = ([Log INFO (Received "IRC" "#a" "alice" "abc")], Return tt).
Proof.
  split; [reflexivity | split; [reflexivity |]].
  apply (regexp_rule_not_matched_as_pattern stand_in_re_match); reflexivity.
Defined.

(** C8, at the failing input: a message whose text is "(" reaches the
    pattern check of a compiled rule, [re.match] is asked to compile the
    text, and the exception leaves [on_message]. *)
Theorem on_message_raises_on_message_text re_match :
  re_match "(" "ab" = BadPattern ->
  on_message re_match regexp_forwarder "IRC" "alice" "#a" "("
    = ([Log INFO (Received "IRC" "#a" "alice" "(")], Raise re_error).
Proof.
  intros Hbad. unfold on_message, logger_info. rewrite bind_emit.
  cbn [for_each _rules regexp_forwarder]. unfold on_message_rule.
  rewrite split_endpoint_channel_client, bind_ret by reflexivity.
  cbv zeta. cbn [fst snd rule_from rule_nicknames rule_ignore_nicknames rule_regexp
                 regexp_rule].
  change (client_id_of "#a@IRC") with "IRC". change (channel_of "#a@IRC") with "#a".
  rewrite !bool_decide_eq_true_2 by done. cbn [negb orb default].
  rewrite bool_decide_eq_false_2 by apply not_elem_of_nil.
  unfold not_re_match. rewrite Hbad. reflexivity.
Qed.

Lemma on_message_raises_on_message_text_witness :
  stand_in_re_match "(" "ab" = BadPattern /\
  on_message stand_in_re_match regexp_forwarder "IRC" "alice" "#a" "("
    = ([Log INFO (Received "IRC" "#a" "alice" "(")], Raise re_error).
Proof.
  split; [reflexivity |].
  apply (on_message_raises_on_message_text stand_in_re_match); reflexivity.
Defined.

(** A second way out of [on_message], whatever [re.match] does: the rule
    that [validate] kept although its client id "" is no client makes the
    lookup of the destination raise [KeyError]. *)
Lemma on_message_raises_KeyError re_match :
  (resp <- validate example_clients [py_of_rule (plain_rule "#a@IRC" "#b@")] ;;
   match resp with
   | Some (clients, rules) =>
       forwarder <- Forwarder_init clients rules ;;
       on_message re_match forwarder "IRC" "alice" "#a" "hi"
   | None => raise (SystemExit 1)
   end)
  = ([SignalConnect "messages"; Log INFO (Received "IRC" "#a" "alice" "hi")],
     Raise (KeyError (PStr ""))).
Proof. by vm_compute. Qed.

(** ** The transports and their own messages *)

Lemma IRCClient_drops_own_messages (client_id : string) (m : irc_message) :
  irc_user_nick m = irc_client_nick m ->
  IRCClient_on_message client_id m = ret tt.
Proof. intros H. unfold IRCClient_on_message. by rewrite bool_decide_eq_true_2. Qed.

Lemma GitterClient_drops_own_messages (client_id self_username room_name : string)
    (message : gitter_message) :
  gitter_author message = self_username ->
  GitterClient_listen_step client_id self_username room_name (Decoded message) = ret tt.
Proof.
  intros H. unfold GitterClient_listen_step. fold (gitter_author message).
  by rewrite bool_decide_eq_true_2.
Qed.

(** The Telegram loop never looks at the identity it is connected as. *)
Lemma TelegramClient_ignores_own_identity (client_id : string)
    (user1 user2 : telegram_user) (st : telegram_state) (update : telegram_update) :
  TelegramClient_update_step client_id user1 st update
  = TelegramClient_update_step client_id user2 st update.
Proof. reflexivity. Qed.

(** C5, at the failing input: the Telegram transport, connected as
    "relaybot", receives an update whose text message is from "relaybot",
    and publishes it on the [messages] signal. *)
Theorem TelegramClient_publishes_own_message :
  let self_user := {| telegram_username := Some "relaybot";
                      telegram_first_name := Some "Relay" |} in
  TelegramClient_update_step "Telegram" self_user
    {| _channels := ∅; offset := None |}
    (text_update 7 "room" 42 self_user "hi")
  = ([Log INFO (NewChannelDetected 42 "room");
      SignalSend "messages" "Telegram" "relaybot" "room" (Some "hi")],
     Return {| _channels := {["room" := 42%Z]}; offset := Some 8%Z |}).
Proof. by vm_compute. Qed.

(** ** Startup establishes what the router relies on *)

(** Validation followed by construction, as [run] chains them, leaves a
    forwarder whose rules are compiled in the sense the router theorem
    assumes: every kept rule has its two endpoints, and its destination is
    a constructed client that renders its class template. *)
Lemma startup_compiles_rules (clients : gmap string dict) (rs : list rule) :
  map_Forall (fun _ cfg => constructible cfg = true /\ cfg !! "msg_template" = None)
             clients ->
  Forall (fun r => has_endpoints r = true) rs ->
  Forall (fun r => rule_missed_user clients r <> Some "") rs ->
  exists self,
    (resp <- validate clients (py_of_rule <$> rs) ;;
     match resp with
     | Some (clients, rules) => Forwarder_init clients rules
     | None => raise (SystemExit 1)
     end)
    = ((drop_warning clients <$> filter (fun r => resolved clients r = false) rs)
         ++ [SignalConnect "messages"], Return self) /\
    _rules self = filter (fun r => resolved clients r = true) rs /\
    Forall (fun r => has_endpoints r = true) (_rules self) /\
    Forall (destination_ready self) (_rules self).
Proof.
  intros Hc Hrs Hmu.
  assert (Hreg : map_Forall (fun _ cfg => is_Some (transport_class_of cfg)) clients).
  { intros cid cfg Hcfg. destruct (Hc cid cfg Hcfg) as [Hcon _].
    unfold constructible in Hcon. by destruct (transport_class_of cfg). }
  assert (Hcon : map_Forall (fun _ cfg => constructible cfg = true) clients).
  { intros cid cfg Hcfg. by destruct (Hc cid cfg Hcfg). }
  destruct (init_clients_all clients Hcon) as (clients' & Hinit & Hall).
  exists {| _rules := filter (fun r => resolved clients r = true) rs;
            _clients := clients' |}.
  split; [|split; [done|split]].
  - unfold validate. rewrite validate_clients_map_registered, bind_ret by done.
    rewrite validate_rules_resolved by done. rewrite !bind_run. simpl.
    unfold Forwarder_init. rewrite Hinit, bind_ret. simpl. by rewrite app_nil_r.
  - apply Forall_forall. intros r [_ Hin]%list_elem_of_filter.
    by apply (proj1 (Forall_forall _ _) Hrs).
  - apply Forall_forall. intros r [Hres _]%list_elem_of_filter.
    apply andb_true_iff in Hres as [_ Hto]. unfold contains in Hto.
    destruct (clients !! client_id_of (rule_send_to r)) as [cfg|] eqn:Hcfg; [|done].
    destruct (Hc _ _ Hcfg) as [Hcons Htmpl].
    unfold constructible in Hcons.
    destruct (transport_class_of cfg) as [t|] eqn:Ht; [|done].
    exists (with_client (client_id_of (rule_send_to r)) cfg), t, (PStr (MSG_TEMPLATE t)).
    split; [by simpl; rewrite Hall, Hcfg|]. split; [|apply MSG_TEMPLATE_renders].
    unfold with_client, instance_for, BaseTransport_init.
    by rewrite lookup_insert_eq, Ht, Htmpl.
Qed.

(** ** The rule schema, both ways *)

(** X1. [RULE_SCHEMA] accepts an instance exactly when the instance is the
    dictionary of a rule: reading an accepted instance as a rule and writing
    the rule back as a dictionary are inverse to each other, so nothing of an
    accepted instance is lost or invented by validation. *)
Theorem RULE_SCHEMA_accepts_exactly_rules (instance : pyval) (r : rule) :
  validate_RULE_SCHEMA instance = Some r <-> instance = py_of_rule r.
Proof.
  split.
  - apply validate_RULE_SCHEMA_inv.
  - intros ->. apply validate_RULE_SCHEMA_py_of_rule.
Qed.

Lemma dom_not_subseteq (d : dict) (k : string) :
  is_Some (d !! k) -> k ∉ RULE_PROPERTIES ->
  bool_decide (dom d ⊆ RULE_PROPERTIES) = false.
Proof.
  intros Hk Hout. apply bool_decide_eq_false. intros Hsub.
  apply Hout, Hsub. by apply elem_of_dom.
Qed.

(** X2. What [RULE_SCHEMA] refuses: an instance that is not a dictionary, a
    dictionary with a key other than the five properties
    ([additionalProperties] is false), and a dictionary whose [from] or
    [send_to] is absent or not a string. *)
Theorem RULE_SCHEMA_rejects (instance : pyval) :
  (forall d, instance <> PDict d)
  \/ (exists d k, instance = PDict d /\ is_Some (d !! k) /\ k ∉ RULE_PROPERTIES)
  \/ (exists d, instance = PDict d /\ (d !! "from" ≫= as_str = None
                                       \/ d !! "send_to" ≫= as_str = None)) ->
  validate_RULE_SCHEMA instance = None.
Proof.
  intros [Hno | [(d & k & -> & Hk & Hout) | (d & -> & Hreq)]].
  - destruct instance; try reflexivity. by destruct (Hno d).
  - unfold validate_RULE_SCHEMA. by rewrite (dom_not_subseteq d k).
  - unfold validate_RULE_SCHEMA.
    destruct (bool_decide (dom d ⊆ RULE_PROPERTIES)); [|reflexivity].
    destruct Hreq as [-> | Hto]; [reflexivity|].
    rewrite Hto. by destruct (d !! "from" ≫= as_str).
Qed.

Lemma RULE_SCHEMA_rejects_witness :
  let d : dict := <["msg_template" := PStr "%(author)s: %(msg)s"]>
                  (<["send_to" := PStr "#b@Gitter"]> (<["from" := PStr "#a@IRC"]> ∅)) in
  (exists d' k, PDict d = PDict d' /\ is_Some (d' !! k) /\ k ∉ RULE_PROPERTIES) /\
  validate_RULE_SCHEMA (PDict d) = None.
Proof.
  assert (Hex : exists d' k,
    PDict (<["msg_template" := PStr "%(author)s: %(msg)s"]>
           (<["send_to" := PStr "#b@Gitter"]> (<["from" := PStr "#a@IRC"]> ∅)))
    = PDict d' /\ is_Some (d' !! k) /\ k ∉ RULE_PROPERTIES).
  { eexists _, "msg_template". split; [reflexivity|]. split.
    - rewrite lookup_insert_eq. by eexists.
    - apply (bool_decide_unpack _). by vm_compute. }
  split; [exact Hex|].
  apply RULE_SCHEMA_rejects. right. left. exact Hex.
Defined.

(** ** [Forwarder.validate], read backwards from its result *)

(** The clients loop logs only on the way to [false]. *)
Lemma validate_clients_true (items : list (string * dict)) (t : list event) :
  validate_clients items = (t, Return true) ->
  t = [] /\ Forall (fun item => is_Some (transport_class_of item.2)) items.
Proof.
  revert t. induction items as [|[cid cfg] items IH]; intros t.
  - intros [= <-]. by split.
  - cbn [validate_clients].
    destruct (cfg !! "transport") as [tr|] eqn:Htr; [|discriminate].
    destruct tr as [| | |k| | |]; try discriminate. simpl.
    destruct (_transports !! k) as [cls|] eqn:Hk.
    + rewrite bool_decide_eq_true_2 by eauto. simpl.
      destruct (validate_clients items) as [t' [[|]|e]] eqn:Hv; simpl; try discriminate.
      intros H. injection H as <-. destruct (IH t' eq_refl) as [-> HF].
      split; [done|]. constructor; [|done].
      unfold transport_class_of. simpl. rewrite Htr, Hk. by eexists.
    + rewrite bool_decide_eq_false_2; [discriminate|]. by intros [? ?].
Qed.

(** When the rules loop returns, every instance was the dictionary of a
    rule with both endpoints, and the loop did with each what [dropped]
    says. *)
Lemma validate_rules_inv clients (rules : list pyval) (acc : list rule)
    (t : list event) (rs : list rule) :
  validate_rules clients rules acc = (t, Return rs) ->
  exists rs0,
    rules = py_of_rule <$> rs0 /\
    Forall (fun r => has_endpoints r = true) rs0 /\
    rs = acc ++ filter (fun r => dropped clients r = false) rs0 /\
    t = drop_warning clients <$> filter (fun r => dropped clients r = true) rs0.
Proof.
  revert acc t rs. induction rules as [|instance rules IH]; intros acc t rs H.
  - injection H as <- <-. exists []. by rewrite app_nil_r.
  - destruct (malformed instance) eqn:Hm.
    { destruct (validate_rules_malformed clients (instance :: rules) acc) as [e He].
      - by left.
      - rewrite H in He. discriminate. }
    unfold malformed in Hm.
    destruct (validate_RULE_SCHEMA instance) as [r|] eqn:Hs; [|done].
    apply negb_false_iff in Hm. apply validate_RULE_SCHEMA_inv in Hs as ->.
    rewrite validate_rules_cons in H by done.
    destruct (dropped clients r) eqn:Hd.
    + destruct (validate_rules clients rules acc) as [t' [rs'|e]] eqn:Hv;
        simpl in H; [|discriminate].
      injection H as <- <-.
      destruct (IH _ _ _ Hv) as (rs0 & -> & HF & -> & ->).
      exists (r :: rs0). split; [done|]. split; [by constructor|].
      rewrite (filter_cons_True (fun r => dropped clients r = true)) by done.
      by rewrite (filter_cons_False (fun r => dropped clients r = false)) by congruence.
    + destruct (IH _ _ _ H) as (rs0 & -> & HF & -> & ->).
      exists (r :: rs0). split; [done|]. split; [by constructor|].
      rewrite (filter_cons_False (fun r => dropped clients r = true)) by congruence.
      rewrite (filter_cons_True (fun r => dropped clients r = false)) by done.
      by rewrite <- app_assoc.
Qed.

Lemma validate_inv clients (rules : list pyval) (t : list event)
    (clients' : gmap string dict) (rs : list rule) :
  validate clients rules = (t, Return (Some (clients', rs))) ->
  clients' = clients /\
  validate_clients (map_to_list clients) = ret true /\
  exists rs0,
    rules = py_of_rule <$> rs0 /\
    Forall (fun r => has_endpoints r = true) rs0 /\
    rs = filter (fun r => dropped clients r = false) rs0 /\
    t = drop_warning clients <$> filter (fun r => dropped clients r = true) rs0.
Proof.
  unfold validate.
  destruct (validate_clients (map_to_list clients)) as [t0 [[|]|e]] eqn:Hc;
    simpl; try discriminate.
  destruct (validate_clients_true _ _ Hc) as [-> _].
  destruct (validate_rules clients rules []) as [t1 [rs1|e]] eqn:Hr;
    simpl; try discriminate.
  rewrite app_nil_r. intros [= <- <- <-]. split; [done|]. split; [done|].
  by apply validate_rules_inv in Hr.
Qed.

Lemma Forall_filter_of {A} (P Q : A -> Prop) `{!forall x, Decision (Q x)} (l : list A) :
  Forall P l -> Forall P (filter Q l).
Proof.
  rewrite !Forall_forall. intros HP x [_ Hx]%list_elem_of_filter. by apply HP.
Qed.

Lemma filter_none {A} (P : A -> Prop) `{!forall x, Decision (P x)} (l : list A) :
  Forall (fun x => ~ P x) l -> filter P l = [].
Proof.
  induction 1 as [|x l Hx _ IH]; [done|]. by rewrite filter_cons_False.
Qed.

Lemma length_filter_split {A} (P : A -> bool) (l : list A) :
  length (filter (fun x => P x = true) l) + length (filter (fun x => P x = false) l)
  = length l.
Proof.
  induction l as [|x l IH]; [done|]. rewrite !filter_cons.
  destruct (P x) eqn:HP; simpl.
  - destruct (decide (true = true)), (decide (true = false)); try done. simpl. lia.
  - destruct (decide (false = true)), (decide (false = false)); try done. simpl. lia.
Qed.

(** X3. Whatever [validate] returns is made of the rules it was given:
    the returned rules are input rules, in the order of the input and
    without repetition of an entry; each has an [@] in both of its strings;
    the trace of the call holds one warning for every rule left out and
    nothing else, so warnings and returned rules add up to the input; and
    the clients mapping is returned as it was given. *)
Theorem validate_returns_input_rules clients (rules : list pyval) (t : list event)
    (clients' : gmap string dict) (rs : list rule) :
  validate clients rules = (t, Return (Some (clients', rs))) ->
  clients' = clients /\
  (py_of_rule <$> rs) `sublist_of` rules /\
  Forall (fun r => has_endpoints r = true) rs /\
  Forall (fun e => exists missed, missed <> "" /\
                     e = Log WARNING (UserNotInitialized missed)) t /\
  length t + length rs = length rules.
Proof.
  intros (-> & _ & rs0 & -> & HF & -> & ->)%validate_inv.
  split; [done|]. split; [apply fmap_sublist, sublist_filter|].
  split; [by apply Forall_filter_of|]. split.
  - apply Forall_fmap, Forall_forall. intros r [Hd _]%list_elem_of_filter.
    unfold dropped, truthy in Hd. simpl. unfold drop_warning.
    destruct (rule_missed_user clients r) as [missed|]; [|done].
    exists missed. split; [by intros ->|done].
  - rewrite !length_fmap. apply (length_filter_split (dropped clients)).
Qed.

Lemma validate_returns_input_rules_witness :
  let rules := [py_of_rule (plain_rule "#a@IRC" "#c@Slack");
                py_of_rule (plain_rule "#a@IRC" "#b@Gitter")] in
  let kept := [plain_rule "#a@IRC" "#b@Gitter"] in
  let t := [Log WARNING (UserNotInitialized "Slack")] in
  validate example_clients rules = (t, Return (Some (example_clients, kept))) /\
  (py_of_rule <$> kept) `sublist_of` rules /\
  length t + length kept = length rules.
Proof.
  assert (H : validate example_clients
                [py_of_rule (plain_rule "#a@IRC" "#c@Slack");
                 py_of_rule (plain_rule "#a@IRC" "#b@Gitter")]
              = ([Log WARNING (UserNotInitialized "Slack")],
                 Return (Some (example_clients, [plain_rule "#a@IRC" "#b@Gitter"]))))
    by reflexivity.
  split; [exact H|].
  destruct (validate_returns_input_rules _ _ _ _ _ H) as (_ & Hsub & _ & _ & Hlen).
  split; [exact Hsub | exact Hlen].
Defined.

(** X4. [validate] is idempotent on its own result: the rules it returned,
    written back as the dictionaries of a configuration and validated again
    against the clients it returned, all come back, in the same order and
    with nothing logged. *)
Theorem validate_idempotent clients (rules : list pyval) (t : list event)
    (clients' : gmap string dict) (rs : list rule) :
  validate clients rules = (t, Return (Some (clients', rs))) ->
  validate clients' (py_of_rule <$> rs) = ([], Return (Some (clients', rs))).
Proof.
  intros (-> & Hc & rs0 & -> & HF & -> & ->)%validate_inv.
  unfold validate. rewrite Hc, bind_ret.
  rewrite <- (app_nil_r (py_of_rule <$> _)), validate_rules_app
    by by apply Forall_filter_of.
  cbv zeta. cbn [validate_rules ret fst snd]. rewrite app_nil_r, app_nil_l.
  rewrite (list_filter_filter_r (fun r => dropped clients r = false)) by done.
  rewrite filter_none.
  2:{ apply Forall_forall. intros r [Hd _]%list_elem_of_filter. simpl. congruence. }
  done.
Qed.

Lemma validate_idempotent_witness :
  let kept := [plain_rule "#a@IRC" "#b@Gitter"] in
  validate example_clients
    [py_of_rule (plain_rule "#a@IRC" "#c@Slack"); py_of_rule (plain_rule "#a@IRC" "#b@Gitter")]
  = ([Log WARNING (UserNotInitialized "Slack")], Return (Some (example_clients, kept))) /\
  validate example_clients (py_of_rule <$> kept)
  = ([], Return (Some (example_clients, kept))).
Proof.
  assert (H : validate example_clients
                [py_of_rule (plain_rule "#a@IRC" "#c@Slack");
                 py_of_rule (plain_rule "#a@IRC" "#b@Gitter")]
              = ([Log WARNING (UserNotInitialized "Slack")],
                 Return (Some (example_clients, [plain_rule "#a@IRC" "#b@Gitter"]))))
    by reflexivity.
  split; [exact H|].
  exact (validate_idempotent _ _ _ _ _ H).
Defined.

Lemma dropped_false_iff clients (r : rule) :
  dropped clients r = false <->
  resolved clients r = true \/ rule_missed_user clients r = Some "".
Proof.
  unfold dropped, rule_missed_user, missed_user, resolved, truthy.
  destruct (contains clients (client_id_of (rule_from r))); simpl;
    [destruct (contains clients (client_id_of (rule_send_to r))); simpl|].
  - split; [by left | done].
  - rewrite negb_false_iff, bool_decide_eq_true. split.
    + intros ->. by right.
    + intros [?|[= ->]]; done.
  - rewrite negb_false_iff, bool_decide_eq_true. split.
    + intros ->. by right.
    + intros [?|[= ->]]; done.
Qed.

(** X5. Which rules survive validation, with no assumption on the client
    ids: when every client names a registered transport and every rule
    string contains an [@], [validate] succeeds, and a rule is returned if
    and only if both its client ids are configured or the first of its
    client ids that is not configured is the empty string. The second case
    is the truthiness test [if missed_user:] letting a rule with an
    unconfigured, empty client id through without a warning. *)
Theorem validate_keeps_iff (clients : gmap string dict) (rs : list rule) :
  map_Forall (fun _ cfg => is_Some (transport_class_of cfg)) clients ->
  Forall (fun r => has_endpoints r = true) rs ->
  exists t kept,
    validate clients (py_of_rule <$> rs) = (t, Return (Some (clients, kept))) /\
    kept `sublist_of` rs /\
    forall r, r ∈ kept <->
      r ∈ rs /\ (resolved clients r = true \/ rule_missed_user clients r = Some "").
Proof.
  intros Hc Hrs. eexists _, (filter (fun r => dropped clients r = false) rs).
  split; [|split].
  - unfold validate. rewrite validate_clients_map_registered, bind_ret by done.
    rewrite <- (app_nil_r (py_of_rule <$> rs)), validate_rules_app by done.
    cbv zeta. cbn [validate_rules ret fst snd]. rewrite bind_run. cbn [ret fst snd].
    by rewrite !app_nil_r.
  - apply sublist_filter.
  - intros r. rewrite list_elem_of_filter, dropped_false_iff. tauto.
Qed.

Lemma validate_keeps_iff_witness :
  let rs := [plain_rule "#a@IRC" "#b@"; plain_rule "#a@IRC" "#c@Slack"] in
  map_Forall (fun _ cfg => is_Some (transport_class_of cfg)) example_clients /\
  Forall (fun r => has_endpoints r = true) rs /\
  exists t kept,
    validate example_clients (py_of_rule <$> rs)
    = (t, Return (Some (example_clients, kept))) /\
    kept `sublist_of` rs /\
    forall r, r ∈ kept <->
      r ∈ rs /\ (resolved example_clients r = true
                 \/ rule_missed_user example_clients r = Some "").
Proof.
  intros rs.
  assert (Hc : map_Forall (fun _ cfg => is_Some (transport_class_of cfg)) example_clients).
  { apply (bool_decide_unpack _). by vm_compute. }
  assert (Hrs : Forall (fun r => has_endpoints r = true) rs) by (repeat constructor).
  split; [exact Hc|]. split; [exact Hrs|].
  exact (validate_keeps_iff example_clients rs Hc Hrs).
Defined.

(** ** [Forwarder.on_message] and a destination that is not configured *)

Lemma for_each_app {A} (l1 l2 : list A) (body : A -> M unit) :
  for_each (l1 ++ l2) body = (for_each l1 body ;; for_each l2 body).
Proof.
  induction l1 as [|x l1 IH]; simpl.
  - by destruct (for_each l2 body).
  - rewrite IH. destruct (body x) as [t [[]|e]]; simpl; [|done].
    destruct (for_each l1 body) as [t1 [[]|e1]]; simpl; [|done].
    destruct (for_each l2 body) as [t2 r2]. simpl. by rewrite app_assoc.
Qed.

Section UnknownDestination.

Variable re_match : string -> string -> re_result.

(** A rule that passes the four checks gets to the send. *)
Lemma on_message_rule_forwards (self : Forwarder) (sender user target text : string)
    (r : rule) :
  has_endpoints r = true ->
  forwards re_match r sender user target text = true ->
  on_message_rule re_match self sender user target text r =
    (cfg <- clients_getitem (_clients self) (client_id_of (rule_send_to r)) ;;
     client <- getitem cfg "client" ;;
     say client user (client_id_of (rule_from r)) target
         (channel_of (rule_send_to r)) text).
Proof.
  intros [Hf Ht]%andb_true_iff.
  unfold forwards, endpoint_and_nick_checks, pattern_check.
  rewrite !andb_true_iff. intros [[[[Hid Hch] Hn] Hi] Hp].
  unfold on_message_rule.
  rewrite split_endpoint_channel_client, bind_ret by done. cbv zeta. cbn [fst snd].
  rewrite Hid, Hch. cbn [negb orb].
  destruct (rule_nicknames r) as [nicknames|]; [rewrite Hn; cbn [negb]|].
  all: destruct (rule_ignore_nicknames r) as [ignored|];
    [change (default [] (Some ignored)) with ignored;
     apply negb_true_iff in Hi; rewrite Hi
    |change (default [] (@None (list string))) with (@nil string);
     rewrite bool_decide_eq_false_2 by apply not_elem_of_nil].
  all: destruct (rule_regexp r) as [regexp|];
    [unfold not_re_match; destruct (re_match text regexp); try discriminate|].
  all: rewrite bind_ret, split_endpoint_channel_client, bind_ret by done.
  all: reflexivity.
Qed.

(** X6. A rule that passes the checks but whose destination client id is
    not a key of the clients mapping ends [on_message] in [KeyError]: the
    rules before it are served as usual, the rules after it are never
    looked at, whatever they are. Validation lets such a rule through when
    the missing id is the empty string. *)
Theorem on_message_stops_at_unknown_destination (self : Forwarder)
    (sender user target text : string) (before : list rule) (r : rule)
    (after : list rule) :
  _rules self = before ++ r :: after ->
  Forall (fun r => has_endpoints r = true) before ->
  Forall (destination_ready self) before ->
  Forall (pattern_compiles re_match text) before ->
  has_endpoints r = true ->
  forwards re_match r sender user target text = true ->
  _clients self !! client_id_of (rule_send_to r) = None ->
  exists t,
    on_message re_match self sender user target text
    = (Log INFO (Received sender target user text) :: t,
       Raise (KeyError (PStr (client_id_of (rule_send_to r))))) /\
    (sends t).*1 =
      destination <$>
        filter (fun r => forwards re_match r sender user target text = true) before.
Proof.
  intros Hrules H1 H2 H3 Hr Hfw Hnone.
  destruct (for_each_rule_run re_match self sender user target text before H1 H2 H3)
    as (t & Hrun & Hsends).
  exists t. split; [|exact Hsends].
  unfold on_message. rewrite Hrules, for_each_app, Hrun. cbn [for_each].
  rewrite on_message_rule_forwards by done.
  unfold clients_getitem. rewrite Hnone. simpl. by rewrite app_nil_r.
Qed.

End UnknownDestination.

Lemma on_message_stops_at_unknown_destination_witness :
  let self := {| _rules := [plain_rule "#a@IRC" "#b@Gitter"; plain_rule "#a@IRC" "#b@";
                            plain_rule "#a@IRC" "#c@Telegram"];
                 _clients := example_registry |} in
  _clients self !! client_id_of (rule_send_to (plain_rule "#a@IRC" "#b@")) = None /\
  exists t,
    on_message stand_in_re_match self "IRC" "alice" "#a" "hi"
    = (Log INFO (Received "IRC" "#a" "alice" "hi") :: t, Raise (KeyError (PStr ""))) /\
    (sends t).*1 = [("Gitter", "#b")].
Proof.
  intros self.
  assert (Hnone : _clients self !! client_id_of (rule_send_to (plain_rule "#a@IRC" "#b@"))
                  = None) by (vm_compute; reflexivity).
  split; [exact Hnone|].
  apply (on_message_stops_at_unknown_destination stand_in_re_match self
           "IRC" "alice" "#a" "hi" [plain_rule "#a@IRC" "#b@Gitter"]
           (plain_rule "#a@IRC" "#b@") [plain_rule "#a@IRC" "#c@Telegram"]).
  - reflexivity.
  - repeat constructor.
  - apply (example_forwarder_ready
             {| _rules := [plain_rule "#a@IRC" "#b@Gitter"];
                _clients := example_registry |}); [reflexivity|].
    repeat constructor.
  - repeat constructor. intros regexp. discriminate.
  - reflexivity.
  - reflexivity.
  - exact Hnone.
Defined.

(** ** [BaseTransport.say]: what a template can do to a send *)

(** Formatting has no effect of its own. *)
Lemma fmt_run_no_trace args (st : fmt_state) (out template : string) :
  (fmt_run args st out template).1 = [].
Proof.
  revert st out. induction template as [|c rest IH]; intros st out.
  - by destruct st.
  - destruct st as [| |depth key|v]; simpl.
    + destruct (Ascii.eqb c "%"); apply IH.
    + destruct (Ascii.eqb c "%"); [apply IH|].
      destruct (Ascii.eqb c "("); [apply IH | done].
    + destruct (Ascii.eqb c ")").
      * destruct depth; [|apply IH]. destruct (args !! key); [apply IH | done].
      * destruct (Ascii.eqb c "("); apply IH.
    + destruct (Ascii.eqb c "s"); [apply IH | done].
Qed.

(** X7. [say] is all or nothing. When it raises (the template does not
    render, or the object is not a transport) nothing has been logged and
    no send has been scheduled; when it returns, it has logged once and
    scheduled exactly one send, on the transport's own client id, to the
    target it was given, with the rendered text. *)
Theorem say_all_or_nothing (self : pyval)
    (author from_client from_target target msg : string) :
  match say self author from_client from_target target msg with
  | (t, Raise _) => t = []
  | (t, Return _) =>
      exists cls client_id template rendered,
        self = PClient cls client_id template /\
        py_format template (say_args author from_client from_target target msg)
        = ret rendered /\
        t = [Log DEBUG (Forwarding rendered target client_id);
             CreateTaskSay client_id target rendered]
  end.
Proof.
  destruct self as [| | | | | |cls client_id template]; try reflexivity.
  unfold say.
  destruct (py_format template (say_args author from_client from_target target msg))
    as [t [rendered|e]] eqn:Hfmt.
  - assert (t = []) as ->.
    { destruct template; try (by injection Hfmt as <-).
      simpl in Hfmt. rewrite <- (fmt_run_no_trace
        (say_args author from_client from_target target msg) FText "" s).
      by rewrite Hfmt. }
    simpl. by exists cls, client_id, template, rendered.
  - simpl. destruct template; try (by injection Hfmt as <-).
    simpl in Hfmt. rewrite <- (fmt_run_no_trace
      (say_args author from_client from_target target msg) FText "" s).
    by rewrite Hfmt.
Qed.

Lemma template_of_app (segs1 segs2 : list segment) :
  template_of (segs1 ++ segs2) = template_of segs1 +:+ template_of segs2.
Proof.
  induction segs1 as [|seg segs1 IH]; [done|].
  simpl. by rewrite IH, append_assoc.
Qed.

(** Rendering a prefix of a template whose segments are well formed and
    whose keys are placeholders. *)
Lemma fmt_run_template_prefix author from_client from_target target msg segs out rest :
  Forall (fun seg => segment_ok seg = true) segs ->
  (forall key, Field key ∈ segs -> key ∈ placeholders) ->
  fmt_run (say_args author from_client from_target target msg) FText out
          (template_of segs +:+ rest)
  = fmt_run (say_args author from_client from_target target msg) FText
            (out +:+ rendering author from_client from_target target msg segs) rest.
Proof.
  intros Hok. revert out. induction Hok as [|seg segs Hseg _ IH]; intros out Hkeys; simpl.
  - by rewrite append_nil_r.
  - assert (Hrest : forall key, Field key ∈ segs -> key ∈ placeholders).
    { intros key ?. apply Hkeys. by right. }
    rewrite append_assoc.
    destruct seg as [text|key].
    + simpl in Hseg. apply negb_true_iff in Hseg.
      change (segment_source (Lit text)) with text.
      rewrite fmt_run_literal, IH by done. by rewrite append_assoc.
    + simpl in Hseg. apply andb_true_iff in Hseg as [Ho Hc].
      apply negb_true_iff in Ho, Hc.
      erewrite fmt_run_field; [|done|done|].
      2:{ apply say_args_placeholder, Hkeys. by left. }
      rewrite IH by done. by rewrite append_assoc.
Qed.

Lemma say_args_other author from_client from_target target msg key :
  key ∉ placeholders ->
  say_args author from_client from_target target msg !! key = None.
Proof.
  unfold placeholders. rewrite !not_elem_of_cons. intros (? & ? & ? & ? & ? & _).
  unfold say_args. by rewrite !lookup_insert_ne, lookup_empty by done.
Qed.

(** X8. A template that names anything but the five fields of [say] never
    sends: at the first [%(key)s] whose key is not one of [author],
    [from_client], [from_target], [target], [msg], [say] raises
    [KeyError] for that key, whatever the message and whatever follows in
    the template, and nothing is logged or scheduled. *)
Theorem say_unknown_placeholder cls client_id (before : list segment) (key : string)
    (rest : string) author from_client from_target target msg :
  Forall (fun seg => segment_ok seg = true) before ->
  (forall key, Field key ∈ before -> key ∈ placeholders) ->
  segment_ok (Field key) = true ->
  key ∉ placeholders ->
  say (PClient cls client_id
         (PStr (template_of before +:+ segment_source (Field key) +:+ rest)))
      author from_client from_target target msg
  = raise (KeyError (PStr key)).
Proof.
  intros Hok Hkeys [Ho Hc]%andb_true_iff Hkey.
  apply negb_true_iff in Ho, Hc.
  unfold say, py_format.
  rewrite fmt_run_template_prefix by done.
  rewrite segment_source_field. simpl.
  rewrite fmt_run_key by done. change ("" +:+ key) with key.
  by rewrite say_args_other.
Qed.

Lemma say_unknown_placeholder_witness :
  say (PClient GitterClient "Gitter" (PStr "[From %(from_client)s] %(client_id)s %(oops"))
      "alice" "IRC" "#a" "#b" "hi"
  = raise (KeyError (PStr "client_id")).
Proof.
  apply (say_unknown_placeholder GitterClient "Gitter"
           [Lit "[From "; Field "from_client"; Lit "] "] "client_id" " %(oops"
           "alice" "IRC" "#a" "#b" "hi").
  - repeat constructor.
  - intros key. rewrite !elem_of_cons, elem_of_nil.
    intros [?|[[= ->]|[?|[]]]]; try discriminate.
    apply (bool_decide_unpack _). by vm_compute.
  - reflexivity.
  - apply (bool_decide_unpack _). by vm_compute.
Defined.

(** X9. A [msg_template] that is not a string goes unnoticed until the
    first send: the client passes validation (the schema applied to
    clients is empty) and its transport is constructed with that value as
    template, and from then on every [say] on it raises [TypeError]
    without logging or scheduling anything. *)
Theorem say_template_not_a_string (client_id k : string) (cfg : dict)
    (cls : transport_class) (template : pyval) :
  cfg !! "transport" = Some (PStr k) ->
  _transports !! k = Some cls ->
  cfg !! "msg_template" = Some template ->
  as_str template = None ->
  validate_clients [(client_id, cfg)] = ret true /\
  BaseTransport_init cls client_id cfg = PClient cls client_id template /\
  forall author from_client from_target target msg,
    say (BaseTransport_init cls client_id cfg) author from_client from_target target msg
    = raise (TypeError "unsupported operand type(s) for %").
Proof.
  intros Htr Hk Htemplate Hstr. split; [|split].
  - apply validate_clients_registered. constructor; [|constructor].
    unfold transport_class_of. simpl. rewrite Htr, Hk. by eexists.
  - unfold BaseTransport_init. by rewrite Htemplate.
  - intros. unfold BaseTransport_init. rewrite Htemplate. simpl.
    by destruct template.
Qed.

Lemma say_template_not_a_string_witness :
  let cfg : dict := <["msg_template" := PList [PStr "%(author)s"; PStr "%(msg)s"]]>
                    example_telegram_cfg in
  validate_clients [("Telegram", cfg)] = ret true /\
  say (BaseTransport_init TelegramClient "Telegram" cfg) "alice" "IRC" "#a" "#c" "hi"
  = raise (TypeError "unsupported operand type(s) for %").
Proof.
  intros cfg.
  destruct (say_template_not_a_string "Telegram" "telegram" cfg TelegramClient
              (PList [PStr "%(author)s"; PStr "%(msg)s"]))
    as (Hv & _ & Hsay); try reflexivity.
  split; [exact Hv | apply Hsay].
Defined.

(** ** The transports' loops *)


Lemma channels_union_sighting (channels later : gmap string Z) (name : string) (id : Z) :
  (if contains channels name then channels else <[name := id]> channels) ∪ later
  = channels ∪ <[name := id]> later.
Proof.
  unfold contains. destruct (channels !! name) as [id'|] eqn:Hname.
  - apply map_eq. intros k. rewrite !lookup_union.
    destruct (decide (k = name)) as [->|Hk].
    + rewrite Hname, lookup_insert_eq. by destruct (later !! name).
    + by rewrite lookup_insert_ne.
  - by rewrite <- insert_union_l, insert_union_r.
Qed.

(** One update that does not raise: the channels, the publication and the
    offset it leaves. *)
Lemma TelegramClient_update_step_returns (client_id : string) (self_user : telegram_user)
    (st st' : telegram_state) (update : telegram_update) (t : list event) :
  TelegramClient_update_step client_id self_user st update = (t, Return st') ->
  _channels st' = _channels st ∪ list_to_map (option_list (sighting update)) /\
  filter (fun e => is_publish e = true) t
    = telegram_publication client_id <$> option_list (forwarded update) /\
  offset st' = match forwarded update with
               | Some p => Some (p.1 + 1)%Z
               | None => offset st
               end.
Proof.
  unfold TelegramClient_update_step, sighting, forwarded, text_message, telegram_author.
  destruct (update_payload update) as [message|].
  2:{ intros [= <- <-]. simpl. by rewrite (right_id _ _). }
  destruct (message_text message) as [text|].
  2:{ intros [= <- <-]. simpl. by rewrite (right_id _ _). }
  destruct (chat_title (message_chat message)) as [title|]; [|discriminate].
  cbv zeta. unfold logger_info, _forward_message.
  destruct (message_from message) as [[[username|] [first_name|]]|]; simpl;
    intros [= <- <-]; simpl;
    by rewrite <- (channels_union_sighting _ ∅), (right_id _ _).
Qed.

Lemma TelegramClient_updates_returns (client_id : string) (self_user : telegram_user)
    (updates : list telegram_update) (st st' : telegram_state) (t : list event) :
  TelegramClient_updates client_id self_user st updates = (t, Return st') ->
  _channels st' = _channels st ∪ list_to_map (omap sighting updates) /\
  filter (fun e => is_publish e = true) t
    = telegram_publication client_id <$> omap forwarded updates /\
  offset st' = match last (omap forwarded updates) with
               | Some p => Some (p.1 + 1)%Z
               | None => offset st
               end.
Proof.
  revert st t. induction updates as [|update updates IH]; intros st t.
  - intros [= <- <-]. simpl. by rewrite (right_id _ _).
  - cbn [TelegramClient_updates].
    destruct (TelegramClient_update_step client_id self_user st update)
      as [t1 [st1|e]] eqn:Hstep; [|discriminate].
    rewrite bind_run.
    destruct (TelegramClient_updates client_id self_user st1 updates)
      as [t2 [st2|e]] eqn:Hrest; [|discriminate].
    simpl. intros [= <- <-].
    destruct (TelegramClient_update_step_returns _ _ _ _ _ _ Hstep) as (Hc1 & Hp1 & Ho1).
    destruct (IH _ _ Hrest) as (Hc2 & Hp2 & Ho2).
    split; [|split].
    + rewrite Hc2, Hc1. cbn [omap list_omap].
      destruct (sighting update) as [[name id]|].
      * change (list_to_map (option_list (Some (name, id))))
          with (<[name := id]> (∅ : gmap string Z)).
        rewrite list_to_map_cons, <- (assoc_L (∪)). f_equal.
        by rewrite <- insert_union_l, (left_id_L ∅ (∪)).
      * change (list_to_map (option_list (@None (string * Z))))
          with (∅ : gmap string Z).
        by rewrite (right_id_L ∅ (∪)).
    + rewrite filter_app, Hp1, Hp2. cbn [omap list_omap].
      by destruct (forwarded update).
    + rewrite Ho2, Ho1. cbn [omap list_omap].
      destruct (forwarded update) as [p|]; [|done].
      rewrite last_cons.
      change (list_omap _ _ forwarded updates) with (omap forwarded updates).
      by destruct (last (omap forwarded updates)).
Qed.

(** X11. The channels a Telegram transport knows only grow, and the first
    id seen for a title is the one that stays: after a batch of updates
    the mapping is the one before the batch, completed, for the titles it
    did not have, with the chat id of the first update of the batch that
    carries a text under that title. An id written in the configuration,
    or learnt earlier, is never replaced. *)
Theorem TelegramClient_channels_first_id_wins (client_id : string)
    (self_user : telegram_user) (updates : list telegram_update)
    (st st' : telegram_state) (t : list event) :
  TelegramClient_updates client_id self_user st updates = (t, Return st') ->
  _channels st' = _channels st ∪ list_to_map (omap sighting updates) /\
  (forall name id, _channels st !! name = Some id -> _channels st' !! name = Some id) /\
  (forall name, _channels st !! name = None ->
     _channels st' !! name =
       snd <$> head (filter (fun s => s.1 = name) (omap sighting updates))).
Proof.
  intros (Hc & _ & _)%TelegramClient_updates_returns. split; [done|]. split.
  - intros name id Hname. rewrite Hc. by apply lookup_union_Some_l.
  - intros name Hname. rewrite Hc, lookup_union_r by done. clear Hc.
    induction (omap sighting updates) as [|[name' id'] l IH]; [done|].
    rewrite list_to_map_cons.
    destruct (decide (name' = name)) as [->|Hne].
    + rewrite lookup_insert_eq, filter_cons_True by done. reflexivity.
    + rewrite lookup_insert_ne, filter_cons_False by done. exact IH.
Qed.

Lemma TelegramClient_channels_first_id_wins_witness :
  let st := {| _channels := {["room" := 1%Z]}; offset := None |} in
  let user := {| telegram_username := Some "alice"; telegram_first_name := None |} in
  let updates := [text_update 7 "room" 42 user "hi"; text_update 8 "lobby" 5 user "a";
                  text_update 9 "lobby" 6 user "b"] in
  exists t st',
    TelegramClient_updates "Telegram" user st updates = (t, Return st') /\
    _channels st' !! "room" = Some 1%Z /\
    _channels st' !! "lobby" = Some 5%Z.
Proof.
  intros st user updates. eexists _, _.
  assert (H : TelegramClient_updates "Telegram" user st updates
              = (_, Return _)) by reflexivity.
  split; [exact H|].
  destruct (TelegramClient_channels_first_id_wins _ _ _ _ _ _ H) as (_ & Hold & Hnew).
  split; [by apply Hold | by rewrite Hnew].
Defined.

(** X12. What a batch of Telegram updates publishes and acknowledges.
    Exactly the updates that carry a text, a chat title and an author name
    are published, in the order of the batch, each with the chat title as
    target and the author's [username], or the [first_name] when there is
    no [username]. The offset after the batch is the id of the last
    published update plus one, and is left as it was when nothing was
    published: an update that is passed over never moves it. *)
Theorem TelegramClient_updates_publishes (client_id : string)
    (self_user : telegram_user) (updates : list telegram_update)
    (st st' : telegram_state) (t : list event) :
  TelegramClient_updates client_id self_user st updates = (t, Return st') ->
  filter (fun e => is_publish e = true) t
    = telegram_publication client_id <$> omap forwarded updates /\
  offset st' = match last (omap forwarded updates) with
               | Some p => Some (p.1 + 1)%Z
               | None => offset st
               end.
Proof. by intros (_ & Hp & Ho)%TelegramClient_updates_returns. Qed.

Lemma TelegramClient_updates_publishes_witness :
  let st := {| _channels := ∅; offset := Some 5%Z |} in
  let user := {| telegram_username := None; telegram_first_name := Some "Alice" |} in
  let photo := {| update_id := 8;
                  update_message :=
                    Some {| message_text := None;
                            message_chat := {| chat_title := Some "room"; chat_id := 42 |};
                            message_from := Some user |};
                  update_channel_post := None; update_edited_message := None;
                  update_edited_channel_post := None |} in
  exists t st',
    TelegramClient_updates "Telegram" user st [text_update 7 "room" 42 user "hi"; photo]
    = (t, Return st') /\
    filter (fun e => is_publish e = true) t
    = [SignalSend "messages" "Telegram" "Alice" "room" (Some "hi")] /\
    offset st' = Some 8%Z.
Proof.
  intros st user photo. eexists _, _.
  assert (H : TelegramClient_updates "Telegram" user st
                [text_update 7 "room" 42 user "hi"; photo] = (_, Return _))
    by reflexivity.
  split; [exact H|].
  exact (TelegramClient_updates_publishes _ _ _ _ _ _ H).
Defined.

Lemma TelegramClient_updates_app (client_id : string) (self_user : telegram_user)
    (st : telegram_state) (updates1 updates2 : list telegram_update) :
  TelegramClient_updates client_id self_user st (updates1 ++ updates2) =
    (st1 <- TelegramClient_updates client_id self_user st updates1 ;;
     TelegramClient_updates client_id self_user st1 updates2).
Proof.
  revert st. induction updates1 as [|update updates1 IH]; intros st; simpl.
  - by destruct (TelegramClient_updates client_id self_user st updates2).
  - destruct (TelegramClient_update_step client_id self_user st update)
      as [t1 [st1|e]]; [|done].
    rewrite !bind_run, IH.
    destruct (TelegramClient_updates client_id self_user st1 updates1)
      as [t2 [st2|e]]; simpl; [|done].
    destruct (TelegramClient_updates client_id self_user st2 updates2).
    simpl. by rewrite app_assoc.
Qed.

(** X13. An update with a text from a chat that has no [title] (a private
    chat has none) ends the batch in [KeyError]: what came before it in
    the batch has been published, nothing of the update itself and
    nothing after it is, whatever the state and whoever the author. *)
Theorem TelegramClient_untitled_chat_raises (client_id : string)
    (self_user : telegram_user) (st st1 : telegram_state) (t : list event)
    (before after : list telegram_update) (update : telegram_update)
    (message : telegram_message) (text : string) :
  TelegramClient_updates client_id self_user st before = (t, Return st1) ->
  text_message update = Some (message, text) ->
  chat_title (message_chat message) = None ->
  TelegramClient_updates client_id self_user st (before ++ update :: after)
  = (t, Raise (KeyError (PStr "title"))).
Proof.
  intros Hbefore Htext Htitle.
  rewrite TelegramClient_updates_app, Hbefore, bind_run.
  cbn [TelegramClient_updates]. unfold TelegramClient_update_step.
  unfold text_message in Htext.
  destruct (update_payload update) as [message'|]; [|discriminate].
  destruct (message_text message') as [text'|]; [|discriminate].
  injection Htext as -> ->. rewrite Htitle. simpl. by rewrite app_nil_r.
Qed.

Lemma TelegramClient_untitled_chat_raises_witness :
  let st := {| _channels := ∅; offset := None |} in
  let user := {| telegram_username := Some "alice"; telegram_first_name := None |} in
  let private := {| update_id := 8;
                    update_message :=
                      Some {| message_text := Some "psst";
                              message_chat := {| chat_title := None; chat_id := 99 |};
                              message_from := Some user |};
                    update_channel_post := None; update_edited_message := None;
                    update_edited_channel_post := None |} in
  TelegramClient_updates "Telegram" user st
    ([text_update 7 "room" 42 user "hi"] ++ private :: [text_update 9 "room" 42 user "bye"])
  = ([Log INFO (NewChannelDetected 42 "room");
      SignalSend "messages" "Telegram" "alice" "room" (Some "hi")],
     Raise (KeyError (PStr "title"))).
Proof.
  intros st user private.
  eapply (TelegramClient_untitled_chat_raises "Telegram" user st); reflexivity.
Defined.

(** ** The sessions: IRC *)

Lemma sbind_ret {A B} (a : A) (f : A -> Session B) : sbind (sret a) f = f a.
Proof. unfold sbind, sret. by destruct (f a). Qed.

Lemma sbind_run {A B} (t : list session_event) (a : A) (f : A -> Session B) :
  sbind (t, Return a) f = (t ++ (f a).1, (f a).2).
Proof. unfold sbind. by destruct (f a). Qed.

Lemma lift_getitem (d : dict) (k : string) :
  lift (getitem d k) = match d !! k with
                       | Some v => sret v
                       | None => sraise (KeyError (PStr k))
                       end.
Proof. unfold getitem. by destruct (d !! k). Qed.

Lemma sfor_each_app {A} (l1 l2 : list A) (body : A -> Session unit) :
  sfor_each (l1 ++ l2) body = sbind (sfor_each l1 body) (fun _ => sfor_each l2 body).
Proof.
  induction l1 as [|x l1 IH]; simpl.
  - by destruct (sfor_each l2 body).
  - rewrite IH. destruct (body x) as [t [[]|e]]; simpl; [|done].
    destruct (sfor_each l1 body) as [t1 [[]|e1]]; simpl; [|done].
    destruct (sfor_each l2 body) as [t2 r2]. simpl. by rewrite app_assoc.
Qed.

Lemma sbind_Forall {A B} (P : session_event -> Prop) (m : Session A)
    (f : A -> Session B) :
  Forall P m.1 -> (forall a, Forall P (f a).1) -> Forall P (sbind m f).1.
Proof.
  intros Hm Hf. destruct m as [t [a|e]]; simpl in *; [|done].
  specialize (Hf a). destruct (f a). simpl in *. by apply Forall_app.
Qed.

Lemma sfor_each_Forall {A} (P : session_event -> Prop) (l : list A)
    (body : A -> Session unit) :
  (forall x, Forall P (body x).1) -> Forall P (sfor_each l body).1.
Proof.
  intros Hbody. induction l as [|x l IH]; [constructor|].
  cbn [sfor_each]. by apply sbind_Forall.
Qed.

Lemma lift_getitem_Forall (P : session_event -> Prop) (d : dict) (k : string) :
  Forall P (lift (getitem d k)).1.
Proof. rewrite lift_getitem. destruct (d !! k); constructor. Qed.

Lemma py_join_Forall (P : session_event -> Prop) (sep : string) (v : pyval) :
  Forall P (py_join sep v).1.
Proof.
  destruct v; simpl; try constructor. destruct (mapM as_str l); constructor.
Qed.

(** Only [start] itself starts the event loop. *)
Lemma transport_connect_no_run_forever (c : pyval) (client_cfg : dict) :
  Forall (fun e => is_run_forever e = false) (transport_connect c client_cfg).1.
Proof.
  destruct c as [| | | | | |cls client_id template]; try constructor.
  cbn [transport_connect]. apply sbind_Forall; [by repeat constructor|]. intros _.
  destruct cls; [|by repeat constructor..].
  unfold IRCClient__connect.
  repeat (first [ apply sbind_Forall; [|intros ?]
                | apply lift_getitem_Forall
                | apply py_join_Forall
                | by repeat constructor ]).
Qed.

Lemma connecting_cons (e : session_event) (t : list session_event) :
  connecting (e :: t) = connecting [e] ++ connecting t.
Proof.
  unfold connecting. cbn [omap list_omap].
  destruct e as [c| | | | | | | |]; try done.
  destruct c as [lvl msg| | | | | |]; try done. by destruct lvl, msg.
Qed.

Lemma connecting_quiet (t : list session_event) :
  Forall (fun e => connecting [e] = []) t -> connecting t = [].
Proof.
  induction 1 as [|e t He _ IH]; [done|]. by rewrite connecting_cons, He, IH.
Qed.

(** [_connect] on a configuration that lacks one of the keys it reads. *)
Lemma IRCClient__connect_missing (client_id key : string) (client_cfg : dict) :
  first_missing client_cfg = Some key ->
  exists t,
    IRCClient__connect client_id client_cfg = (t, Raise (KeyError (PStr key))) /\
    Forall (fun e => is_irc_join e = false /\ is_subscription e = false
                     /\ is_run_forever e = false /\ connecting [e] = []) t /\
    (key = "channels" ->
     exists server port nickname,
       client_cfg !! "server" = Some server /\ client_cfg !! "port" = Some port /\
       client_cfg !! "nickname" = Some nickname /\
       t = [irc_connect server port (default (PBool false) (client_cfg !! "use_ssl"));
            irc_register nickname (default (PStr "") (client_cfg !! "ident"))
              (default (PStr "") (client_cfg !! "realname"))
              (default PNone (client_cfg !! "password"))]).
Proof.
  unfold first_missing, irc_required, IRCClient__connect.
  rewrite !filter_cons, filter_nil, !lift_getitem.
  destruct (client_cfg !! "server") as [server|].
  2:{ simpl. intros [= <-]. eexists. split; [reflexivity|]. split; [constructor|done]. }
  destruct (client_cfg !! "port") as [port|].
  2:{ simpl. intros [= <-]. eexists. split; [reflexivity|]. split; [constructor|done]. }
  destruct (client_cfg !! "nickname") as [nickname|].
  2:{ simpl. intros [= <-]. eexists. split; [reflexivity|].
      split; [by repeat constructor|done]. }
  destruct (client_cfg !! "channels") as [channels|]; [done|].
  simpl. intros [= <-]. eexists. split; [reflexivity|].
  split; [by repeat constructor|]. intros _. by exists server, port, nickname.
Qed.

(** X14. An IRC client whose configuration lacks [server], [port],
    [nickname] or [channels] makes [_connect] raise [KeyError] for the
    first of them that is missing, in that order, before the transport
    joins a channel or subscribes to incoming messages. When only
    [channels] is missing, the server has been connected to and the nick
    registered by then. Nothing validates these keys beforehand (see
    [transport_validate]). *)
Theorem IRCClient__connect_requires_keys (client_id key : string) (client_cfg : dict) :
  first_missing client_cfg = Some key ->
  exists t,
    IRCClient__connect client_id client_cfg = (t, Raise (KeyError (PStr key))) /\
    Forall (fun e => is_irc_join e = false /\ is_subscription e = false) t /\
    (key = "channels" ->
     exists server port nickname,
       client_cfg !! "server" = Some server /\ client_cfg !! "port" = Some port /\
       client_cfg !! "nickname" = Some nickname /\
       t = [irc_connect server port (default (PBool false) (client_cfg !! "use_ssl"));
            irc_register nickname (default (PStr "") (client_cfg !! "ident"))
              (default (PStr "") (client_cfg !! "realname"))
              (default PNone (client_cfg !! "password"))]).
Proof.
  intros (t & Hrun & Hquiet & Hchannels)%(IRCClient__connect_missing client_id).
  exists t. split; [done|]. split; [|done].
  eapply Forall_impl; [exact Hquiet|]. by intros e (? & ? & _).
Qed.

Lemma IRCClient__connect_requires_keys_witness :
  first_missing example_irc_cfg = Some "channels" /\
  IRCClient__connect "IRC" example_irc_cfg
  = ([irc_connect (PStr "chat.freenode.net") (PInt 6667) (PBool false);
      irc_register (PStr "relay") (PStr "") (PStr "") PNone],
     Raise (KeyError (PStr "channels"))).
Proof.
  assert (H : first_missing example_irc_cfg = Some "channels") by reflexivity.
  split; [exact H|].
  destruct (IRCClient__connect_requires_keys "IRC" "channels" example_irc_cfg H)
    as (t & Hrun & _ & Ht).
  destruct (Ht eq_refl) as (server & port & nickname & Hs & Hp & Hn & ->).
  rewrite Hrun. vm_compute in Hs, Hp, Hn.
  injection Hs as <-. injection Hp as <-. injection Hn as <-. reflexivity.
Defined.

(** X15. [Forwarder.start] does not survive such an IRC client: when the
    clients before it (in the order of the mapping) have been told to
    connect, [start] logs that it connects the IRC client and then ends in
    the [KeyError] of its [_connect]; the clients after it are never told
    to connect and the event loop is never started. *)
Theorem Forwarder_start_stops_at_IRC_client (self : Forwarder)
    (before after : list (string * dict)) (cid client_id key : string)
    (client_cfg : dict) (template : pyval) (t0 : list session_event) :
  map_to_list (_clients self) = before ++ (cid, client_cfg) :: after ->
  sfor_each before.*2
    (fun client => sbind (lift (getitem client "client"))
                         (fun c => transport_connect c client)) = (t0, Return tt) ->
  client_cfg !! "client" = Some (PClient IRCClient client_id template) ->
  first_missing client_cfg = Some key ->
  exists t,
    Forwarder_start self = (t0 ++ t, Raise (KeyError (PStr key))) /\
    connecting t = [client_id] /\
    Forall (fun e => is_run_forever e = false) (t0 ++ t).
Proof.
  intros Hclients Hbefore Hclient Hkey.
  destruct (IRCClient__connect_missing client_id key client_cfg Hkey)
    as (t & Hrun & Hquiet & _).
  exists (core (Log INFO (Connecting client_id)) :: t). split; [|split].
  - unfold Forwarder_start. rewrite Hclients, fmap_app, fmap_cons, sfor_each_app.
    rewrite Hbefore, sbind_run. cbn [sfor_each fst snd].
    rewrite lift_getitem, Hclient, sbind_ret. cbn [transport_connect].
    rewrite Hrun. reflexivity.
  - rewrite connecting_cons. change (connecting [_]) with [client_id]. simpl.
    f_equal. apply connecting_quiet.
    eapply Forall_impl; [exact Hquiet|]. by intros e (_ & _ & _ & ?).
  - apply Forall_app. split.
    + change t0 with (t0, @Return unit tt).1. rewrite <- Hbefore.
      apply sfor_each_Forall. intros client.
      apply sbind_Forall; [apply lift_getitem_Forall|].
      intros c. apply transport_connect_no_run_forever.
    + constructor; [done|]. eapply Forall_impl; [exact Hquiet|].
      by intros e (_ & _ & ? & _).
Qed.

Lemma Forwarder_start_stops_at_IRC_client_witness :
  let self := {| _rules := [];
                 _clients := {["IRC" := with_client "IRC" example_irc_cfg]} |} in
  exists t,
    Forwarder_start self = (t, Raise (KeyError (PStr "channels"))) /\
    connecting t = ["IRC"] /\
    Forall (fun e => is_run_forever e = false) t.
Proof.
  intros self.
  apply (Forwarder_start_stops_at_IRC_client self [] [] "IRC" "IRC" "channels"
           (with_client "IRC" example_irc_cfg) (PStr (MSG_TEMPLATE IRCClient)) []).
  - unfold self. cbn [_clients]. apply map_to_list_singleton.
  - reflexivity.
  - reflexivity.
  - reflexivity.
Defined.

(** ** The sessions: Telegram *)

(** [_say] with a token in the configuration, by whether the channel is
    known. *)
Lemma TelegramClient__say_run (client_id token : string) (client_cfg : dict)
    (st : telegram_state) (response : telegram_result) (channel msg : string) :
  client_cfg !! "token" = Some (PStr token) ->
  TelegramClient__say client_id client_cfg st response channel msg =
    match _channels st !! channel with
    | None => ([SessionLog ERROR (UnknownChannel client_id channel msg)],
               Raise (KeyError (PStr channel)))
    | Some id =>
        let request :=
          http_request "GET" ("https://api.telegram.org/bot" +:+ token +:+ "/sendMessage")
            (<["parse_mode" := PStr "Markdown"]> (<["text" := PStr msg]>
             (<["chat_id" := PInt id]> ∅))) in
        if result_ok response then ([request], Return tt)
        else match result_description response with
             | Some description =>
                 ([request; SessionLog ERROR (FailedToSend client_id description)],
                  Return tt)
             | None => ([request], Raise (KeyError (PStr "description")))
             end
    end.
Proof.
  intros Htoken. unfold TelegramClient__say, TelegramClient__make_url, contains.
  rewrite lift_getitem, Htoken, sbind_ret. cbn [py_str]. rewrite sbind_ret.
  cbv zeta. rewrite sbind_ret, append_assoc.
  destruct (_channels st !! channel) as [id|]; cbn [negb]; [|reflexivity].
  rewrite !sbind_ret. destruct (result_ok response); [reflexivity|].
  by destruct (result_description response).
Qed.

(** X16. A send to a Telegram channel the transport does not know (it is
    neither in the configured [channels] nor has a message come from it)
    is lost: [_say] logs the error and then still subscripts
    [self._channels], so it ends in [KeyError] and no request is made. *)
Theorem TelegramClient__say_unknown_channel (client_id token : string)
    (client_cfg : dict) (st : telegram_state) (response : telegram_result)
    (channel msg : string) :
  client_cfg !! "token" = Some (PStr token) ->
  _channels st !! channel = None ->
  TelegramClient__say client_id client_cfg st response channel msg
  = ([SessionLog ERROR (UnknownChannel client_id channel msg)],
     Raise (KeyError (PStr channel))).
Proof.
  intros Htoken Hchannel.
  by rewrite (TelegramClient__say_run _ token), Hchannel.
Qed.

Lemma TelegramClient__say_unknown_channel_witness :
  TelegramClient__say "Telegram" example_telegram_cfg {| _channels := ∅; offset := None |}
    {| result_ok := true; result_description := None |} "room" "hi"
  = ([SessionLog ERROR (UnknownChannel "Telegram" "room" "hi")],
     Raise (KeyError (PStr "room"))).
Proof.
  apply (TelegramClient__say_unknown_channel "Telegram" "secret"); reflexivity.
Defined.

(** X17. Listening is what makes a Telegram chat reachable: after a batch
    of updates, a send to a channel makes exactly one request,
    [sendMessage] with the text and [parse_mode] Markdown, to the chat id
    the channel had before the batch or, failing that, to the id of the
    first update of the batch that carried a text under that title. *)
Theorem TelegramClient__say_after_updates (client_id token : string)
    (client_cfg : dict) (self_user : telegram_user) (updates : list telegram_update)
    (st st' : telegram_state) (t : list event) (channel msg : string) (id : Z) :
  client_cfg !! "token" = Some (PStr token) ->
  TelegramClient_updates client_id self_user st updates = (t, Return st') ->
  (_channels st ∪ list_to_map (omap sighting updates)) !! channel = Some id ->
  TelegramClient__say client_id client_cfg st'
    {| result_ok := true; result_description := None |} channel msg
  = ([http_request "GET" ("https://api.telegram.org/bot" +:+ token +:+ "/sendMessage")
        (<["parse_mode" := PStr "Markdown"]> (<["text" := PStr msg]>
         (<["chat_id" := PInt id]> ∅)))],
     Return tt).
Proof.
  intros Htoken (Hc & _ & _)%TelegramClient_updates_returns Hid.
  by rewrite (TelegramClient__say_run _ token), Hc, Hid.
Qed.

Lemma TelegramClient__say_after_updates_witness :
  let user := {| telegram_username := Some "alice"; telegram_first_name := None |} in
  exists t st',
    TelegramClient_updates "Telegram" user {| _channels := ∅; offset := None |}
      [text_update 7 "room" 42 user "hi"] = (t, Return st') /\
    TelegramClient__say "Telegram" example_telegram_cfg st'
      {| result_ok := true; result_description := None |} "room" "hello"
    = ([http_request "GET" "https://api.telegram.org/botsecret/sendMessage"
          (<["parse_mode" := PStr "Markdown"]> (<["text" := PStr "hello"]>
           (<["chat_id" := PInt 42]> ∅)))],
       Return tt).
Proof.
  intros user. eexists _, _.
  assert (H : TelegramClient_updates "Telegram" user {| _channels := ∅; offset := None |}
                [text_update 7 "room" 42 user "hi"] = (_, Return _)) by reflexivity.
  split; [exact H|].
  apply (TelegramClient__say_after_updates "Telegram" "secret" example_telegram_cfg
           user _ _ _ _ "room" "hello" 42 eq_refl H).
  reflexivity.
Defined.

(** ** The sessions: Gitter *)

Lemma py_dict_dom_acc (pairs : list (string * pyval)) (d : dict) :
  dom (foldl (fun d kv => <[kv.1 := kv.2]> d) d pairs)
  = dom d ∪ list_to_set pairs.*1.
Proof.
  revert d. induction pairs as [|[k v] pairs IH]; intros d; simpl.
  - set_solver.
  - rewrite IH, dom_insert_L. set_solver.
Qed.

Lemma py_dict_dom (pairs : list (string * pyval)) :
  dom (py_dict pairs) = list_to_set pairs.*1.
Proof. unfold py_dict. rewrite py_dict_dom_acc. set_solver. Qed.

Lemma GitterClient__join_rooms_run (user : gitter_account) (found : string -> pyval)
    (rooms_to_join : list string) (rooms : dict) :
  exists rooms',
    GitterClient__join_rooms user found rooms rooms_to_join
    = (concat (join_requests user found <$> rooms_to_join), Return rooms') /\
    dom rooms' = dom rooms ∪ list_to_set rooms_to_join.
Proof.
  revert rooms. induction rooms_to_join as [|room l IH]; intros rooms.
  - exists rooms. split; [reflexivity | set_solver].
  - destruct (IH (<[room := found room]> rooms)) as (rooms' & Hrun & Hdom).
    exists rooms'. split.
    + cbn [GitterClient__join_rooms]. unfold GitterClient__join_room.
      unfold GitterClient__make_request. cbv zeta. simpl. rewrite Hrun.
      reflexivity.
    + rewrite Hdom, dom_insert_L. set_solver.
Qed.

Lemma sbind_emit {B} (e : session_event) (f : unit -> Session B) :
  sbind (semit e) f = (e :: (f tt).1, (f tt).2).
Proof. unfold sbind, semit. by destruct (f tt). Qed.

Lemma joined_app (t1 t2 : list session_event) : joined (t1 ++ t2) = joined t1 ++ joined t2.
Proof. apply omap_app. Qed.

Lemma listening_app (t1 t2 : list session_event) :
  listening (t1 ++ t2) = listening t1 ++ listening t2.
Proof. apply omap_app. Qed.

Lemma joined_join_requests (user : gitter_account) (found : string -> pyval)
    (l : list string) :
  joined (concat (join_requests user found <$> l)) = l /\
  listening (concat (join_requests user found <$> l)) = [].
Proof.
  induction l as [|room l [IH1 IH2]]; [done|].
  rewrite fmap_cons, concat_cons, joined_app, listening_app, IH1, IH2.
  split; [|done]. unfold join_requests, joined. cbn [omap list_omap].
  rewrite lookup_singleton_eq. cbn [mbind option_bind as_str].
  rewrite lookup_singleton_ne by done. done.
Qed.

Lemma sfor_each_listen (requested : list string) :
  sfor_each requested (fun room => semit (create_task_listen_messages room))
  = (create_task_listen_messages <$> requested, Return tt).
Proof.
  induction requested as [|room l IH]; [done|]. cbn [sfor_each]. by rewrite IH.
Qed.

Lemma joined_listen (requested : list string) :
  joined (create_task_listen_messages <$> requested) = [] /\
  listening (create_task_listen_messages <$> requested) = requested.
Proof.
  induction requested as [|room l [IH1 IH2]]; [done|].
  rewrite fmap_cons. unfold joined, listening in *. cbn [omap list_omap].
  by rewrite IH1, IH2.
Qed.

(** X18. Which rooms a Gitter transport joins and can use. After
    [_connect], the rooms it knows are the account's rooms that are not
    one-to-one conversations. The rooms it joins are those among them
    that the configuration does NOT list under [channels] (the set
    difference is taken that way round), so a configured channel is never
    joined. A listener is scheduled for every configured channel, and for
    a channel that is not already one of the account's rooms both the
    listener and a send end in [KeyError] at [self._rooms[...]]. *)
Theorem GitterClient__connect_rooms (client_id : string) (client_cfg : dict)
    (user : gitter_account) (rooms : list gitter_room) (found : string -> pyval)
    (requested : list string) :
  client_cfg !! "channels" = Some (PList (PStr <$> requested))
  \/ (client_cfg !! "channels" = None /\ requested = []) ->
  exists t self,
    GitterClient__connect client_id client_cfg user rooms found = (t, Return self) /\
    dom (_rooms self) = member_rooms rooms /\
    (forall room, room ∈ joined t <-> room ∈ member_rooms rooms /\ room ∉ requested) /\
    listening t = requested /\
    forall room msg,
      room ∉ member_rooms rooms ->
      GitterClient__listen_messages self room = sraise (KeyError (PStr room)) /\
      GitterClient__say self room msg = sraise (KeyError (PStr room)).
Proof.
  intros Hchannels.
  set (rooms0 := py_dict ((fun room => (room_name room, room_id room))
                            <$> filter (fun room => room_oneToOne room = false) rooms)).
  assert (Hdom0 : dom rooms0 = member_rooms rooms).
  { unfold rooms0, member_rooms. rewrite py_dict_dom. f_equal.
    rewrite <- list_fmap_compose. done. }
  destruct (GitterClient__join_rooms_run user found
              (elements (dom rooms0 ∖ list_to_set requested : gset string)) rooms0)
    as (rooms' & Hjoin & Hdom').
  assert (Hreq :
    match client_cfg !! "channels" with
    | None => sret []
    | Some (PList l) =>
        match mapM as_str l with
        | Some names => sret names
        | None => sraise (OutsideModel "a channel that is not a string")
        end
    | Some _ => sraise (OutsideModel "channels that are not a list")
    end = sret requested).
  { destruct Hchannels as [-> | [-> ->]]; [|done].
    pose proof (as_str_list_strings requested) as Hs. simpl in Hs. by rewrite Hs. }
  exists ([http_request "GET" "https://api.gitter.im/v1/user" ∅;
           SessionLog DEBUG (ConnectedAs client_id (account_username user));
           http_request "GET" "https://api.gitter.im/v1/rooms" ∅]
          ++ (if bool_decide (rooms0 = ∅) then []
              else [SessionLog DEBUG
                      (ConnectedRooms client_id
                         (String.concat ", " (map_to_list rooms0).*1))])
          ++ concat (join_requests user found
                       <$> elements (dom rooms0 ∖ list_to_set requested : gset string))
          ++ (create_task_listen_messages <$> requested)),
         {| _user := Some user; _rooms := rooms' |}.
  split; [|split; [|split; [|split]]].
  - unfold GitterClient__connect. cbv zeta. fold rooms0. rewrite Hreq.
    unfold GitterClient__make_request.
    rewrite !sbind_emit. cbn [fst snd].
    assert (Hrest :
      sbind (sret requested) (fun requested_rooms =>
        sbind (GitterClient__join_rooms user found rooms0
                 (elements (dom rooms0 ∖ list_to_set requested_rooms : gset string)))
          (fun _rooms =>
             sbind (sfor_each requested_rooms
                      (fun room => semit (create_task_listen_messages room)))
               (fun _ => sret {| _user := Some user; _rooms := _rooms |})))
      = (concat (join_requests user found
                   <$> elements (dom rooms0 ∖ list_to_set requested : gset string))
         ++ (create_task_listen_messages <$> requested),
         Return {| _user := Some user; _rooms := rooms' |})).
    { rewrite sbind_ret, Hjoin, sbind_run, sfor_each_listen, sbind_run.
      cbn [sret fst snd]. by rewrite app_nil_r. }
    destruct (bool_decide (rooms0 = ∅)).
    + rewrite sbind_ret, Hrest. reflexivity.
    + rewrite sbind_emit, Hrest. reflexivity.
  - cbn [_rooms]. rewrite Hdom', <- Hdom0. set_solver.
  - intros room. rewrite !joined_app.
    rewrite (proj1 (joined_join_requests _ _ _)), (proj1 (joined_listen _)).
    rewrite app_nil_r.
    replace (joined (if bool_decide (rooms0 = ∅) then []
                     else [SessionLog DEBUG
                             (ConnectedRooms client_id
                                (String.concat ", " (map_to_list rooms0).*1))]))
      with (@nil string) by (by destruct (bool_decide (rooms0 = ∅))).
    cbn [joined omap list_omap]. rewrite lookup_empty. cbn [mbind option_bind app].
    rewrite elem_of_elements, elem_of_difference, elem_of_list_to_set, Hdom0.
    tauto.
  - rewrite !listening_app.
    rewrite (proj2 (joined_join_requests _ _ _)), (proj2 (joined_listen _)).
    by destruct (bool_decide (rooms0 = ∅)).
  - intros room msg Hroom.
    assert (Hnone : rooms' !! room = None).
    { apply not_elem_of_dom. rewrite Hdom', <- Hdom0 in *. set_solver. }
    unfold GitterClient__listen_messages, GitterClient__say. cbn [_rooms].
    by rewrite !lift_getitem, Hnone.
Qed.

Lemma GitterClient__connect_rooms_witness :
  let cfg : dict := <["channels" := PList (PStr <$> ["team/dev"])]> example_gitter_cfg in
  let user := {| account_id := "u1"; account_username := "relay" |} in
  let rooms := [{| room_name := "team/lobby"; room_id := PStr "r1"; room_oneToOne := false |}] in
  exists t self,
    GitterClient__connect "Gitter" cfg user rooms (fun _ => PStr "r9") = (t, Return self) /\
    joined t = ["team/lobby"] /\
    listening t = ["team/dev"] /\
    GitterClient__listen_messages self "team/dev" = sraise (KeyError (PStr "team/dev")).
Proof.
  intros cfg user rooms.
  destruct (GitterClient__connect_rooms "Gitter" cfg user rooms (fun _ => PStr "r9")
              ["team/dev"]) as (t & self & Hrun & _ & _ & _ & Hlost).
  { left. reflexivity. }
  exists t, self. split; [exact Hrun|].
  assert (Hroom : "team/dev" ∉ member_rooms rooms).
  { apply (bool_decide_unpack _). by vm_compute. }
  split; [|split; [|exact (proj1 (Hlost "team/dev" "" Hroom))]].
  - assert (Ht : t = (GitterClient__connect "Gitter" cfg user rooms (fun _ => PStr "r9")).1)
      by (by rewrite Hrun).
    rewrite Ht. vm_compute. reflexivity.
  - assert (Ht : t = (GitterClient__connect "Gitter" cfg user rooms (fun _ => PStr "r9")).1)
      by (by rewrite Hrun).
    rewrite Ht. vm_compute. reflexivity.
Defined.

(** ** The registry and the command line *)

(** X19. The registry [load_plugins] fills holds every transport class
    under its own [NAME] and nothing else: no two classes share a name, so
    none is lost, and a [transport] value selects a class exactly when it
    is that class's [NAME], letter case included. *)
Theorem registry_by_NAME (k : string) (cls : transport_class) :
  _transports !! k = Some cls <-> k = NAME cls.
Proof.
  split.
  - unfold _transports. cbn [list_to_map foldr uncurry fst snd NAME].
    destruct (decide (k = "irc")) as [->|?];
      [rewrite lookup_insert_eq; by intros [= <-]|rewrite lookup_insert_ne by done].
    destruct (decide (k = "Gitter")) as [->|?];
      [rewrite lookup_insert_eq; by intros [= <-]|rewrite lookup_insert_ne by done].
    destruct (decide (k = "telegram")) as [->|?];
      [rewrite lookup_insert_eq; by intros [= <-]|rewrite lookup_insert_ne by done].
    by rewrite lookup_empty.
  - intros ->. by destruct cls.
Qed.

Section CommandLineProperties.

Variables (__doc__ __file__ RULE_SCHEMA_dump : string).
Variable expanduser : string -> string.
Variable isfile : string -> bool.

(** X20. Asking for the help on clients never prints a schema: with a
    help flag and [clients] or [client] among the arguments, [run] prints
    the heading lines and then ends in [AttributeError], because the loop
    runs over the names of the registry and not over the classes; it does
    not get to [sys.exit(0)]. *)
Theorem run_help_clients_raises (args : list string) :
  help_asked args = true ->
  "clients" ∈ args \/ "client" ∈ args ->
  run_arguments __doc__ __file__ RULE_SCHEMA_dump expanduser isfile args
  = ([Stdout "There are several available transports.";
      Stdout ("The jsonschema for values of clients section: " +:+ LF)],
     Raise (AttributeError "'str' object has no attribute 'CLIENT_SCHEMA'")).
Proof.
  intros Hhelp Hclients. unfold run_arguments. rewrite Hhelp.
  assert (bool_decide ("clients" ∈ args) || bool_decide ("client" ∈ args) = true) as ->.
  { apply orb_true_iff. rewrite !bool_decide_eq_true. exact Hclients. }
  destruct (map_to_list _transports).*1 as [|t l] eqn:Hkeys.
  - apply (f_equal length) in Hkeys. rewrite length_fmap, length_map_to_list in Hkeys.
    vm_compute in Hkeys. discriminate.
  - reflexivity.
Qed.

(** X21. What the arguments decide. [run] goes on to read a file exactly
    when there is one argument, it is none of the help words, and it names
    a file; the file is then that argument with the user directory
    expanded, and nothing has been printed. In every other case it prints
    and ends: with status 0 when help was asked (on anything but the
    clients), with status 1 when it was not. A help word anywhere among
    the arguments wins over the rest of them. *)
Theorem run_arguments_outcome (args : list string) :
  let outcome := run_arguments __doc__ __file__ RULE_SCHEMA_dump expanduser isfile args in
  (forall filename t,
     outcome = (t, Return filename) <->
     t = [] /\ help_asked args = false /\
     exists arg, args = [arg] /\ isfile (expanduser arg) = true
                 /\ filename = expanduser arg) /\
  (help_asked args = true -> "clients" ∉ args -> "client" ∉ args ->
   outcome.2 = Raise (SystemExit 0) /\ outcome.1 <> []) /\
  (help_asked args = false ->
   (forall arg, args = [arg] -> isfile (expanduser arg) = false) ->
   outcome.2 = Raise (SystemExit 1) /\ exists line, outcome.1 = [Stdout line]).
Proof.
  cbv zeta. unfold run_arguments. split; [|split].
  - intros filename t. destruct (help_asked args) eqn:Hhelp.
    + split; [|by intros (_ & ? & _)].
      intros H. apply (f_equal snd) in H. rewrite bind_snd in H.
      simpl in H. by destruct (_ : M unit).2.
    + destruct args as [|arg [|arg' args]]; simpl.
      * split; [discriminate | by intros (_ & _ & ? & ? & _)].
      * destruct (isfile (expanduser arg)) eqn:Hfile; simpl.
        -- split.
           ++ intros [= <- <-]. split; [done|]. split; [done|]. by exists arg.
           ++ intros (-> & _ & arg0 & [= <-] & _ & ->). done.
        -- split; [discriminate|].
           intros (_ & _ & arg0 & [= <-] & ? & _). congruence.
      * split; [discriminate | by intros (_ & _ & ? & ? & _)].
  - intros -> Hc1 Hc2.
    rewrite !(bool_decide_eq_false_2 (_ ∈ args)) by done. cbn [orb].
    destruct (bool_decide ("rules" ∈ args) || bool_decide ("rule" ∈ args)); by simpl.
  - intros -> Hnofile.
    destruct args as [|arg [|arg' args]]; simpl.
    + split; [done | by eexists].
    + rewrite (Hnofile arg eq_refl). simpl. split; [done | by eexists].
    + split; [done | by eexists].
Qed.

End CommandLineProperties.

Lemma run_help_clients_raises_witness :
  run_arguments "usage" "forwarder.py" "{}" (fun path => path) (fun _ => true)
    ["config.yaml"; "--help"; "clients"]
  = ([Stdout "There are several available transports.";
      Stdout ("The jsonschema for values of clients section: " +:+ LF)],
     Raise (AttributeError "'str' object has no attribute 'CLIENT_SCHEMA'")).
Proof.
  apply run_help_clients_raises; [reflexivity|].
  left. apply (bool_decide_unpack _). by vm_compute.
Defined.

Lemma run_arguments_outcome_witness :
  run_arguments "usage" "forwarder.py" "{}" (fun path => path)
    (fun path => bool_decide (path = "config.yaml")) ["config.yaml"]
  = ([], Return "config.yaml") /\
  (run_arguments "usage" "forwarder.py" "{}" (fun path => path)
     (fun path => bool_decide (path = "config.yaml")) ["config.yaml"; "-h"]).2
  = Raise (SystemExit 0).
Proof.
  split.
  - apply (proj1 (run_arguments_outcome "usage" "forwarder.py" "{}" (fun path => path)
                    (fun path => bool_decide (path = "config.yaml")) ["config.yaml"])).
    split; [reflexivity|]. split; [reflexivity|]. by exists "config.yaml".
  - apply (proj1 (proj2 (run_arguments_outcome "usage" "forwarder.py" "{}"
                           (fun path => path)
                           (fun path => bool_decide (path = "config.yaml"))
                           ["config.yaml"; "-h"]))).
    + reflexivity.
    + apply (bool_decide_unpack _). by vm_compute.
    + apply (bool_decide_unpack _). by vm_compute.
Defined.

(** ** A Gitter client without a token *)

Lemma init_clients_unconstructible (client : string) (keys : list string)
    (clients : gmap string dict) (cfg : dict) :
  clients !! client = Some cfg ->
  transport_class_of cfg = Some GitterClient ->
  cfg !! "token" = None ->
  init_clients (client :: keys) clients = raise (KeyError (PStr "token")).
Proof.
  intros Hcfg Hcls Htoken. cbn [init_clients]. unfold clients_getitem.
  rewrite Hcfg, bind_ret. unfold transport_class_of in Hcls. unfold getitem at 1.
  destruct (cfg !! "transport") as [[| | |k| | |]|]; try done.
  rewrite bind_ret. cbn [transports_getitem]. rewrite Hcls, bind_ret.
  cbn [construct]. unfold getitem. by rewrite Htoken.
Qed.

Lemma init_clients_requires_token (keys : list string) (clients : gmap string dict) :
  NoDup keys ->
  (forall k, k ∈ keys ->
     exists cfg, clients !! k = Some cfg /\ is_Some (transport_class_of cfg)) ->
  (exists k cfg, k ∈ keys /\ clients !! k = Some cfg /\
     transport_class_of cfg = Some GitterClient /\ cfg !! "token" = None) ->
  init_clients keys clients = raise (KeyError (PStr "token")).
Proof.
  intros Hnd. revert clients.
  induction Hnd as [|k0 keys Hnotin Hnd IH]; intros clients Hreg Hbad.
  { destruct Hbad as (k & cfg & Hin & _). by apply elem_of_nil in Hin. }
  destruct (Hreg k0) as (cfg0 & Hcfg0 & [cls0 Hcls0]); [by left|].
  destruct (constructible cfg0) eqn:Hcon.
  - rewrite (init_clients_step k0 keys clients cfg0) by done.
    apply IH.
    + intros k Hk. rewrite lookup_insert_ne by (intros ->; done).
      apply Hreg. by right.
    + destruct Hbad as (k & cfg & Hin & Hcfg & Hcls & Htoken).
      apply elem_of_cons in Hin as [->|Hin].
      * rewrite Hcfg0 in Hcfg. injection Hcfg as <-.
        unfold constructible, contains in Hcon. rewrite Hcls, Htoken in Hcon. done.
      * exists k, cfg. split; [done|]. split; [|done].
        rewrite lookup_insert_ne by (intros ->; done). done.
  - unfold constructible, contains in Hcon. rewrite Hcls0 in Hcon.
    destruct cls0; try done.
    destruct (cfg0 !! "token") eqn:Htoken; [done|].
    by apply (init_clients_unconstructible k0 keys clients cfg0).
Qed.

(** X22. A Gitter client without a [token] is not caught by validation
    and fails at construction: when every client names a registered
    transport and one of them is a Gitter client whose configuration has
    no [token], the clients loop of [validate] accepts them all, and
    [Forwarder.__init__] ends in [KeyError] for [token] before it
    subscribes to the [messages] signal. *)
Theorem Forwarder_init_requires_Gitter_token (clients : gmap string dict)
    (rules : list rule) (client_id : string) (client_cfg : dict) :
  map_Forall (fun _ cfg => is_Some (transport_class_of cfg)) clients ->
  clients !! client_id = Some client_cfg ->
  transport_class_of client_cfg = Some GitterClient ->
  client_cfg !! "token" = None ->
  validate_clients (map_to_list clients) = ret true /\
  Forwarder_init clients rules = ([], Raise (KeyError (PStr "token"))).
Proof.
  intros Hreg Hcfg Hcls Htoken. split; [by apply validate_clients_map_registered|].
  unfold Forwarder_init. rewrite init_clients_requires_token; [done|..].
  - apply NoDup_fst_map_to_list.
  - intros k [[k' cfg] [-> Hin]]%list_elem_of_fmap. simpl.
    apply elem_of_map_to_list in Hin. exists cfg. split; [done|]. by apply (Hreg k').
  - exists client_id, client_cfg. split; [|done].
    apply list_elem_of_fmap. exists (client_id, client_cfg).
    split; [done|]. by apply elem_of_map_to_list.
Qed.

Lemma Forwarder_init_requires_Gitter_token_witness :
  let clients : gmap string dict :=
    <["Chat" := <["transport" := PStr "Gitter"]> ∅]> example_clients in
  validate_clients (map_to_list clients) = ret true /\
  Forwarder_init clients [] = ([], Raise (KeyError (PStr "token"))).
Proof.
  intros clients.
  apply (Forwarder_init_requires_Gitter_token clients [] "Chat"
           (<["transport" := PStr "Gitter"]> ∅)).
  - apply (bool_decide_unpack _). by vm_compute.
  - reflexivity.
  - reflexivity.
  - reflexivity.
Defined.

(** ** Messages no rule is about *)

Section OtherEndpoints.

Variable re_match : string -> string -> re_result.

(** X23. A message that comes from an endpoint no rule names is only
    logged: when no rule has both the sender as the client id and the
    target as the channel of its [from], [on_message] returns without a
    send, whatever else the rules hold. Neither a pattern that does not
    compile nor a destination that does not exist in some rule can make
    [on_message] raise for such a message. *)
Theorem on_message_ignores_other_endpoints (self : Forwarder)
    (sender user target text : string) :
  Forall (fun r => has_char "@" (rule_from r) = true) (_rules self) ->
  Forall (fun r => client_id_of (rule_from r) <> sender
                   \/ channel_of (rule_from r) <> target) (_rules self) ->
  on_message re_match self sender user target text
  = ([Log INFO (Received sender target user text)], Return tt).
Proof.
  intros Hat Hother. unfold on_message.
  assert (Hloop : for_each (_rules self)
                    (on_message_rule re_match self sender user target text) = ret tt).
  { induction (_rules self) as [|r rules IH]; [done|].
    apply Forall_cons in Hat as [Hr Hat], Hother as [Ho Hother].
    cbn [for_each]. rewrite IH by done.
    unfold on_message_rule.
    rewrite split_endpoint_channel_client, bind_ret by done. cbv zeta. cbn [fst snd].
    assert (negb (bool_decide (client_id_of (rule_from r) = sender))
            || negb (bool_decide (channel_of (rule_from r) = target)) = true) as ->.
    { apply orb_true_iff. rewrite !negb_true_iff, !bool_decide_eq_false. exact Ho. }
    reflexivity. }
  by rewrite Hloop.
Qed.

End OtherEndpoints.

Lemma on_message_ignores_other_endpoints_witness :
  on_message stand_in_re_match regexp_forwarder "Gitter" "alice" "#b" "("
  = ([Log INFO (Received "Gitter" "#b" "alice" "(")], Return tt).
Proof.
  apply on_message_ignores_other_endpoints.
  - repeat constructor.
  - constructor; [|constructor]. left. discriminate.
Defined.

(** ** [Forwarder.start] when every client can connect *)

Lemma first_missing_none (client_cfg : dict) :
  first_missing client_cfg = None ->
  exists server port nickname channels,
    client_cfg !! "server" = Some server /\ client_cfg !! "port" = Some port /\
    client_cfg !! "nickname" = Some nickname /\ client_cfg !! "channels" = Some channels.
Proof.
  unfold first_missing, irc_required. rewrite !filter_cons, filter_nil.
  destruct (client_cfg !! "server") as [server|]; [|done].
  destruct (client_cfg !! "port") as [port|]; [|done].
  destruct (client_cfg !! "nickname") as [nickname|]; [|done].
  destruct (client_cfg !! "channels") as [channels|]; [|done].
  intros _. by exists server, port, nickname, channels.
Qed.

(** One client that can connect: it is told to, once, and the event loop
    is not touched. *)
Lemma transport_connect_ready (client_cfg : dict) :
  connectable client_cfg ->
  exists t client_id,
    sbind (lift (getitem client_cfg "client"))
          (fun c => transport_connect c client_cfg) = (t, Return tt) /\
    configured_client_id client_cfg = Some client_id /\
    connecting t = [client_id] /\
    Forall (fun e => is_run_forever e = false) t.
Proof.
  intros (cls & client_id & template & Hclient & Hirc).
  unfold configured_client_id. rewrite lift_getitem, Hclient, sbind_ret.
  cbn [transport_connect]. destruct cls.
  - destruct (Hirc eq_refl) as (Hmissing & l & Hchannels).
    destruct (first_missing_none _ Hmissing)
      as (server & port & nickname & channels & Hs & Hp & Hn & Hc).
    rewrite Hchannels in Hc. injection Hc as <-.
    unfold IRCClient__connect. rewrite !lift_getitem, Hs, Hp, Hn, Hchannels.
    pose proof (as_str_list_strings l) as Hl. simpl in Hl.
    cbv [sbind sret semit py_join]. rewrite Hl.
    eexists _, client_id. split; [reflexivity|]. split; [done|].
    split; [reflexivity | by repeat constructor].
  - eexists _, client_id. split; [reflexivity|]. split; [done|].
    split; [reflexivity | by repeat constructor].
  - eexists _, client_id. split; [reflexivity|]. split; [done|].
    split; [reflexivity | by repeat constructor].
Qed.

Lemma connecting_app (t1 t2 : list session_event) :
  connecting (t1 ++ t2) = connecting t1 ++ connecting t2.
Proof. apply omap_app. Qed.

(** X24. When every client holds its transport and every IRC client has
    the keys [_connect] reads, with a list of strings as [channels],
    [Forwarder.start] tells every client to connect, each exactly once and
    in the order of the clients mapping, and only then starts the event
    loop, which is the last thing it does. *)
Theorem Forwarder_start_connects_all (self : Forwarder) :
  map_Forall (fun _ client_cfg => connectable client_cfg) (_clients self) ->
  exists t,
    Forwarder_start self = (t ++ [core RunForever], Return tt) /\
    Some <$> connecting t = configured_client_id <$> (map_to_list (_clients self)).*2 /\
    Forall (fun e => is_run_forever e = false) t.
Proof.
  intros Hall%map_Forall_to_list. unfold Forwarder_start.
  assert (Hloop : exists t,
    sfor_each (map_to_list (_clients self)).*2
      (fun client => sbind (lift (getitem client "client"))
                           (fun c => transport_connect c client)) = (t, Return tt) /\
    Some <$> connecting t = configured_client_id <$> (map_to_list (_clients self)).*2 /\
    Forall (fun e => is_run_forever e = false) t).
  { induction Hall as [|[cid client_cfg] items Hcfg _ (t2 & Hrun2 & Hids2 & Hq2)].
    - by exists [].
    - destruct (transport_connect_ready client_cfg Hcfg)
        as (t1 & client_id & Hrun1 & Hid1 & Hids1 & Hq1).
      exists (t1 ++ t2). rewrite !fmap_cons. cbn [sfor_each snd].
      rewrite Hrun1, sbind_run, Hrun2. split; [done|]. split.
      + by rewrite connecting_app, Hids1, fmap_app, Hids2, Hid1.
      + by apply Forall_app. }
  destruct Hloop as (t & Hrun & Hids & Hq). exists t.
  by rewrite Hrun, sbind_run.
Qed.

Lemma Forwarder_start_connects_all_witness :
  let irc : dict := <["channels" := PList (PStr <$> ["#a"])]> example_irc_cfg in
  let self := {| _rules := [];
                 _clients := <["IRC" := with_client "IRC" irc]>
                             {["Gitter" := with_client "Gitter" example_gitter_cfg]} |} in
  exists t,
    Forwarder_start self = (t ++ [core RunForever], Return tt) /\
    Some <$> connecting t = configured_client_id <$> (map_to_list (_clients self)).*2.
Proof.
  intros irc self.
  destruct (Forwarder_start_connects_all self) as (t & Hrun & Hids & _).
  - intros cid cfg. unfold self. cbn [_clients].
    rewrite lookup_insert_Some, lookup_singleton_Some.
    intros [[<- <-]|[_ [<- <-]]].
    + exists IRCClient, "IRC", (PStr (MSG_TEMPLATE IRCClient)).
      split; [reflexivity|]. intros _. split; [reflexivity|].
      exists ["#a"]. reflexivity.
    + exists GitterClient, "Gitter", (PStr (MSG_TEMPLATE GitterClient)).
      split; [reflexivity|]. discriminate.
  - exists t. split; [exact Hrun | exact Hids].
Defined.

(** ** The Telegram offset and the updates already published *)

Lemma forwarded_update_id (update : telegram_update) p :
  forwarded update = Some p -> p.1 = update_id update.
Proof.
  unfold forwarded. destruct (text_message update) as [[message text]|]; [|done].
  destruct (chat_title (message_chat message)); [|done].
  destruct (telegram_author message); [|done]. by intros [= <-].
Qed.

Lemma forwarded_elem_of (updates : list telegram_update) p :
  p ∈ omap forwarded updates ->
  exists update, update ∈ updates /\ p.1 = update_id update.
Proof.
  intros (update & Hin & Hf)%list_elem_of_omap.
  exists update. split; [done|]. by apply forwarded_update_id.
Qed.

(** In a batch whose ids ascend, the last published update has the
    greatest id of those published. *)
Lemma forwarded_last_greatest (updates : list telegram_update) p q :
  ascending (update_id <$> updates) ->
  p ∈ omap forwarded updates ->
  last (omap forwarded updates) = Some q ->
  (p.1 <= q.1)%Z.
Proof.
  induction updates as [|update updates IH]; intros Hsorted Hp Hq.
  { by apply elem_of_nil in Hp. }
  rewrite fmap_cons in Hsorted. destruct Hsorted as [Hlt Hsorted].
  cbn [omap list_omap] in Hp, Hq.
  change (list_omap _ _ forwarded updates) with (omap forwarded updates) in Hp, Hq.
  destruct (forwarded update) as [p0|] eqn:Hf; [|by apply IH].
  rewrite last_cons in Hq.
  destruct (last (omap forwarded updates)) as [y|] eqn:Hlast.
  - injection Hq as <-. apply elem_of_cons in Hp as [->|Hp]; [|by apply IH].
    apply last_Some_elem_of, forwarded_elem_of in Hlast as (update' & Hin & ->).
    rewrite (forwarded_update_id _ _ Hf).
    rewrite Forall_fmap, Forall_forall in Hlt. specialize (Hlt _ Hin). simpl in Hlt. lia.
  - injection Hq as <-. apply last_None in Hlast. rewrite Hlast in Hp.
    apply elem_of_cons in Hp as [->|Hp]; [lia | by apply elem_of_nil in Hp].
Qed.

(** X25. The offset acknowledges what has been published. When the ids
    of a batch ascend, as the ids of [getUpdates] do, then after the batch
    the offset is greater than the id of every update the batch
    published: the next request, which asks for updates from the offset
    on, cannot bring a published update back. *)
Theorem TelegramClient_offset_above_published (client_id : string)
    (self_user : telegram_user) (updates : list telegram_update)
    (st st' : telegram_state) (t : list event) :
  TelegramClient_updates client_id self_user st updates = (t, Return st') ->
  ascending (update_id <$> updates) ->
  forall p, p ∈ omap forwarded updates ->
    exists next, offset st' = Some next /\ (p.1 < next)%Z.
Proof.
  intros (_ & _ & Ho)%TelegramClient_updates_returns Hsorted p Hp.
  destruct (last (omap forwarded updates)) as [q|] eqn:Hlast.
  - exists (q.1 + 1)%Z. split; [done|].
    pose proof (forwarded_last_greatest updates p q Hsorted Hp Hlast). lia.
  - apply last_None in Hlast. rewrite Hlast in Hp. by apply elem_of_nil in Hp.
Qed.

Lemma TelegramClient_offset_above_published_witness :
  let user := {| telegram_username := Some "alice"; telegram_first_name := None |} in
  let updates := [text_update 7 "room" 42 user "hi"; text_update 9 "room" 42 user "bye"] in
  exists t st',
    TelegramClient_updates "Telegram" user {| _channels := ∅; offset := None |} updates
    = (t, Return st') /\
    exists next, offset st' = Some next /\ (7 < next)%Z.
Proof.
  intros user updates. eexists _, _.
  assert (H : TelegramClient_updates "Telegram" user {| _channels := ∅; offset := None |}
                updates = (_, Return _)) by reflexivity.
  split; [exact H|].
  assert (Hids : ascending (update_id <$> updates)).
  { cbn. repeat split; repeat constructor. }
  apply (TelegramClient_offset_above_published _ _ _ _ _ _ H Hids
           (7%Z, ("alice", "room", "hi"))).
  left.
Defined.
